(** * Retrieval engine of the gSASRec movie recommender

    A shallow embedding of the vector-retrieval and caching code of the
    backend: [faiss_index.py], [qdrant_service.py], [database.py],
    [embedding_exporter.py], and the endpoints of [api.py] and
    [api_ml32m_vectorial.py] that drive them.

    Conventions.
    - Python [int] is [Z]; Python [float] (and float32 array entries) are
      exact rationals [Q], so rounding is not modelled.
    - A [dict] used as a map is a [gmap]; a [list] is a [list].
    - An exception is a value of [Exn]; a call that may raise returns a
      [Result].  Mutations made before an exception is raised are kept.
    - FAISS is an in-process library: its operations are the fields of
      the class [FaissLib].  Redis, MongoDB, the Qdrant server and the
      sequence model are external services: a call to one of them is an
      [Event], programs are trees of events ([Prog]), and [run] interprets
      a program against an arbitrary handler while recording the calls.
    - Printing and logging have no effect on what is modelled and are
      left out; [await] is sequential. *)

From Stdlib Require Import ZArith QArith Qminmax List Lia Ascii String.
From stdpp Require Import base option list gmap strings pretty.

Open Scope Z_scope.

(** ** Exceptions and results *)

Inductive Exn : Type :=
| ValueError (msg : string)
| TypeError (msg : string)
| IndexError (msg : string)
| AttributeError (msg : string)
| JSONDecodeError (msg : string)
| KeyError (msg : string)
| HTTPException (status_code : Z) (detail : string)
| ExternalError (msg : string).

Inductive Result (A : Type) : Type :=
| Ok (a : A)
| Raise (e : Exn).

Arguments Ok {A} a.
Arguments Raise {A} e.

(** [str(e)] of an exception. *)
Definition exn_str (e : Exn) : string :=
  match e with
  | ValueError m | TypeError m | IndexError m | AttributeError m
  | JSONDecodeError m | KeyError m | ExternalError m => m
  | HTTPException c d => pretty c +:+ ": " +:+ d
  end.

(** ** Embedding vectors *)

Definition Vector : Type := list Q.

Fixpoint dot (u v : Vector) : Q :=
  match u, v with
  | x :: u', y :: v' => (x * y + dot u' v')%Q
  | _, _ => 0%Q
  end.

(** Squared L2 norm; a vector has unit length when it equals one. *)
Definition norm_sq (v : Vector) : Q := dot v v.

Definition unit_norm (v : Vector) : Prop := (norm_sq v == 1)%Q.

(** A list of scores in non-increasing order. *)
Fixpoint non_increasing (l : list Q) : Prop :=
  match l with
  | [] => True
  | x :: l' =>
      match l' with
      | [] => True
      | y :: _ => (y <= x)%Q /\ non_increasing l'
      end
  end.

(** Ranked pairs [(id, score)]: every pair of positions [i < j] with the
    same score has its ids in ascending order. *)
Definition ties_by_ascending_id (ids : list Z) (scores : list Q) : Prop :=
  forall (i j : nat) (a b : Z) (s t : Q),
    (i < j)%nat ->
    ids !! i = Some a -> ids !! j = Some b ->
    scores !! i = Some s -> scores !! j = Some t ->
    (s == t)%Q -> a <= b.

(** ** The FAISS library ([import faiss]) *)

Class FaissLib : Type := {
  Index : Type;
  (** [faiss.IndexFlatIP(d)] *)
  IndexFlatIP : Z -> Result Index;
  (** [faiss.IndexIVFPQ(quantizer, d, nlist, M, nbits)] *)
  IndexIVFPQ : Index -> Z -> Z -> Z -> Z -> Result Index;
  (** [faiss.IndexHNSWFlat(d, M)] *)
  IndexHNSWFlat : Z -> Z -> Result Index;
  (** [index.hnsw.efConstruction = c; index.hnsw.efSearch = s] *)
  hnsw_set_ef : Index -> Z -> Z -> Index;
  (** [index.train(x)] and [index.add(x)] update the index in place. *)
  index_train : Index -> list Vector -> Result Index;
  index_add : Index -> list Vector -> Result Index;
  (** [index.search(x, k)]: one row of scores and one row of internal
      indices per query row. *)
  index_search : Index -> list Vector -> Z -> Result (list (list Q) * list (list Z))
}.

(** What the wrapper relies on from [index.search]: the two matrices
    have one row per query and [k] columns, and a row depends on its own
    query only. *)
Class FaissSearchContract (F : FaissLib) : Prop := {
  search_shape : forall ix qs k S I,
    index_search ix qs k = Ok (S, I) ->
    length S = length qs /\ length I = length qs /\
    Forall (fun row => Z.of_nat (length row) = k) S /\
    Forall (fun row => Z.of_nat (length row) = k) I;
  search_rowwise : forall ix qs k S I (i : nat) q,
    index_search ix qs k = Ok (S, I) ->
    qs !! i = Some q ->
    exists srow irow,
      S !! i = Some srow /\ I !! i = Some irow /\
      index_search ix [q] k = Ok ([srow], [irow])
}.

(** An index made by [faiss.IndexFlatIP] and filled by [add]: the one
    kind of index that ranks by inner product.  [faiss.IndexIVFPQ] and
    [faiss.IndexHNSWFlat], called as [create_index] calls them, take the
    library's default metric, the L2 distance. *)
Inductive flat_inner_product {F : FaissLib} : Index -> Prop :=
| flat_new (d : Z) (ix : Index) :
    IndexFlatIP d = Ok ix -> flat_inner_product ix
| flat_filled (ix ix' : Index) (xs : list Vector) :
    flat_inner_product ix -> index_add ix xs = Ok ix' -> flat_inner_product ix'.

(** The order of an inner-product answer: each row of scores is in
    non-increasing order. *)
Class FlatRanking (F : FaissLib) : Prop := {
  flat_sorted : forall ix qs k S I,
    flat_inner_product ix ->
    index_search ix qs k = Ok (S, I) -> Forall non_increasing S
}.

(** ** [faiss_index.py]: class [FAISSIndex] *)

Section FAISSIndex.
Context {F : FaissLib}.

Record FAISSIndex : Type := {
  embedding_dim : Z;
  index_type : string;
  index : option Index;
  item_mapping : gmap Z Z;
  reverse_item_mapping : gmap Z Z
}.

(** [FAISSIndex.__init__] *)
Definition FAISSIndex_init (embedding_dim : Z) (index_type : string) : FAISSIndex :=
  {| embedding_dim := embedding_dim; index_type := index_type;
     index := None; item_mapping := ∅; reverse_item_mapping := ∅ |}.

Definition set_mappings (self : FAISSIndex) (m r : gmap Z Z) : FAISSIndex :=
  {| embedding_dim := embedding_dim self; index_type := index_type self;
     index := index self; item_mapping := m; reverse_item_mapping := r |}.

Definition set_index (self : FAISSIndex) (ix : Index) : FAISSIndex :=
  {| embedding_dim := embedding_dim self; index_type := index_type self;
     index := Some ix; item_mapping := item_mapping self;
     reverse_item_mapping := reverse_item_mapping self |}.

(** [{v: k for k, v in item_mapping.items()}].  A [gmap] does not record
    insertion order, so where two keys carry the same value the key kept
    is the one met last in key order. *)
Definition reverse_mapping (m : gmap Z Z) : gmap Z Z :=
  foldl (fun acc kv => <[kv.2 := kv.1]> acc) ∅ (map_to_list m).

(** [self.index.add(embeddings.astype('float32'))]: raises
    [AttributeError] when no index object was assigned. *)
Definition add_embeddings (self : FAISSIndex) (embeddings : list Vector)
  : Result unit * FAISSIndex :=
  match index self with
  | None => (Raise (AttributeError "'NoneType' object has no attribute 'add'"), self)
  | Some ix =>
      match index_add ix embeddings with
      | Ok ix' => (Ok tt, set_index self ix')
      | Raise e => (Raise e, self)
      end
  end.

(** [FAISSIndex.create_index] *)
Definition create_index (self : FAISSIndex) (embeddings : list Vector)
    (item_mapping : gmap Z Z) : Result unit * FAISSIndex :=
  let self := set_mappings self item_mapping (reverse_mapping item_mapping) in
  if String.eqb (index_type self) "flat" then
    match IndexFlatIP (embedding_dim self) with
    | Raise e => (Raise e, self)
    | Ok ix => add_embeddings (set_index self ix) embeddings
    end
  else if String.eqb (index_type self) "ivf" then
    let nlist := Z.min 100 (Z.of_nat (length embeddings) / 10) in
    match IndexFlatIP (embedding_dim self) with
    | Raise e => (Raise e, self)
    | Ok quantizer =>
        match IndexIVFPQ quantizer (embedding_dim self) nlist 8 8 with
        | Raise e => (Raise e, self)
        | Ok ix =>
            let self := set_index self ix in
            match index_train ix embeddings with
            | Raise e => (Raise e, self)
            | Ok ix' => add_embeddings (set_index self ix') embeddings
            end
        end
    end
  else if String.eqb (index_type self) "hnsw" then
    match IndexHNSWFlat (embedding_dim self) 32 with
    | Raise e => (Raise e, self)
    | Ok ix => add_embeddings (set_index self (hnsw_set_ef ix 200 100)) embeddings
    end
  else add_embeddings self embeddings.

(** The loop body shared by [search] and [batch_search]:
    [item_mapping.get(idx + 1, idx + 1)] when [idx < len(item_mapping)],
    and [-1] otherwise. *)
Definition translate_index (item_mapping : gmap Z Z) (idx : Z) : Z :=
  if bool_decide (idx < Z.of_nat (size item_mapping))
  then default (idx + 1) (item_mapping !! (idx + 1))
  else -1.

Definition translate_row (item_mapping : gmap Z Z) (row : list Z) : list Z :=
  translate_index item_mapping <$> row.

Definition not_initialised : Exn :=
  ValueError "Índice no inicializado. Llama a create_index() primero.".

(** [FAISSIndex.search]: the query is reshaped to a single row and the
    first row of each answer matrix is used. *)
Definition search (self : FAISSIndex) (query_embedding : Vector) (k : Z)
  : Result (list Z * list Q) :=
  match index self with
  | None => Raise not_initialised
  | Some ix =>
      match index_search ix [query_embedding] k with
      | Raise e => Raise e
      | Ok (scores, indices) =>
          match indices, scores with
          | irow :: _, srow :: _ =>
              Ok (translate_row (item_mapping self) irow, srow)
          | _, _ => Raise (IndexError "index 0 is out of bounds")
          end
      end
  end.

(** The [for i in range(len(indices))] loop of [batch_search];
    [scores[i]] raises when the score matrix has fewer rows. *)
Fixpoint batch_rows (item_mapping : gmap Z Z) (indices : list (list Z))
    (scores : list (list Q)) : Result (list (list Z * list Q)) :=
  match indices with
  | [] => Ok []
  | irow :: indices' =>
      match scores with
      | [] => Raise (IndexError "index out of bounds")
      | srow :: scores' =>
          match batch_rows item_mapping indices' scores' with
          | Raise e => Raise e
          | Ok rest => Ok ((translate_row item_mapping irow, srow) :: rest)
          end
      end
  end.

(** [FAISSIndex.batch_search] *)
Definition batch_search (self : FAISSIndex) (query_embeddings : list Vector) (k : Z)
  : Result (list (list Z * list Q)) :=
  match index self with
  | None => Raise not_initialised
  | Some ix =>
      match index_search ix query_embeddings k with
      | Raise e => Raise e
      | Ok (scores, indices) => batch_rows (item_mapping self) indices scores
      end
  end.

End FAISSIndex.

Arguments FAISSIndex F : clear implicits.

(** ** Ranking by score

    Insertion into a list ranked by non-increasing score; an element goes
    before the stored ones of equal score, so [rank] keeps equal scores
    in their original order. *)

Section Ranking.
Context {A : Type} (score : A -> Q).

Fixpoint insert_ranked (x : A) (l : list A) : list A :=
  match l with
  | [] => [x]
  | y :: l' =>
      if Qle_bool (score y) (score x) then x :: y :: l'
      else y :: insert_ranked x l'
  end.

Definition rank (l : list A) : list A := foldr insert_ranked [] l.

End Ranking.

(** ** A reference FAISS library: exact scan

    An executable instance of [FaissLib] in which every index kind scans
    all stored vectors.  An index made by [IndexFlatIP] ranks by inner
    product, largest first, and pads a row with index [-1] and score
    [-FLT_MAX] when fewer than [k] vectors are stored; among equal
    scores the vector added last comes first.  An index made by
    [IndexIVFPQ] or [IndexHNSWFlat] ranks by squared L2 distance,
    smallest first, and pads with index [-1] and distance [FLT_MAX];
    the reference takes the exact distances where those two kinds
    approximate.  It serves to run the wrapper on concrete inputs. *)

Module RefFaiss.

Inductive Metric : Type := METRIC_INNER_PRODUCT | METRIC_L2.

Record RefIndex : Type := {
  ref_dim : Z;
  ref_metric : Metric;
  ref_nlist : Z;
  (** the number of centroids that training has to find per code *)
  ref_centroids : Z;
  ref_trained : bool;
  ref_vectors : list Vector
}.

Definition flt_max : Q := (340282346638528859811704183484516925440 # 1)%Q.

(** [-FLT_MAX], the score FAISS reports for a missing neighbour. *)
Definition neg_flt_max : Q := (-340282346638528859811704183484516925440 # 1)%Q.

(** float32 inner products are never below [-FLT_MAX]. *)
Definition score (q x : Vector) : Q := Qmax neg_flt_max (dot q x).

Fixpoint l2_sq (q x : Vector) : Q :=
  match q, x with
  | a :: q', b :: x' => ((a - b) * (a - b) + l2_sq q' x')%Q
  | _, _ => 0%Q
  end.

(** float32 distances are never above [FLT_MAX]. *)
Definition distance (q x : Vector) : Q := Qmin flt_max (l2_sq q x).

Definition has_dim (d : Z) (v : Vector) : bool := Z.of_nat (length v) =? d.

Definition flat (d : Z) : Result RefIndex :=
  Ok {| ref_dim := d; ref_metric := METRIC_INNER_PRODUCT; ref_nlist := 0;
        ref_centroids := 0; ref_trained := true; ref_vectors := [] |}.

Definition ivfpq (quantizer : RefIndex) (d nlist M nbits : Z) : Result RefIndex :=
  if (0 <? M) && (d mod M =? 0)
  then Ok {| ref_dim := d; ref_metric := METRIC_L2; ref_nlist := nlist;
             ref_centroids := 2 ^ nbits; ref_trained := false; ref_vectors := [] |}
  else Raise (ExternalError "Error: 'd % M == 0' failed").

Definition hnsw (d M : Z) : Result RefIndex :=
  Ok {| ref_dim := d; ref_metric := METRIC_L2; ref_nlist := 0;
        ref_centroids := 0; ref_trained := true; ref_vectors := [] |}.

(** Training clusters the vectors: there have to be at least as many of
    them as lists and as centroids per code. *)
Definition train (ix : RefIndex) (xs : list Vector) : Result RefIndex :=
  if forallb (has_dim (ref_dim ix)) xs && (0 <? ref_nlist ix)
     && (ref_nlist ix <=? Z.of_nat (length xs))
     && (ref_centroids ix <=? Z.of_nat (length xs))
  then Ok {| ref_dim := ref_dim ix; ref_metric := ref_metric ix;
             ref_nlist := ref_nlist ix; ref_centroids := ref_centroids ix;
             ref_trained := true; ref_vectors := ref_vectors ix |}
  else Raise (ExternalError "Error: 'nx >= k' failed").

Definition add (ix : RefIndex) (xs : list Vector) : Result RefIndex :=
  if negb (ref_trained ix) then Raise (ExternalError "Error: 'is_trained' failed")
  else if forallb (has_dim (ref_dim ix)) xs
  then Ok {| ref_dim := ref_dim ix; ref_metric := ref_metric ix;
             ref_nlist := ref_nlist ix; ref_centroids := ref_centroids ix;
             ref_trained := true; ref_vectors := ref_vectors ix ++ xs |}
  else Raise (ExternalError "AssertionError: d == self.d").

Definition scored (q : Vector) (xb : list Vector) : list (Q * Z) :=
  imap (fun i x => (score q x, Z.of_nat i)) xb.

Definition distanced (q : Vector) (xb : list Vector) : list (Q * Z) :=
  imap (fun i x => (distance q x, Z.of_nat i)) xb.

(** One row of an inner-product answer: the [k] best, padded up to [k]. *)
Definition knn (xb : list Vector) (k : nat) (q : Vector) : list (Q * Z) :=
  let best := take k (rank fst (reverse (scored q xb))) in
  best ++ replicate (k - length best) (neg_flt_max, -1).

(** One row of an L2 answer: the [k] nearest, padded up to [k]. *)
Definition knn_l2 (xb : list Vector) (k : nat) (q : Vector) : list (Q * Z) :=
  let best := take k (rank (fun p => (- fst p)%Q) (distanced q xb)) in
  best ++ replicate (k - length best) (flt_max, -1).

Definition row (ix : RefIndex) (k : nat) (q : Vector) : list (Q * Z) :=
  match ref_metric ix with
  | METRIC_INNER_PRODUCT => knn (ref_vectors ix) k q
  | METRIC_L2 => knn_l2 (ref_vectors ix) k q
  end.

Definition search (ix : RefIndex) (qs : list Vector) (k : Z)
  : Result (list (list Q) * list (list Z)) :=
  if negb (0 <? k) then Raise (ExternalError "AssertionError: k > 0")
  else if negb (forallb (has_dim (ref_dim ix)) qs)
  then Raise (ExternalError "AssertionError: d == self.d")
  else
    let rows := row ix (Z.to_nat k) <$> qs in
    Ok (fmap fst <$> rows, fmap snd <$> rows).

Definition lib : FaissLib := {|
  Index := RefIndex;
  IndexFlatIP := flat;
  IndexIVFPQ := ivfpq;
  IndexHNSWFlat := hnsw;
  hnsw_set_ef := fun ix _ _ => ix;
  index_train := train;
  index_add := add;
  index_search := search
|}.

End RefFaiss.

(** ** Payload values

    A payload or JSON document maps field names to scalars or lists of
    scalars; [VNone] is Python's [None]. *)

Inductive Scalar : Type :=
| SBool (b : bool)
| SInt (n : Z)
| SFloat (q : Q)
| SStr (s : string).

Inductive Value : Type :=
| VNone
| VScalar (s : Scalar)
| VList (l : list Scalar).

Definition VInt (n : Z) : Value := VScalar (SInt n).
Definition VFloat (q : Q) : Value := VScalar (SFloat q).
Definition VStr (s : string) : Value := VScalar (SStr s).

Abbreviation Dict := (gmap string Value).

(** [d.get(key)] and [d.get(key, default)] *)
Definition dict_get (d : Dict) (key : string) : Value :=
  default VNone (d !! key).

Definition dict_get_default (d : Dict) (key : string) (dflt : Value) : Value :=
  default dflt (d !! key).

(** [d[key]] *)
Definition dict_index (d : Dict) (key : string) : Result Value :=
  match d !! key with
  | Some v => Ok v
  | None => Raise (KeyError key)
  end.

(** [d.update(other)]: the keys of [other] win. *)
Definition dict_update (d other : Dict) : Dict := other ∪ d.

(** The number a scalar denotes, when it is one ([True == 1]). *)
Definition scalar_number (s : Scalar) : option Q :=
  match s with
  | SBool b => Some (if b then 1%Q else 0%Q)
  | SInt n => Some (inject_Z n)
  | SFloat q => Some q
  | SStr _ => None
  end.

(** [x in seen] for a set [seen] of integers: numbers compare by value,
    [None] and strings are never members, and a list is unhashable. *)
Definition in_int_set (x : Value) (seen : list Z) : Result bool :=
  match x with
  | VNone => Ok false
  | VScalar s =>
      match scalar_number s with
      | Some q => Ok (existsb (fun n => Qeq_bool q (inject_Z n)) seen)
      | None => Ok false
      end
  | VList _ => Raise (TypeError "unhashable type: 'list'")
  end.

(** ** Qdrant client models *)

Record PointStruct : Type := {
  ps_id : Z;
  ps_vector : Vector;
  ps_payload : Dict
}.

Record ScoredPoint : Type := {
  sp_id : Z;
  sp_score : Q;
  sp_payload : Dict
}.

(** [MatchValue(value=...)] holds a bool, an int or a string;
    [Range(gte=..., lte=...)] holds optional numbers. *)
Inductive Condition : Type :=
| FieldMatch (key : string) (value : Scalar)
| FieldRange (key : string) (gte lte : option Q).

Record Filter : Type := { must : list Condition }.

Definition validation_error : Exn := ValueError "validation error".

(** Validation done by the [MatchValue] constructor. *)
Definition MatchValue (v : Value) : Result Scalar :=
  match v with
  | VScalar (SBool b) => Ok (SBool b)
  | VScalar (SInt n) => Ok (SInt n)
  | VScalar (SStr s) => Ok (SStr s)
  | _ => Raise validation_error
  end.

(** Validation of one bound of [Range]: a missing keyword or [None] is
    no bound, a number is a bound, anything else is refused. *)
Definition range_bound (v : option Value) : Result (option Q) :=
  match v with
  | None | Some VNone => Ok None
  | Some (VScalar (SInt n)) => Ok (Some (inject_Z n))
  | Some (VScalar (SFloat q)) => Ok (Some q)
  | Some _ => Raise validation_error
  end.

(** ** External services: events, programs and their interpretation *)

Record RatingDoc : Type := {
  r_userId : Z;
  r_movieId : Z;
  r_rating : Q;
  r_timestamp : Z
}.

Inductive Event : Type -> Type :=
(* Redis *)
| RedisGet (key : string) : Event (option string)
| RedisSetex (key : string) (ttl : Z) (value : string) : Event unit
| RedisDelete (key : string) : Event unit
(* MongoDB, database [movie_recommendations] *)
| RatingsFindOne (userId : Z) : Event (option RatingDoc)
| RatingsFindSorted (userId : Z) : Event (list RatingDoc)
| RatingsUpdateOne (userId movieId : Z) (rating : Q) (timestamp : Z) : Event unit
| MoviesFindOne (movieId : Value) : Event (option Dict)
(* the sequence model *)
| ModelForward (padded_sequence : list Z) : Event Vector
(* the Qdrant server *)
| QdrantSearch (collection_name : string) (query_vector : Vector) (limit : Z)
    (query_filter : option Filter) : Event (list ScoredPoint)
| QdrantUpsert (collection_name : string) (points : list PointStruct) : Event unit
| QdrantGetCollection (collection_name : string) : Event unit
| QdrantCreateCollection (collection_name : string) (size : Z) : Event unit
(* [int(time.time())] *)
| TimeNow : Event Z.

(** A call that was made, with the answer it got. *)
Inductive Call : Type :=
| Called {X : Type} (ev : Event X) (answer : Result X).

(** A program: return, raise, or call a service and continue with its
    answer (a value or an exception). *)
Inductive Prog (A : Type) : Type :=
| Ret (a : A)
| Throw (e : Exn)
| Vis {X : Type} (ev : Event X) (k : Result X -> Prog A).

Arguments Ret {A} a.
Arguments Throw {A} e.
Arguments Vis {A X} ev k.

Fixpoint bind {A B : Type} (m : Prog A) (f : A -> Prog B) : Prog B :=
  match m with
  | Ret a => f a
  | Throw e => Throw e
  | Vis ev k => Vis ev (fun r => bind (k r) f)
  end.

(** [try: m  except Exception as e: h e] *)
Fixpoint try_except {A : Type} (m : Prog A) (h : Exn -> Prog A) : Prog A :=
  match m with
  | Ret a => Ret a
  | Throw e => h e
  | Vis ev k => Vis ev (fun r => try_except (k r) h)
  end.

(** A call whose exception propagates. *)
Definition call {X : Type} (ev : Event X) : Prog X :=
  Vis ev (fun r => match r with Ok x => Ret x | Raise e => Throw e end).

Definition lift {A : Type} (r : Result A) : Prog A :=
  match r with Ok a => Ret a | Raise e => Throw e end.

Declare Scope prog_scope.
Delimit Scope prog_scope with prog.
Notation "x <- m ;; k" := (bind m (fun x => k))
  (at level 100, m at next level, right associativity) : prog_scope.
Notation "m ;;; k" := (bind m (fun _ => k))
  (at level 100, right associativity) : prog_scope.

(** A handler answers every call from the state of the world [W]. *)
Definition Handler (W : Type) : Type :=
  forall X : Type, Event X -> W -> Result X * W.

Record Outcome (W A : Type) : Type := {
  result : Result A;
  world : W;
  calls : list Call
}.

Arguments result {W A} o.
Arguments world {W A} o.
Arguments calls {W A} o.

Fixpoint run {W A : Type} (h : Handler W) (m : Prog A) (w : W) : Outcome W A :=
  match m with
  | Ret a => {| result := Ok a; world := w; calls := [] |}
  | Throw e => {| result := Raise e; world := w; calls := [] |}
  | Vis ev k =>
      let '(r, w') := h _ ev w in
      let o := run h (k r) w' in
      {| result := result o; world := world o; calls := Called ev r :: calls o |}
  end.

Definition is_redis_call (c : Call) : bool :=
  match c with
  | Called (RedisGet _) _ | Called (RedisSetex _ _ _) _
  | Called (RedisDelete _) _ => true
  | _ => false
  end.

Definition is_model_call (c : Call) : bool :=
  match c with Called (ModelForward _) _ => true | _ => false end.

Definition is_search_call (c : Call) : bool :=
  match c with Called (QdrantSearch _ _ _ _) _ => true | _ => false end.

(** The rating-store write of a run raised. *)
Definition is_failed_write (c : Call) : bool :=
  match c with
  | Called (RatingsUpdateOne _ _ _ _) (Raise _) => true
  | _ => false
  end.

Definition is_successful_write (c : Call) : bool :=
  match c with
  | Called (RatingsUpdateOne _ _ _ _) (Ok _) => true
  | _ => false
  end.

(** The points handed to [client.upsert] over a run, in order. *)
Definition upserted (c : Call) : list PointStruct :=
  match c with
  | Called (QdrantUpsert _ points) _ => points
  | _ => []
  end.

Definition upserted_points (t : list Call) : list PointStruct :=
  concat (upserted <$> t).

(** ** Text stored in Redis

    [str], [json.dumps], [json.loads] and f-string formatting, as far as
    the cached values need them.  [json_loads_sequence] is [json.loads]
    on a cached user sequence and [json_loads] is [json.loads] on a
    cached movie document; both raise on text they cannot decode. *)

Class Codec : Type := {
  str_of_sequence : list Z -> string;
  json_loads_sequence : string -> Result (list Z);
  json_dumps : Dict -> string;
  json_loads : string -> Result Dict;
  format_value : Value -> string
}.

(** Truth value of [redis.get(key)]: [None] and the empty string are
    false. *)
Definition cached_text (cached : option string) : option string :=
  match cached with
  | Some s => if String.eqb s "" then None else Some s
  | None => None
  end.

(** ** [database.py]: class [MovieLensDatabase] *)

Section Database.
Context {C : Codec}.
Open Scope prog_scope.

Definition user_sequence_key (user_id : Z) : string :=
  "user_sequence:" +:+ pretty user_id.

Definition movie_metadata_key (movie_id : Value) : string :=
  "movie_metadata:" +:+ format_value movie_id.

(** [MovieLensDatabase.get_user_sequence] *)
Definition get_user_sequence (user_id : Z) : Prog (list Z) :=
  try_except
    (let cache_key := user_sequence_key user_id in
     cached <- call (RedisGet cache_key);;
     match cached_text cached with
     | Some text => lift (json_loads_sequence text)
     | None =>
         user_data <- call (RatingsFindOne user_id);;
         match user_data with
         | None => Ret []
         | Some _ =>
             docs <- call (RatingsFindSorted user_id);;
             let sequence := r_movieId <$> docs in
             call (RedisSetex cache_key 3600 (str_of_sequence sequence));;;
             Ret sequence
         end
     end)
    (fun _ => Ret []).

Definition clean_movie (movie : Dict) : Dict :=
  {[ "movieId" := dict_get movie "movieId";
     "title" := dict_get movie "title";
     "genres" := dict_get movie "genres";
     "year" := dict_get movie "year" ]}.

(** The cache lookup of [get_movie_metadata]: a decodable entry is
    returned, an undecodable one is deleted. *)
Definition cached_movie (cache_key : string) (cached : option string)
  : Prog (option Dict) :=
  match cached_text cached with
  | Some text =>
      match json_loads text with
      | Ok d => Ret (Some d)
      | Raise (JSONDecodeError _) => call (RedisDelete cache_key);;; Ret None
      | Raise e => Throw e
      end
  | None => Ret None
  end.

(** [MovieLensDatabase.get_movie_metadata] *)
Definition get_movie_metadata (movie_id : Value) : Prog (option Dict) :=
  try_except
    (let cache_key := movie_metadata_key movie_id in
     cached <- call (RedisGet cache_key);;
     hit <- cached_movie cache_key cached;;
     match hit with
     | Some d => Ret (Some d)
     | None =>
         movie <- call (MoviesFindOne movie_id);;
         match movie with
         | Some m =>
             if bool_decide (m = ∅) then Ret None
             else
               let clean := clean_movie m in
               call (RedisSetex cache_key 7200 (json_dumps clean));;;
               Ret (Some clean)
         | None => Ret None
         end
     end)
    (fun _ => Ret None).

(** [MovieLensDatabase.update_user_rating] *)
Definition update_user_rating (user_id movie_id : Z) (rating : Q)
    (timestamp : option Z) : Prog unit :=
  try_except
    (timestamp <- match timestamp with
                  | None => call TimeNow
                  | Some t => Ret t
                  end;;
     call (RatingsUpdateOne user_id movie_id rating timestamp);;;
     call (RedisDelete (user_sequence_key user_id));;;
     Ret tt)
    (fun e => Throw e).

End Database.

(** ** [qdrant_service.py]: class [QdrantService] *)

Section QdrantService.
Open Scope prog_scope.

Record QdrantService : Type := {
  collection_name : string;
  qdrant_embedding_dim : Z
}.

(** [QdrantService.__init__] *)
Definition QdrantService_init (collection_name : string) : QdrantService :=
  {| collection_name := collection_name; qdrant_embedding_dim := 128 |}.

Definition rbind {A B : Type} (r : Result A) (f : A -> Result B) : Result B :=
  match r with Ok a => f a | Raise e => Raise e end.

(** The payload built for the [i]-th movie by [insert_movies]. *)
Definition movie_payload (i : Z) (meta : Dict) : Dict :=
  {[ "movie_id" := dict_get_default meta "movie_id" (VInt i);
     "title" := dict_get_default meta "title" (VStr ("Movie " +:+ pretty i));
     "genres" := dict_get_default meta "genres" (VList []);
     "year" := dict_get_default meta "year" (VInt 0);
     "rating" := dict_get_default meta "rating" (VFloat 0);
     "num_ratings" := dict_get_default meta "num_ratings" (VInt 0) ]}.

(** [enumerate(zip(embeddings, metadata))] turned into points. *)
Fixpoint movie_points (i : Z) (embeddings : list Vector) (metadata : list Dict)
  : list PointStruct :=
  match embeddings, metadata with
  | embedding :: embeddings', meta :: metadata' =>
      {| ps_id := i; ps_vector := embedding; ps_payload := movie_payload i meta |}
      :: movie_points (i + 1) embeddings' metadata'
  | _, _ => []
  end.

(** [points[i:i + batch_size] for i in range(0, len(points), batch_size)] *)
Fixpoint batches_fuel {A : Type} (fuel batch_size : nat) (points : list A)
  : list (list A) :=
  match fuel, points with
  | S fuel', _ :: _ =>
      take batch_size points :: batches_fuel fuel' batch_size (drop batch_size points)
  | _, _ => []
  end.

Definition batches {A : Type} (batch_size : nat) (points : list A) : list (list A) :=
  batches_fuel (length points) batch_size points.

Fixpoint upsert_batches (collection : string) (bs : list (list PointStruct))
  : Prog unit :=
  match bs with
  | [] => Ret tt
  | batch :: bs' =>
      call (QdrantUpsert collection batch);;; upsert_batches collection bs'
  end.

(** [QdrantService.insert_movies] *)
Definition insert_movies (self : QdrantService) (embeddings : list Vector)
    (metadata : list Dict) : Prog unit :=
  let points := movie_points 0 embeddings metadata in
  upsert_batches (collection_name self) (batches 100 points).

(** The [if filters:] block of [search_similar]. *)
Definition genre_conditions (filters : Dict) : Result (list Condition) :=
  match filters !! "genres" with
  | Some v => rbind (MatchValue v) (fun s => Ok [FieldMatch "genres" s])
  | None => Ok []
  end.

Definition year_conditions (filters : Dict) : Result (list Condition) :=
  if bool_decide (is_Some (filters !! "year_min") \/ is_Some (filters !! "year_max"))
  then
    rbind (range_bound (filters !! "year_min")) (fun gte =>
    rbind (range_bound (filters !! "year_max")) (fun lte =>
    Ok [FieldRange "year" gte lte]))
  else Ok [].

Definition rating_conditions (filters : Dict) : Result (list Condition) :=
  match filters !! "rating_min" with
  | Some v => rbind (range_bound (Some v)) (fun gte => Ok [FieldRange "rating" gte None])
  | None => Ok []
  end.

Definition build_filter (filters : option Dict) : Result (option Filter) :=
  match filters with
  | None => Ok None
  | Some f =>
      if bool_decide (f = ∅) then Ok None
      else
        rbind (genre_conditions f) (fun c1 =>
        rbind (year_conditions f) (fun c2 =>
        rbind (rating_conditions f) (fun c3 =>
        let conditions := c1 ++ c2 ++ c3 in
        match conditions with
        | [] => Ok None
        | _ :: _ => Ok (Some {| must := conditions |})
        end)))
  end.

(** One entry of [formatted_results]. *)
Definition format_result (r : ScoredPoint) : Dict :=
  {[ "movie_id" := dict_get (sp_payload r) "movie_id";
     "title" := dict_get (sp_payload r) "title";
     "genres" := dict_get_default (sp_payload r) "genres" (VList []);
     "year" := dict_get (sp_payload r) "year";
     "rating" := dict_get (sp_payload r) "rating";
     "score" := VFloat (sp_score r) ]}.

(** [QdrantService.search_similar] *)
Definition search_similar (self : QdrantService) (query_embedding : Vector)
    (k : Z) (filters : option Dict) : Prog (list Dict) :=
  search_filter <- lift (build_filter filters);;
  results <- call (QdrantSearch (collection_name self) query_embedding k search_filter);;
  Ret (format_result <$> results).

(** [QdrantService.save_user_embedding] *)
Definition save_user_embedding (self : QdrantService) (user_id : Z)
    (embedding : Vector) : Prog unit :=
  try_except
    (let user_collection := "user_embeddings" in
     try_except
       (call (QdrantGetCollection user_collection))
       (fun _ =>
          call (QdrantCreateCollection user_collection (Z.of_nat (length embedding))));;;
     created_at <- call TimeNow;;
     let point := {| ps_id := user_id; ps_vector := embedding;
                     ps_payload := {[ "user_id" := VInt user_id;
                                      "created_at" := VInt created_at ]} |} in
     call (QdrantUpsert user_collection [point]);;;
     Ret tt)
    (fun e => Throw e).

End QdrantService.

(** ** [embedding_exporter.py]: item and user embeddings

    [np.linalg.norm] is the square root of [norm_sq], which has no exact
    rational value in general; it is a parameter.  Division by a zero
    norm gives NaN in NumPy and zero here. *)

Section EmbeddingExporter.
Variable linalg_norm : Vector -> Q.
Open Scope prog_scope.

Definition normalize (v : Vector) : Vector :=
  (fun c => (c / linalg_norm v)%Q) <$> v.

(** [weight[1:num_items + 1]]: the rows of the table after the padding
    row, up to row [num_items]; a negative stop counts from the end. *)
Definition item_rows (weight : list Vector) (num_items : Z) : list Vector :=
  let n := Z.of_nat (length weight) in
  let stop := if num_items + 1 <? 0 then Z.max 0 (n + (num_items + 1))
              else Z.min (num_items + 1) n in
  drop 1 (take (Z.to_nat stop) weight).

(** [EmbeddingExporter.extract_item_embeddings], over the weight of the
    model's output embeddings: each item row divided by its own norm. *)
Definition extract_item_embeddings (weight : list Vector) (num_items : Z)
  : list Vector :=
  let item_embeddings := item_rows weight num_items in
  normalize <$> item_embeddings.

(** [EmbeddingExporter.extract_user_embeddings] *)
Fixpoint extract_user_embeddings (user_sequences : list (list Z)) : Prog (list Vector) :=
  match user_sequences with
  | [] => Ret []
  | user_seq :: rest =>
      user_emb <- call (ModelForward user_seq);;
      let user_emb := normalize user_emb in
      user_embeddings <- extract_user_embeddings rest;;
      Ret (user_emb :: user_embeddings)
  end.

End EmbeddingExporter.

(** ** [api.py]: the in-process user embedding cache *)

Module Api.
Section Api.
Variable linalg_norm : Vector -> Q.
(** What [np.random.randint] and [np.random.choice] draw in
    [generate_user_sequence] once NumPy's generator is seeded with the
    user id. *)
Variable drawn_sequence : Z -> list Z.
Open Scope prog_scope.

Record UserUpdateRequest : Type := {
  user_id : Z;
  movie_id : Z;
  rating : Q
}.

Record UpdateResponse : Type := {
  message : string;
  resp_user_id : Z;
  resp_movie_id : Z;
  resp_rating : Q
}.

(** The global [user_embeddings_cache]. *)
Abbreviation Cache := (gmap Z Vector).

(** [np.random.seed(user_id)] accepts the integers from 0 to 2**32 - 1
    and raises [ValueError] on any other. *)
Definition seed_error : Exn := ValueError "Seed must be between 0 and 2**32 - 1".

Definition seed_accepted (user_id : Z) : Prop := 0 <= user_id < 4294967296.

(** [generate_user_sequence] *)
Definition generate_user_sequence (user_id : Z) : Result (list Z) :=
  if bool_decide (seed_accepted user_id) then Ok (drawn_sequence user_id)
  else Raise seed_error.

(** [get_user_embedding]: the embedding and the cache afterwards. *)
Definition get_user_embedding (user_embeddings_cache : Cache) (user_id : Z)
  : Prog (Vector * Cache) :=
  match user_embeddings_cache !! user_id with
  | Some user_embedding => Ret (user_embedding, user_embeddings_cache)
  | None =>
      user_sequence <- lift (generate_user_sequence user_id);;
      embeddings <- extract_user_embeddings linalg_norm [user_sequence];;
      match embeddings with
      | user_embedding :: _ =>
          Ret (user_embedding, <[user_id := user_embedding]> user_embeddings_cache)
      | [] => Throw (IndexError "index 0 is out of bounds")
      end
  end.

(** [recalculate_user_embedding], the background task. *)
Definition recalculate_user_embedding (user_embeddings_cache : Cache) (user_id : Z)
  : Cache :=
  match user_embeddings_cache !! user_id with
  | Some _ => delete user_id user_embeddings_cache
  | None => user_embeddings_cache
  end.

(** [update_user]: the response, the cache afterwards, and the user ids
    handed to [background_tasks.add_task]. *)
Definition update_user (user_embeddings_cache : Cache) (request : UserUpdateRequest)
  : UpdateResponse * Cache * list Z :=
  let cache :=
    match user_embeddings_cache !! user_id request with
    | Some _ => delete (user_id request) user_embeddings_cache
    | None => user_embeddings_cache
    end in
  ({| message := "Usuario actualizado"; resp_user_id := user_id request;
      resp_movie_id := movie_id request; resp_rating := rating request |},
   cache, [user_id request]).

End Api.
End Api.

(** ** [api_ml32m_vectorial.py] *)

Module ApiVectorial.
Section ApiVectorial.
Context {C : Codec}.
Open Scope prog_scope.

Record RecommendationRequest : Type := {
  user_id : Z;
  k : Z;
  method : string;
  filters : option Dict
}.

Record UserUpdateRequest : Type := {
  upd_user_id : Z;
  upd_movie_id : Z;
  upd_rating : Q
}.

(** The response of [recommend]; [processing_time] and [timestamp] are
    wall-clock readings and are left out. *)
Record RecommendationResponse : Type := {
  resp_user_id : Z;
  recommendations : list Dict;
  resp_method : string;
  count : Z;
  user_history_size : Z
}.

Record UpdateResponse : Type := {
  message : string;
  upd_resp_user_id : Z;
  upd_resp_movie_id : Z;
  upd_resp_rating : Q
}.

Definition max_seq_len : nat := 200.

(** [l[-n:]] for [1 <= n <= len(l)] *)
Definition last_n {A : Type} (n : nat) (l : list A) : list A :=
  drop (length l - n) l.

(** [l[:k]]; a negative [k] counts from the end. *)
Definition slice_to {A : Type} (k : Z) (l : list A) : list A :=
  if k <? 0 then take (length l - Z.to_nat (- k)) l
  else take (Z.to_nat k) l.

(** [[0] * (max_seq_len - seq_len) + user_sequence[-seq_len:]] *)
Definition padded_sequence (user_sequence : list Z) : list Z :=
  let seq_len := Nat.min (length user_sequence) max_seq_len in
  replicate (max_seq_len - seq_len) 0 ++ last_n seq_len user_sequence.

(** [get_user_embedding]; [model] tells whether the global model was
    loaded. *)
Definition get_user_embedding (model : bool) (user_sequence : list Z)
  : Prog (option Vector) :=
  try_except
    (match model, user_sequence with
     | true, _ :: _ =>
         user_embedding <- call (ModelForward (padded_sequence user_sequence));;
         Ret (Some user_embedding)
     | _, _ => Ret None
     end)
    (fun _ => Ret None).

(** [[movie for movie in similar_movies
      if movie["movie_id"] not in seen_movies]] *)
Fixpoint not_seen (seen_movies : list Z) (similar_movies : list Dict)
  : Result (list Dict) :=
  match similar_movies with
  | [] => Ok []
  | movie :: rest =>
      rbind (dict_index movie "movie_id") (fun movie_id =>
      rbind (in_int_set movie_id seen_movies) (fun seen =>
      rbind (not_seen seen_movies rest) (fun kept =>
      Ok (if seen then kept else movie :: kept))))
  end.

Definition metadata_update (metadata : Dict) : Dict :=
  {[ "title" := dict_get_default metadata "title" (VStr "Título desconocido");
     "year" := dict_get metadata "year";
     "full_genres" := dict_get_default metadata "genres" (VStr "") ]}.

(** The loop [for rec in recommendations], which updates each
    recommendation in place. *)
Fixpoint enrich (recommendations : list Dict) : Prog (list Dict) :=
  match recommendations with
  | [] => Ret []
  | rec :: rest =>
      movie_id <- lift (dict_index rec "movie_id");;
      metadata <- get_movie_metadata movie_id;;
      let rec' :=
        match metadata with
        | Some md => if bool_decide (md = ∅) then rec
                     else dict_update rec (metadata_update md)
        | None => rec
        end in
      rest' <- enrich rest;;
      Ret (rec' :: rest')
  end.

(** [except HTTPException: raise] followed by
    [except Exception as e: raise HTTPException(500, ...)] *)
Definition reraise_http {A : Type} (e : Exn) : Prog A :=
  match e with
  | HTTPException _ _ => Throw e
  | _ => Throw (HTTPException 500 ("Error interno: " +:+ exn_str e))
  end.

Definition no_history (user_id : Z) : Exn :=
  HTTPException 404 ("Usuario " +:+ pretty user_id +:+ " no encontrado o sin historial").

Definition embedding_failed : Exn :=
  HTTPException 500 "Error generando embedding del usuario".

(** [recommend] *)
Definition recommend (model : bool) (qdrant_instance : QdrantService)
    (request : RecommendationRequest) : Prog RecommendationResponse :=
  try_except
    (user_sequence <- get_user_sequence (user_id request);;
     match user_sequence with
     | [] => Throw (no_history (user_id request))
     | _ :: _ =>
         user_embedding <- get_user_embedding model user_sequence;;
         match user_embedding with
         | None => Throw embedding_failed
         | Some user_embedding =>
             similar_movies <- search_similar qdrant_instance user_embedding
                                 (k request * 2) (filters request);;
             let seen_movies := user_sequence in
             unseen <- lift (not_seen seen_movies similar_movies);;
             let recommendations := slice_to (k request) unseen in
             recommendations <- enrich recommendations;;
             Ret {| resp_user_id := user_id request;
                    recommendations := recommendations;
                    resp_method := method request;
                    count := Z.of_nat (length recommendations);
                    user_history_size := Z.of_nat (length user_sequence) |}
         end
     end)
    reraise_http.

(** [update_user] *)
Definition update_user (request : UserUpdateRequest) : Prog UpdateResponse :=
  try_except
    (update_user_rating (upd_user_id request) (upd_movie_id request)
       (upd_rating request) None;;;
     Ret {| message := "Preferencias actualizadas";
            upd_resp_user_id := upd_user_id request;
            upd_resp_movie_id := upd_movie_id request;
            upd_resp_rating := upd_rating request |})
    (fun e => Throw (HTTPException 500 ("Error interno: " +:+ exn_str e))).

End ApiVectorial.
End ApiVectorial.

(** ** Filter evaluation *)

Definition scalar_eqb (a b : Scalar) : bool :=
  match a, b with
  | SBool x, SBool y => Bool.eqb x y
  | SInt x, SInt y => x =? y
  | SFloat x, SFloat y => Qeq_bool x y
  | SStr x, SStr y => String.eqb x y
  | _, _ => false
  end.

(** The number held by a numeric payload field. *)
Definition numeric (s : Scalar) : option Q :=
  match s with
  | SInt n => Some (inject_Z n)
  | SFloat q => Some q
  | _ => None
  end.

Definition in_range (min max : option Q) (x : Q) : bool :=
  match min with Some a => Qle_bool a x | None => true end
  && match max with Some b => Qle_bool x b | None => true end.

Local Set Warnings "-register-all".

(** Modelled from the spec: [FilterEvaluator.matches] of section 4.3.
    The repository has no evaluator of its own: filters are evaluated
    inside the Qdrant engine.  [FilterExpr] is the tagged variant of the
    spec, [And] is evaluated left to right, and an expression over a
    field that the payload lacks is false. *)
Inductive FilterExpr : Type :=
| Equals (field : string) (value : Scalar)
| Range (field : string) (min max : option Q)
| Contains (field : string) (value : Scalar)
| And (exprs : list FilterExpr).

Fixpoint matches (payload : Dict) (f : FilterExpr) : bool :=
  match f with
  | Equals field value =>
      match payload !! field with
      | Some (VScalar s) => scalar_eqb s value
      | _ => false
      end
  | Range field min max =>
      match payload !! field with
      | Some (VScalar s) =>
          match numeric s with
          | Some x => in_range min max x
          | None => false
          end
      | _ => false
      end
  | Contains field value =>
      match payload !! field with
      | Some (VList l) => existsb (fun s => scalar_eqb s value) l
      | _ => false
      end
  | And exprs =>
      (fix all (l : list FilterExpr) : bool :=
         match l with
         | [] => true
         | e :: l' => if matches payload e then all l' else false
         end) exprs
  end.

(** The field an expression refers to, for the leaves. *)
Definition expr_field (f : FilterExpr) : option string :=
  match f with
  | Equals field _ | Range field _ _ | Contains field _ => Some field
  | And _ => None
  end.

(** A client condition as the engine reads it: a match condition holds
    of a scalar field equal to the value and of a list field containing
    it; a range condition holds of a numeric field within the bounds. *)
Definition condition_matches (payload : Dict) (c : Condition) : bool :=
  match c with
  | FieldMatch key value =>
      matches payload (Equals key value) || matches payload (Contains key value)
  | FieldRange key gte lte => matches payload (Range key gte lte)
  end.

(** [Filter(must=conditions)]: every condition holds; no filter holds of
    every payload. *)
Definition filter_matches (payload : Dict) (f : option Filter) : bool :=
  match f with
  | None => true
  | Some f => forallb (condition_matches payload) (must f)
  end.

(** The number a filter value gives as a bound, if it is one. *)
Definition number_of (v : option Value) : option Q :=
  match v with
  | Some (VScalar (SInt n)) => Some (inject_Z n)
  | Some (VScalar (SFloat q)) => Some q
  | _ => None
  end.

(** What a request's [filters] dictionary asks of a payload: the genre
    equals the field or is one of its elements, the year lies within the
    optional bounds, and the rating is at least the minimum. *)
Definition genre_ok (filters payload : Dict) : bool :=
  match filters !! "genres" with
  | None => true
  | Some (VScalar g) =>
      matches payload (Equals "genres" g) || matches payload (Contains "genres" g)
  | Some _ => false
  end.

Definition year_ok (filters payload : Dict) : bool :=
  match filters !! "year_min", filters !! "year_max" with
  | None, None => true
  | lo, hi => matches payload (Range "year" (number_of lo) (number_of hi))
  end.

Definition rating_ok (filters payload : Dict) : bool :=
  match filters !! "rating_min" with
  | None => true
  | Some lo => matches payload (Range "rating" (number_of (Some lo)) None)
  end.

Definition satisfies (filters : option Dict) (payload : Dict) : bool :=
  match filters with
  | None => true
  | Some f => genre_ok f payload && year_ok f payload && rating_ok f payload
  end.

(** The payload fields a request's filters refer to. *)
Definition refers_to (filters : Dict) (field : string) : Prop :=
  (field = "genres" /\ is_Some (filters !! "genres")) \/
  (field = "year" /\ (is_Some (filters !! "year_min") \/ is_Some (filters !! "year_max"))) \/
  (field = "rating" /\ is_Some (filters !! "rating_min")).

(** What [search_similar] relies on from the engine's answer to a search
    over the points [stored] in a collection: at most [limit] points,
    each stored once, each satisfying the query filter, ranked by
    non-increasing score. *)
Record EngineContract {W : Type} (h : Handler W)
    (stored : W -> string -> list PointStruct) : Prop := {
  engine_search : forall coll q limit flt w results w',
    h _ (QdrantSearch coll q limit flt) w = (Ok results, w') ->
    Z.of_nat (length results) <= Z.max 0 limit /\
    NoDup (sp_id <$> results) /\
    NoDup (ps_id <$> stored w coll) /\
    Forall (fun r => exists p, p ∈ stored w coll /\ ps_id p = sp_id r /\
                               ps_payload p = sp_payload r /\
                               filter_matches (ps_payload p) flt = true) results /\
    non_increasing (sp_score <$> results)
}.

(** What a collection created with [Distance.COSINE] does with the
    points it receives: a point stored after a call was stored before
    it, or it is one of the points the call upserted with its vector
    preprocessed by the engine. *)
Record CosineStore {W : Type} (h : Handler W)
    (stored : W -> string -> list PointStruct)
    (preprocess : Vector -> Vector) : Prop := {
  cosine_upsert : forall (X : Type) (ev : Event X) (w : W) (name : string)
                         (p : PointStruct),
    p ∈ stored (h X ev w).2 name ->
    p ∈ stored w name \/
    exists p0, p0 ∈ upserted (Called ev (h X ev w).1) /\
               ps_id p = ps_id p0 /\ ps_payload p = ps_payload p0 /\
               ps_vector p = preprocess (ps_vector p0)
}.

(** Every vector a store holds left the engine's preprocessing. *)
Definition preprocessed {W : Type} (stored : W -> string -> list PointStruct)
    (preprocess : Vector -> Vector) (w : W) : Prop :=
  forall name p, p ∈ stored w name -> exists v, ps_vector p = preprocess v.

(** ** A reference world

    In-memory Redis, MongoDB and Qdrant together with a fixed sequence
    model, and a codec that prints and reads user sequences.  The
    Qdrant of the world keeps cosine collections: it checks the size of
    every vector, stores vectors divided by their length and scores a
    stored vector by its inner product with the query divided by its
    length.  The world runs the programs on concrete inputs;
    [mongo_up = false] makes every MongoDB operation raise. *)

Module RefWorld.

(** A collection of the engine, with the vector size it was created
    for.  Every collection of the source is created with
    [Distance.COSINE], so the reference engine keeps cosine collections
    only. *)
Record Collection : Type := {
  coll_size : Z;
  coll_points : gmap Z (Vector * Dict)
}.

Record World : Type := {
  redis : gmap string string;
  ratings : list RatingDoc;
  movies : list Dict;
  collections : gmap string Collection;
  clock : Z;
  mongo_up : bool;
  embed : list Z -> Vector
}.

Definition set_redis (w : World) (r : gmap string string) : World :=
  {| redis := r; ratings := ratings w; movies := movies w;
     collections := collections w; clock := clock w; mongo_up := mongo_up w;
     embed := embed w |}.

Definition set_ratings (w : World) (r : list RatingDoc) : World :=
  {| redis := redis w; ratings := r; movies := movies w;
     collections := collections w; clock := clock w; mongo_up := mongo_up w;
     embed := embed w |}.

Definition set_collections (w : World) (c : gmap string Collection) : World :=
  {| redis := redis w; ratings := ratings w; movies := movies w;
     collections := c; clock := clock w; mongo_up := mongo_up w;
     embed := embed w |}.

Definition unavailable : Exn := ExternalError "ServerSelectionTimeoutError".

Definition no_collection (name : string) : Exn :=
  ExternalError ("Collection " +:+ name +:+ " doesn't exist").

Definition wrong_dimension : Exn :=
  ExternalError "Wrong input: Vector dimension error".

Definition invalid_request : Exn :=
  ExternalError "Validation error in JSON body".

(** The ratings of a user by ascending timestamp. *)
Definition user_ratings (w : World) (userId : Z) : list RatingDoc :=
  rank (fun d => inject_Z (- r_timestamp d))
    (filter (fun d => r_userId d = userId) (ratings w)).

(** [update_one(..., upsert=True)] *)
Fixpoint upsert_rating (docs : list RatingDoc) (d : RatingDoc) : list RatingDoc :=
  match docs with
  | [] => [d]
  | x :: docs' =>
      if (r_userId x =? r_userId d) && (r_movieId x =? r_movieId d)
      then d :: docs'
      else x :: upsert_rating docs' d
  end.

Definition value_eqb (a b : Value) : bool :=
  match a, b with
  | VNone, VNone => true
  | VScalar x, VScalar y =>
      match numeric x, numeric y with
      | Some p, Some q => Qeq_bool p q
      | _, _ => scalar_eqb x y
      end
  | _, _ => false
  end.

Definition find_movie (w : World) (movieId : Value) : option Dict :=
  head (filter (fun m => value_eqb (dict_get m "movieId") movieId = true) (movies w)).

(** The points of a collection, one per id. *)
Definition points_of (coll : gmap Z (Vector * Dict)) : list PointStruct :=
  (fun kv => {| ps_id := kv.1; ps_vector := kv.2.1; ps_payload := kv.2.2 |})
    <$> map_to_list coll.

Definition stored (w : World) (name : string) : list PointStruct :=
  points_of (default ∅ (coll_points <$> collections w !! name)).

(** The square root of a rational, rounded down to nine decimals; it is
    exact on the square of a rational. *)
Definition sqrt_q (x : Q) : Q :=
  Qred (Z.sqrt (Qnum x * Zpos (Qden x) * 1000000000000000000)
        # (Qden x * 1000000000))%Q.

(** float32's machine epsilon, [2 ** -23]. *)
Definition f32_epsilon : Q := (1 # 8388608)%Q.

(** What a cosine collection does to a vector, stored or queried: it
    divides the vector by its length, unless the squared length is below
    the machine epsilon or within [1e-6] of one. *)
Definition cosine_preprocess (v : Vector) : Vector :=
  let length := norm_sq v in
  if Qle_bool f32_epsilon length
     && negb (Qle_bool (length - 1) (1 # 1000000)
              && Qle_bool (1 - length) (1 # 1000000))
  then (fun c => Qred (c / sqrt_q length)) <$> v
  else v.

Definition has_size (coll : Collection) (v : Vector) : bool :=
  Z.of_nat (length v) =? coll_size coll.

Definition scored_point (q : Vector) (p : PointStruct) : ScoredPoint :=
  {| sp_id := ps_id p;
     sp_score := Qred (dot (cosine_preprocess q) (ps_vector p));
     sp_payload := ps_payload p |}.

(** Exact filtered search: keep the points that satisfy the filter, rank
    them by the inner product of the preprocessed query with the stored
    vector, and cut at [limit]. *)
Definition search_points (ps : list PointStruct) (q : Vector) (limit : Z)
    (flt : option Filter) : list ScoredPoint :=
  take (Z.to_nat limit)
    (rank sp_score
       (scored_point q <$>
          filter (fun p => filter_matches (ps_payload p) flt = true) ps)).

(** The points are stored preprocessed, a later one replacing an earlier
    one of the same id. *)
Definition upsert_points (coll : gmap Z (Vector * Dict)) (points : list PointStruct)
  : gmap Z (Vector * Dict) :=
  foldl (fun c p => <[ps_id p := (cosine_preprocess (ps_vector p), ps_payload p)]> c)
    coll points.

Definition upsert_into (coll : Collection) (points : list PointStruct) : Collection :=
  {| coll_size := coll_size coll;
     coll_points := upsert_points (coll_points coll) points |}.

(** The collection of the given vector size that received the points. *)
Definition collection_of (size : Z) (points : list PointStruct) : Collection :=
  upsert_into {| coll_size := size; coll_points := ∅ |} points.

Definition handler : Handler World :=
  fun X ev =>
    match ev in Event X return World -> Result X * World with
    | RedisGet key => fun w => (Ok (redis w !! key), w)
    | RedisSetex key _ value => fun w => (Ok tt, set_redis w (<[key := value]> (redis w)))
    | RedisDelete key => fun w => (Ok tt, set_redis w (delete key (redis w)))
    | RatingsFindOne userId => fun w =>
        if mongo_up w then (Ok (head (user_ratings w userId)), w)
        else (Raise unavailable, w)
    | RatingsFindSorted userId => fun w =>
        if mongo_up w then (Ok (user_ratings w userId), w)
        else (Raise unavailable, w)
    | RatingsUpdateOne userId movieId rating timestamp => fun w =>
        if mongo_up w
        then (Ok tt, set_ratings w
                (upsert_rating (ratings w)
                   {| r_userId := userId; r_movieId := movieId;
                      r_rating := rating; r_timestamp := timestamp |}))
        else (Raise unavailable, w)
    | MoviesFindOne movieId => fun w =>
        if mongo_up w then (Ok (find_movie w movieId), w)
        else (Raise unavailable, w)
    | ModelForward padded_sequence => fun w => (Ok (embed w padded_sequence), w)
    | QdrantSearch name q limit flt => fun w =>
        match collections w !! name with
        | Some coll =>
            if negb (1 <=? limit) then (Raise invalid_request, w)
            else if has_size coll q
            then (Ok (search_points (stored w name) q limit flt), w)
            else (Raise wrong_dimension, w)
        | None => (Raise (no_collection name), w)
        end
    | QdrantUpsert name points => fun w =>
        match collections w !! name with
        | Some coll =>
            if forallb (fun p => has_size coll (ps_vector p)) points
            then (Ok tt, set_collections w
                    (<[name := upsert_into coll points]> (collections w)))
            else (Raise wrong_dimension, w)
        | None => (Raise (no_collection name), w)
        end
    | QdrantGetCollection name => fun w =>
        match collections w !! name with
        | Some _ => (Ok tt, w)
        | None => (Raise (no_collection name), w)
        end
    | QdrantCreateCollection name size => fun w =>
        match collections w !! name with
        | Some _ => (Raise (ExternalError "Collection already exists"), w)
        | None =>
            if 1 <=? size
            then (Ok tt, set_collections w
                    (<[name := {| coll_size := size; coll_points := ∅ |}]>
                       (collections w)))
            else (Raise invalid_request, w)
        end
    | TimeNow => fun w => (Ok (clock w), w)
    end.

(** [str(sequence)] of a list of integers. *)
Fixpoint join_sequence (l : list Z) : string :=
  match l with
  | [] => ""
  | [n] => pretty n
  | n :: l' => pretty n +:+ ", " +:+ join_sequence l'
  end.

Definition print_sequence (l : list Z) : string :=
  "[" +:+ join_sequence l +:+ "]".

Definition digit_of (c : ascii) : option Z :=
  let n := Z.of_nat (nat_of_ascii c) in
  if (48 <=? n) && (n <=? 57) then Some (n - 48) else None.

Definition signed (neg : bool) (n : Z) : Z := if neg then - n else n.

(** JSON's white space: space, tab, line feed and carriage return. *)
Definition is_space (c : ascii) : bool :=
  let n := nat_of_ascii c in
  (n =? 32)%nat || (n =? 9)%nat || (n =? 10)%nat || (n =? 13)%nat.

(** Where the reader of a JSON list of integers stands: before the
    opening bracket, after it, after a comma, after a minus sign, inside
    a number ([more] tells whether a further digit may follow: none may
    after a leading zero), after a number, or after the closing
    bracket. *)
Inductive ReadState : Type :=
| BeforeList | AfterOpen | AfterComma | AfterMinus
| InNumber (neg : bool) (n : Z) (more : bool)
| AfterNumber | AfterClose.

Definition first_digit (neg : bool) (c : ascii) : option ReadState :=
  match digit_of c with
  | Some d => Some (InNumber neg d (negb (d =? 0)))
  | None => None
  end.

(** One character of the text: the next state, and the number that the
    character has completed, if any. *)
Definition read_char (st : ReadState) (c : ascii) : option (ReadState * option Z) :=
  match st with
  | BeforeList =>
      if is_space c then Some (BeforeList, None)
      else if Ascii.eqb c "[" then Some (AfterOpen, None)
      else None
  | AfterOpen =>
      if is_space c then Some (AfterOpen, None)
      else if Ascii.eqb c "]" then Some (AfterClose, None)
      else if Ascii.eqb c "-" then Some (AfterMinus, None)
      else (fun st' => (st', None)) <$> first_digit false c
  | AfterComma =>
      if is_space c then Some (AfterComma, None)
      else if Ascii.eqb c "-" then Some (AfterMinus, None)
      else (fun st' => (st', None)) <$> first_digit false c
  | AfterMinus => (fun st' => (st', None)) <$> first_digit true c
  | InNumber neg n more =>
      if is_space c then Some (AfterNumber, Some (signed neg n))
      else if Ascii.eqb c "," then Some (AfterComma, Some (signed neg n))
      else if Ascii.eqb c "]" then Some (AfterClose, Some (signed neg n))
      else
        match digit_of c with
        | Some d => if more then Some (InNumber neg (10 * n + d) true, None) else None
        | None => None
        end
  | AfterNumber =>
      if is_space c then Some (AfterNumber, None)
      else if Ascii.eqb c "," then Some (AfterComma, None)
      else if Ascii.eqb c "]" then Some (AfterClose, None)
      else None
  | AfterClose => if is_space c then Some (AfterClose, None) else None
  end.

Fixpoint read_items (s : string) (st : ReadState) (acc : list Z)
  : option (list Z) :=
  match s with
  | EmptyString =>
      match st with
      | AfterClose => Some (reverse acc)
      | _ => None
      end
  | String c s' =>
      match read_char st c with
      | Some (st', Some n) => read_items s' st' (n :: acc)
      | Some (st', None) => read_items s' st' acc
      | None => None
      end
  end.

(** [json.loads] on the text of a list of integers, as [str] prints
    one; any other text is refused. *)
Definition read_sequence (s : string) : Result (list Z) :=
  match read_items s BeforeList [] with
  | Some l => Ok l
  | None => Raise (JSONDecodeError "Expecting value")
  end.

Definition print_value (v : Value) : string :=
  match v with
  | VNone => "None"
  | VScalar (SBool b) => if b then "True" else "False"
  | VScalar (SInt n) => pretty n
  | VScalar (SFloat q) => pretty (Qnum q) +:+ "/" +:+ pretty (Zpos (Qden q))
  | VScalar (SStr s) => s
  | VList _ => "[...]"
  end.

(** The reference codec prints and reads user sequences, lists of
    integers; it does not decode movie documents, so a cached document
    counts as unreadable. *)
Definition codec : Codec := {|
  str_of_sequence := print_sequence;
  json_loads_sequence := read_sequence;
  json_dumps := fun d => print_value (dict_get d "movieId");
  json_loads := fun _ => Raise (JSONDecodeError "Expecting value");
  format_value := print_value
|}.

End RefWorld.

(** ** Reading of the id translation

    The id that the wrapper reports for an internal index [idx], in the
    words of the loop's comment: the value stored under key [idx + 1], or
    [idx + 1] itself when that key is absent, for [idx] below the size of
    the mapping; the sentinel [-1] otherwise. *)
Definition reported_id (m : gmap Z Z) (idx id : Z) : Prop :=
  (idx < Z.of_nat (size m) /\
   ((exists v, m !! (idx + 1) = Some v /\ id = v) \/
    (m !! (idx + 1) = None /\ id = idx + 1))) \/
  (Z.of_nat (size m) <= idx /\ id = -1).

(** ** Reading of the stale-entry claim on the in-process cache

    The cache of [api.py] has no generation counter, so a reader that
    comes after a rating update is a reader with a stale generation.  The
    claim then reads: after [update_user] the lookup of the user misses
    while the stored entries are what they were before the call. *)
Definition misses_with_entries_kept (cache : gmap Z Vector)
    (request : Api.UserUpdateRequest) : Prop :=
  let cache' := snd (fst (Api.update_user cache request)) in
  cache' !! Api.user_id request = None /\ cache' = cache.

(** ** The history of a user

    [recommend] takes the history from [get_user_sequence]; the history
    of a user in a world is what that call returns there. *)
Definition user_history {C : Codec} {W : Type} (h : Handler W) (w : W)
    (user_id : Z) : list Z :=
  match result (run h (get_user_sequence user_id) w) with
  | Ok sequence => sequence
  | Raise _ => []
  end.

(** A recommendation carries an id that is not in the history. *)
Definition outside_history (history : list Z) (rec : Dict) : Prop :=
  exists v, rec !! "movie_id" = Some v /\ in_int_set v history = Ok false.

Definition same_movie_id (rec rec' : Dict) : Prop :=
  rec' !! "movie_id" = rec !! "movie_id".

(** ** Exceptions a program can end with

    [raises_only P m]: whatever the services answer, as long as the
    exceptions they raise are not HTTP exceptions, an exception that [m]
    ends with satisfies [P]. *)
Definition is_http (e : Exn) : bool :=
  match e with HTTPException _ _ => true | _ => false end.

Definition service_errors {W : Type} (h : Handler W) : Prop :=
  forall (X : Type) (ev : Event X) (w w' : W) (e : Exn),
    h X ev w = (Raise e, w') -> is_http e = false.

Inductive raises_only (P : Exn -> Prop) {A : Type} : Prog A -> Prop :=
| raises_ret (a : A) : raises_only P (Ret a)
| raises_throw (e : Exn) : P e -> raises_only P (Throw e)
| raises_vis {X : Type} (ev : Event X) (k : Result X -> Prog A) :
    (forall x, raises_only P (k (Ok x))) ->
    (forall e, is_http e = false -> raises_only P (k (Raise e))) ->
    raises_only P (Vis ev k).

(** Not an HTTP exception, or the HTTP 500 of a failed embedding. *)
Definition internal_failure (e : Exn) : Prop :=
  is_http e = false \/ e = ApiVectorial.embedding_failed.

(** ** Sample data *)

Module Samples.

(** Two copies of one vector under ids 20 and 10, in a flat index. *)
Definition twin_index : FAISSIndex RefFaiss.lib :=
  snd (create_index (FAISSIndex_init 2 "flat")
         [[1%Q; 0%Q]; [1%Q; 0%Q]] (list_to_map [(1, 20); (2, 10)])).

(** One vector of length 5 under id 10, in a flat index. *)
Definition long_vector_index : FAISSIndex RefFaiss.lib :=
  snd (create_index (FAISSIndex_init 2 "flat") [[3%Q; 4%Q]] (list_to_map [(1, 10)])).

(** Two vectors under ids 10 and 20, in an HNSW index. *)
Definition hnsw_index : FAISSIndex RefFaiss.lib :=
  snd (create_index (FAISSIndex_init 2 "hnsw")
         [[1%Q; 0%Q]; [0%Q; 1%Q]] (list_to_map [(1, 10); (2, 20)])).

(** Three vectors, of which the mapping knows two. *)
Definition short_mapping_index : FAISSIndex RefFaiss.lib :=
  snd (create_index (FAISSIndex_init 2 "flat")
         [[1%Q; 0%Q]; [0%Q; 1%Q]; [1%Q; 1%Q]] (list_to_map [(1, 20); (2, 10)])).

(** User 7 has a cached embedding and rates movie 3. *)
Definition cache_with_7 : gmap Z Vector := {[ 7 := [1%Q; 0%Q] ]}.

Definition rating_by_7 : Api.UserUpdateRequest :=
  {| Api.user_id := 7; Api.movie_id := 3; Api.rating := (9 # 2)%Q |}.

(** A world whose MongoDB is down while Redis holds the cached
    sequence of user 7. *)
Definition mongo_down : RefWorld.World :=
  {| RefWorld.redis := {[ "user_sequence:7" := "[5, 3]" ]};
     RefWorld.ratings := []; RefWorld.movies := [];
     RefWorld.collections := ∅; RefWorld.clock := 100;
     RefWorld.mongo_up := false; RefWorld.embed := fun _ => [1%Q; 0%Q] |}.

Definition rating_request : ApiVectorial.UserUpdateRequest :=
  {| ApiVectorial.upd_user_id := 7; ApiVectorial.upd_movie_id := 3;
     ApiVectorial.upd_rating := (9 # 2)%Q |}.

(** A catalogue of three movies in the collection [movies]; user 7 has
    rated movies 5 and 3, user 8 nothing. *)
Definition catalogue_metadata : list Dict :=
  [ {[ "movie_id" := VInt 1; "year" := VInt 1995;
       "genres" := VList [SStr "Action"] ]};
    {[ "movie_id" := VInt 3; "year" := VInt 2005 ]};
    {[ "movie_id" := VInt 4 ]} ].

Definition catalogue_points : list PointStruct :=
  movie_points 0
    [[1%Q; 0%Q]; [(3 # 5)%Q; (4 # 5)%Q]; [3%Q; 4%Q]]
    catalogue_metadata.

Definition catalogue : RefWorld.World :=
  {| RefWorld.redis := ∅;
     RefWorld.ratings :=
       [ {| r_userId := 7; r_movieId := 3; r_rating := 4%Q; r_timestamp := 20 |};
         {| r_userId := 7; r_movieId := 5; r_rating := 4%Q; r_timestamp := 10 |} ];
     RefWorld.movies := [ {[ "movieId" := VInt 1; "title" := VStr "A" ]} ];
     RefWorld.collections :=
       {[ "movies" := RefWorld.collection_of 2 catalogue_points ]};
     RefWorld.clock := 100; RefWorld.mongo_up := true;
     RefWorld.embed := fun _ => [1%Q; 0%Q] |}.

(** The same three movies with vectors of 256 components. *)
Definition wide (v : Vector) : Vector := v ++ replicate (256 - length v) 0%Q.

Definition wide_catalogue : RefWorld.World :=
  RefWorld.set_collections catalogue
    {[ "movies" :=
         RefWorld.collection_of 256
           (movie_points 0 (wide <$> [[1%Q; 0%Q]; [0%Q; 1%Q]; [3%Q; 4%Q]])
              catalogue_metadata) ]}.

Definition movies_service : QdrantService := QdrantService_init "movies".

Definition request_for (user_id : Z) (filters : option Dict)
  : ApiVectorial.RecommendationRequest :=
  {| ApiVectorial.user_id := user_id; ApiVectorial.k := 2;
     ApiVectorial.method := "vectorial"; ApiVectorial.filters := filters |}.

(** What [recommend] answers to user 7 on the catalogue. *)
Definition recommended_for_7 : Result ApiVectorial.RecommendationResponse :=
  Eval vm_compute in
    result (run RefWorld.handler
              (ApiVectorial.recommend (C := RefWorld.codec) true movies_service
                 (request_for 7 None))
              catalogue).

Definition recommendations_for_7 : list Dict :=
  match recommended_for_7 with
  | Ok response => ApiVectorial.recommendations response
  | Raise _ => []
  end.

(** What the search answers on the catalogue for movies from 2000 on. *)
Definition from_2000 : option Dict := Some {[ "year_min" := VInt 2000 ]}.

Definition similar_from_2000 : list Dict :=
  Eval vm_compute in
    match result (run RefWorld.handler
                    (search_similar movies_service [1%Q; 0%Q] 5 from_2000)
                    catalogue) with
    | Ok results => results
    | Raise _ => []
    end.

(** What the search answers on the catalogue for the two nearest movies. *)
Definition two_nearest : list Dict :=
  Eval vm_compute in
    match result (run RefWorld.handler
                    (search_similar movies_service [1%Q; 0%Q] 2 None)
                    catalogue) with
    | Ok results => results
    | Raise _ => []
    end.

(** A world with an empty collection [movies]. *)
Definition empty_movies : RefWorld.World :=
  {| RefWorld.redis := ∅; RefWorld.ratings := []; RefWorld.movies := [];
     RefWorld.collections := {[ "movies" := RefWorld.collection_of 2 [] ]};
     RefWorld.clock := 100; RefWorld.mongo_up := true;
     RefWorld.embed := fun _ => [1%Q; 0%Q] |}.

(** A flat index of dimension 2 that holds nothing. *)
Definition empty_flat : RefFaiss.RefIndex :=
  {| RefFaiss.ref_dim := 2; RefFaiss.ref_metric := RefFaiss.METRIC_INNER_PRODUCT;
     RefFaiss.ref_nlist := 0; RefFaiss.ref_centroids := 0;
     RefFaiss.ref_trained := true; RefFaiss.ref_vectors := [] |}.

(** The flat index of dimension 2 that holds the given vectors. *)
Definition flat_of (vectors : list Vector) : RefFaiss.RefIndex :=
  {| RefFaiss.ref_dim := 2; RefFaiss.ref_metric := RefFaiss.METRIC_INNER_PRODUCT;
     RefFaiss.ref_nlist := 0; RefFaiss.ref_centroids := 0;
     RefFaiss.ref_trained := true; RefFaiss.ref_vectors := vectors |}.

Definition rebuilt_empty : FAISSIndex RefFaiss.lib :=
  @Build_FAISSIndex RefFaiss.lib 2 "flat" (Some empty_flat) ∅ (reverse_mapping ∅).

End Samples.

(** * More of the code *)

(** ** [faiss_index.py]: [save_index] and [load_index]

    [json.dump] writes the integer keys of the item mapping as strings,
    and [json.load] gives them back as strings.  An object whose mapping
    was read from disk therefore has string keys, while [search] looks
    integers up: a key of a mapping is an integer or a string. *)

Inductive Key : Type :=
| KInt (n : Z)
| KStr (s : string).

#[global] Instance Key_eq_dec : EqDecision Key.
Proof. solve_decision. Defined.

Definition key_to_sum (k : Key) : Z + string :=
  match k with KInt n => inl n | KStr s => inr s end.

Definition key_of_sum (x : Z + string) : Key :=
  match x with inl n => KInt n | inr s => KStr s end.

#[global] Instance Key_countable : Countable Key.
Proof. refine (inj_countable' key_to_sum key_of_sum _). by intros []. Defined.

(** [FileNotFoundError] *)
Definition FileNotFoundError (msg : string) : Exn :=
  ExternalError ("FileNotFoundError: " +:+ msg).

(** [os.path.join(directory, name)] for a relative [name]. *)
Fixpoint ends_with_slash (s : string) : bool :=
  match s with
  | EmptyString => false
  | String c EmptyString => Ascii.eqb c "/"
  | String _ s' => ends_with_slash s'
  end.

Definition path_join (directory name : string) : string :=
  if String.eqb directory "" then name
  else if ends_with_slash directory then directory +:+ name
  else directory +:+ "/" +:+ name.

Section FAISSIndexFiles.
Context {F : FaissLib}.

(** The object with a mapping of either kind of key. *)
Record FAISSIndexK : Type := {
  k_embedding_dim : Z;
  k_index_type : string;
  k_index : option Index;
  k_item_mapping : gmap Key Z;
  k_reverse_item_mapping : gmap Z Key
}.

(** An object as [create_index] leaves it: integer keys. *)
Definition keyed (self : FAISSIndex F) : FAISSIndexK :=
  {| k_embedding_dim := embedding_dim self; k_index_type := index_type self;
     k_index := index self;
     k_item_mapping := kmap KInt (item_mapping self);
     k_reverse_item_mapping := KInt <$> reverse_item_mapping self |}.

(** What stands at a path: a directory, a serialized index, the file
    that [faiss.write_index] writes for no index at all ([None]), or a
    JSON object with integer values.  [faiss.write_index] followed by
    [faiss.read_index] gives the index back.  Paths are compared as
    written, and a path is taken as a whole: the directories above it
    and the permissions on it are not part of the model. *)
Inductive FileContent : Type :=
| Directory
| IndexFile (ix : Index)
| NullIndexFile
| JsonFile (obj : gmap string Z).

Definition FileExistsError (msg : string) : Exn :=
  ExternalError ("FileExistsError: " +:+ msg).

Definition IsADirectoryError (msg : string) : Exn :=
  ExternalError ("IsADirectoryError: " +:+ msg).

(** [os.makedirs(directory, exist_ok=True)]: the empty path is refused,
    an existing directory is accepted, and anything else standing at the
    path is an error. *)
Definition makedirs (directory : string) (files : gmap string FileContent)
  : Result unit * gmap string FileContent :=
  if String.eqb directory "" then
    (Raise (FileNotFoundError "[Errno 2] No such file or directory: ''"), files)
  else
    match files !! directory with
    | None => (Ok tt, <[directory := Directory]> files)
    | Some Directory => (Ok tt, files)
    | Some _ =>
        (Raise (FileExistsError ("[Errno 17] File exists: '" +:+ directory +:+ "'")),
         files)
    end.

(** [faiss.write_index(index, path)]; for [None] it writes the file of
    a missing index. *)
Definition write_index (ix : option Index) (path : string)
    (files : gmap string FileContent) : Result unit * gmap string FileContent :=
  match files !! path with
  | Some Directory =>
      (Raise (ExternalError ("RuntimeError: could not open " +:+ path
                             +:+ " for writing: Is a directory")), files)
  | _ =>
      (Ok tt, <[path := match ix with
                        | Some ix => IndexFile ix
                        | None => NullIndexFile
                        end]> files)
  end.

(** [json.dump(self.item_mapping, f)]: the keys become their decimal
    text. *)
Definition json_dump_mapping (m : gmap Z Z) : gmap string Z := kmap pretty m.

(** [with open(path, "w") as f: json.dump(item_mapping, f)] *)
Definition write_mapping (m : gmap Z Z) (path : string)
    (files : gmap string FileContent) : Result unit * gmap string FileContent :=
  match files !! path with
  | Some Directory =>
      (Raise (IsADirectoryError ("[Errno 21] Is a directory: '" +:+ path +:+ "'")),
       files)
  | _ => (Ok tt, <[path := JsonFile (json_dump_mapping m)]> files)
  end.

(** [FAISSIndex.save_index] *)
Definition save_index (self : FAISSIndex F) (directory : string)
    (files : gmap string FileContent) : Result unit * gmap string FileContent :=
  match makedirs directory files with
  | (Raise e, files) => (Raise e, files)
  | (Ok _, files) =>
      match write_index (index self) (path_join directory "faiss_index.bin") files with
      | (Raise e, files) => (Raise e, files)
      | (Ok _, files) =>
          write_mapping (item_mapping self)
            (path_join directory "item_mapping.json") files
      end
  end.

(** [{v: k for k, v in self.item_mapping.items()}] over either kind of
    key. *)
Definition reverse_mapping_k (m : gmap Key Z) : gmap Z Key :=
  foldl (fun acc kv => <[kv.2 := kv.1]> acc) ∅ (map_to_list m).

Definition k_set_index (self : FAISSIndexK) (ix : Index) : FAISSIndexK :=
  {| k_embedding_dim := k_embedding_dim self; k_index_type := k_index_type self;
     k_index := Some ix; k_item_mapping := k_item_mapping self;
     k_reverse_item_mapping := k_reverse_item_mapping self |}.

Definition k_clear_index (self : FAISSIndexK) : FAISSIndexK :=
  {| k_embedding_dim := k_embedding_dim self; k_index_type := k_index_type self;
     k_index := None; k_item_mapping := k_item_mapping self;
     k_reverse_item_mapping := k_reverse_item_mapping self |}.

Definition k_set_mappings (self : FAISSIndexK) (m : gmap Key Z) : FAISSIndexK :=
  {| k_embedding_dim := k_embedding_dim self; k_index_type := k_index_type self;
     k_index := k_index self; k_item_mapping := m;
     k_reverse_item_mapping := reverse_mapping_k m |}.

(** [with open(mapping_path, "r") as f: self.item_mapping = json.load(f)]
    and the reverse mapping after it. *)
Definition load_mapping (self : FAISSIndexK) (mapping_path : string)
    (files : gmap string FileContent) : Result unit * FAISSIndexK :=
  match files !! mapping_path with
  | None =>
      (Raise (FileNotFoundError
                ("Mapeo de items no encontrado en " +:+ mapping_path)), self)
  | Some Directory =>
      (Raise (IsADirectoryError ("[Errno 21] Is a directory: '" +:+ mapping_path
                                 +:+ "'")), self)
  | Some (IndexFile _) | Some NullIndexFile =>
      (Raise (JSONDecodeError "Expecting value"), self)
  | Some (JsonFile obj) => (Ok tt, k_set_mappings self (kmap KStr obj))
  end.

(** [FAISSIndex.load_index]; [faiss.read_index] gives [None] for the
    file of a missing index. *)
Definition load_index (self : FAISSIndexK) (directory : string)
    (files : gmap string FileContent) : Result unit * FAISSIndexK :=
  let index_path := path_join directory "faiss_index.bin" in
  let mapping_path := path_join directory "item_mapping.json" in
  match files !! index_path with
  | None =>
      (Raise (FileNotFoundError ("Índice FAISS no encontrado en " +:+ index_path)),
       self)
  | Some Directory | Some (JsonFile _) =>
      (Raise (ExternalError "RuntimeError: read_index: not an index file"), self)
  | Some (IndexFile ix) => load_mapping (k_set_index self ix) mapping_path files
  | Some NullIndexFile => load_mapping (k_clear_index self) mapping_path files
  end.

(** The loop body of [search] on a mapping of either kind of key: the
    key looked up is the integer [idx + 1]. *)
Definition translate_index_k (item_mapping : gmap Key Z) (idx : Z) : Z :=
  if bool_decide (idx < Z.of_nat (size item_mapping))
  then default (idx + 1) (item_mapping !! KInt (idx + 1))
  else -1.

(** [FAISSIndex.search] on such an object *)
Definition search_k (self : FAISSIndexK) (query_embedding : Vector) (k : Z)
  : Result (list Z * list Q) :=
  match k_index self with
  | None => Raise not_initialised
  | Some ix =>
      match index_search ix [query_embedding] k with
      | Raise e => Raise e
      | Ok (scores, indices) =>
          match indices, scores with
          | irow :: _, srow :: _ =>
              Ok (translate_index_k (k_item_mapping self) <$> irow, srow)
          | _, _ => Raise (IndexError "index 0 is out of bounds")
          end
      end
  end.

End FAISSIndexFiles.

Arguments FAISSIndexK F : clear implicits.
Arguments FileContent F : clear implicits.

(** ** [embedding_exporter.py]: the id mappings *)

(** [EmbeddingExporter.create_item_mapping]: the loop over
    [range(1, num_items + 1)]. *)
Definition create_item_mapping (num_items : Z) : gmap Z Z :=
  foldl (fun item_mapping i => <[i := i]> item_mapping) ∅ (seqZ 1 num_items).

(** ** Calls, by kind and by answer *)

Definition is_failed_call (c : Call) : bool :=
  match c with Called _ (Raise _) => true | _ => false end.

Definition is_mongo_call (c : Call) : bool :=
  match c with
  | Called (RatingsFindOne _) _ | Called (RatingsFindSorted _) _
  | Called (RatingsUpdateOne _ _ _ _) _ | Called (MoviesFindOne _) _ => true
  | _ => false
  end.

Definition is_setex_call (c : Call) : bool :=
  match c with Called (RedisSetex _ _ _) _ => true | _ => false end.

Definition is_upsert_call (c : Call) : bool :=
  match c with Called (QdrantUpsert _ _) _ => true | _ => false end.

Definition is_create_collection_call (c : Call) : bool :=
  match c with Called (QdrantCreateCollection _ _) _ => true | _ => false end.

(** Redis as a store: right after a [setex] that succeeded, [get] of the
    key gives the value; right after a [delete] that succeeded, [get] of
    the key gives nothing. *)
Record RedisStore {W : Type} (h : Handler W) : Prop := {
  get_after_setex : forall key ttl value w w1,
    h _ (RedisSetex key ttl value) w = (Ok tt, w1) ->
    exists w2, h _ (RedisGet key) w1 = (Ok (Some value), w2);
  get_after_delete : forall key w w1,
    h _ (RedisDelete key) w = (Ok tt, w1) ->
    exists w2, h _ (RedisGet key) w1 = (Ok None, w2)
}.

(** [value != n] for an integer [n]: numbers compare by value; [None],
    strings and lists differ from every integer. *)
Definition ne_int (value : Value) (n : Z) : bool :=
  match value with
  | VScalar s =>
      match scalar_number s with
      | Some q => negb (Qeq_bool q (inject_Z n))
      | None => true
      end
  | _ => true
  end.

(** ** [qdrant_service.py]: [find_similar_users]

    [self.get_user_embedding(user_id)] reads the stored vector with
    [client.retrieve], an operation of the engine that is not among the
    events above; it stands here for any program that returns the
    vector or nothing. *)

Section FindSimilarUsers.
Variable get_user_embedding : Z -> Prog (option Vector).
Open Scope prog_scope.

Definition similar_user (result : ScoredPoint) : Dict :=
  {[ "user_id" := dict_get (sp_payload result) "user_id";
     "similarity_score" := VFloat (sp_score result);
     "created_at" := dict_get (sp_payload result) "created_at" ]}.

(** The loop that leaves the user out of the results. *)
Definition other_users (user_id : Z) (results : list ScoredPoint) : list Dict :=
  similar_user <$>
    filter (fun result => ne_int (dict_get (sp_payload result) "user_id") user_id = true)
      results.

(** [QdrantService.find_similar_users] *)
Definition find_similar_users (user_id k : Z) : Prog (list Dict) :=
  try_except
    (let user_collection := "user_embeddings" in
     user_embedding <- get_user_embedding user_id;;
     match user_embedding with
     | None => Ret []
     | Some user_embedding =>
         results <- call (QdrantSearch user_collection user_embedding (k + 1) None);;
         Ret (ApiVectorial.slice_to k (other_users user_id results))
     end)
    (fun _ => Ret []).

End FindSimilarUsers.

(** ** [api_ml32m_vectorial.py]: [similar_movies]

    [qdrant_instance.get_movie_by_id(movie_id)] reads the point with
    [client.scroll], an operation of the engine that is not among the
    events above; it stands here for any program that returns the
    movie's fields with its vector, or nothing. *)

Module SimilarMovies.
Section SimilarMovies.
Context {C : Codec}.
Variable get_movie_by_id : Z -> Prog (option (Dict * Vector)).
Open Scope prog_scope.

Record SimilarMoviesRequest : Type := {
  movie_id : Z;
  k : Z;
  filters : option Dict
}.

(** The response; [timestamp] is a wall-clock reading and is left out. *)
Record SimilarMoviesResponse : Type := {
  base_movie : Dict;
  similar_movies_found : list Dict;
  count : Z
}.

Definition embedding_dim : Z := 256.

Definition not_found (movie_id : Z) : Exn :=
  HTTPException 404
    ("Película " +:+ pretty movie_id +:+ " no encontrada en base vectorial").

Definition wrong_dimension (movie_id : Z) (n : Z) : Exn :=
  HTTPException 500
    ("Error procesando vector de película " +:+ pretty movie_id +:+ ": "
     +:+ "Dimensión de vector incorrecta: " +:+ pretty n +:+ " vs "
     +:+ pretty embedding_dim).

(** [[movie for movie in similar if movie["movie_id"] != movie_id]] *)
Fixpoint others (movie_id : Z) (similar : list Dict) : Result (list Dict) :=
  match similar with
  | [] => Ok []
  | movie :: rest =>
      rbind (dict_index movie "movie_id") (fun id =>
      rbind (others movie_id rest) (fun kept =>
      Ok (if ne_int id movie_id then movie :: kept else kept)))
  end.

Definition base_movie_of (movie_id : Z) (base_metadata : option Dict) : Dict :=
  let known := match base_metadata with
               | Some md => if bool_decide (md = ∅) then None else Some md
               | None => None
               end in
  {[ "movie_id" := VInt movie_id;
     "title" := match known with
                | Some md => dict_get_default md "title" (VStr "Desconocido")
                | None => VStr "Desconocido"
                end;
     "genres" := match known with
                 | Some md => dict_get_default md "genres" (VStr "")
                 | None => VStr ""
                 end ]}.

(** [similar_movies] *)
Definition similar_movies (qdrant_instance : QdrantService)
    (request : SimilarMoviesRequest) : Prog SimilarMoviesResponse :=
  try_except
    (base <- get_movie_by_id (movie_id request);;
     match base with
     | None | Some (_, []) => Throw (not_found (movie_id request))
     | Some (_, (_ :: _) as query_vector) =>
         (if bool_decide (Z.of_nat (length query_vector) = embedding_dim)
          then Ret tt
          else Throw (wrong_dimension (movie_id request)
                        (Z.of_nat (length query_vector))));;;
         similar <- search_similar qdrant_instance query_vector
                      (k request + 1) (filters request);;
         kept <- lift (others (movie_id request) similar);;
         let similar_filtered := ApiVectorial.slice_to (k request) kept in
         base_metadata <- get_movie_metadata (VInt (movie_id request));;
         similar_filtered <- ApiVectorial.enrich similar_filtered;;
         Ret {| base_movie := base_movie_of (movie_id request) base_metadata;
                similar_movies_found := similar_filtered;
                count := Z.of_nat (length similar_filtered) |}
     end)
    ApiVectorial.reraise_http.

End SimilarMovies.
End SimilarMovies.

(** The collection and the batch of a call to [client.upsert]. *)
Definition upsert_batch (c : Call) : option (string * list PointStruct) :=
  match c with
  | Called (QdrantUpsert collection points) _ => Some (collection, points)
  | _ => None
  end.

(** The score carried by a result of [search_similar]. *)
Definition score_of (movie : Dict) : Q :=
  match movie !! "score" with
  | Some (VScalar (SFloat s)) => s
  | _ => 0%Q
  end.

(** The reference world with a sequence model that raises. *)
Definition model_down : Handler RefWorld.World :=
  fun X ev =>
    match ev in Event X return RefWorld.World -> Result X * RefWorld.World with
    | ModelForward _ => fun w => (Raise (ExternalError "CUDA out of memory"), w)
    | ev' => RefWorld.handler _ ev'
    end.

(** ** [api.py]: [recommend_filter]

    The endpoint reads and writes the global [user_embeddings_cache], and
    what it wrote stays written when a later step raises: the program
    returns the outcome of the request, a response or the HTTP exception
    raised, together with the cache afterwards. *)

Module ApiFilter.
Section ApiFilter.
Variable linalg_norm : Vector -> Q.
Variable drawn_sequence : Z -> list Z.
Open Scope prog_scope.

Record RecommendationRequest : Type := {
  user_id : Z;
  k : Z;
  filters : option Dict
}.

(** The response; [latency_ms] is a wall-clock reading and is left out. *)
Record FilterResponse : Type := {
  resp_user_id : Z;
  recommendations : list Dict;
  method : string;
  filters_applied : option Dict
}.

(** [except Exception as e: raise HTTPException(status_code=500, detail=str(e))] *)
Definition http_500 (e : Exn) : Exn := HTTPException 500 (exn_str e).

(** [recommend_filter] *)
Definition recommend_filter (qdrant_service : QdrantService)
    (user_embeddings_cache : gmap Z Vector) (request : RecommendationRequest)
  : Prog (Result FilterResponse * gmap Z Vector) :=
  try_except
    (found <- Api.get_user_embedding linalg_norm drawn_sequence
                user_embeddings_cache (user_id request);;
     let user_embedding := fst found in
     let cache := snd found in
     try_except
       (results <- search_similar qdrant_service user_embedding (k request)
                     (filters request);;
        Ret (Ok {| resp_user_id := user_id request;
                   recommendations := results;
                   method := "qdrant_filtered";
                   filters_applied := filters request |}, cache))
       (fun e => Ret (Raise (http_500 e), cache)))
    (fun e => Ret (Raise (http_500 e), user_embeddings_cache)).

End ApiFilter.
End ApiFilter.

(** The answers that the model gave over a run, in order. *)
Definition model_answer (c : Call) : list Vector :=
  match c with
  | Called (ModelForward _) (Ok answer) => [answer]
  | _ => []
  end.

(** The reference world with a Redis that refuses deletions. *)
Definition redis_read_only : Handler RefWorld.World :=
  fun X ev =>
    match ev in Event X return RefWorld.World -> Result X * RefWorld.World with
    | RedisDelete _ => fun w => (Raise (ExternalError "READONLY"), w)
    | ev' => RefWorld.handler _ ev'
    end.

(** ** [qdrant_service.py]: [load_movie_metadata]

    The lines of the file are read by [read_movies], which stands for
    the loop with [strip], [split] and [int]; a missing file gives the
    placeholder metadata of the [except FileNotFoundError] branch. *)

Section LoadMovieMetadata.
Variable read_movies : string -> Result (list Dict).

Definition placeholder_movie (i : Z) : Dict :=
  {[ "movie_id" := VInt i;
     "title" := VStr ("Movie " +:+ pretty i);
     "genres" := VList [SStr "Unknown"];
     "year" := VInt 0;
     "rating" := VFloat 0;
     "num_ratings" := VInt 0 ]}.

(** [load_movie_metadata]; [files] maps the paths that exist to their
    text. *)
Definition load_movie_metadata (files : gmap string string) (movies_file : string)
  : Result (list Dict) :=
  match files !! movies_file with
  | Some text => read_movies text
  | None => Ok (placeholder_movie <$> seqZ 1 3416)
  end.

End LoadMovieMetadata.

(** The catalogue world with MongoDB unreachable: the ratings of user
    7 are stored, and no call can read them. *)
Definition ratings_unreachable : RefWorld.World :=
  {| RefWorld.redis := ∅;
     RefWorld.ratings := RefWorld.ratings Samples.catalogue;
     RefWorld.movies := RefWorld.movies Samples.catalogue;
     RefWorld.collections := RefWorld.collections Samples.catalogue;
     RefWorld.clock := 100; RefWorld.mongo_up := false;
     RefWorld.embed := fun _ => [1%Q; 0%Q] |}.

(** The catalogue world with an undecodable cached sequence for user 7. *)
Definition corrupt_sequence_cache : RefWorld.World :=
  RefWorld.set_redis Samples.catalogue {[ "user_sequence:7" := "[5, x]" ]}.

(** ** [api.py]: [recommend_fast]

    Like [recommend_filter] the endpoint returns its outcome together
    with the cache afterwards.  [qdrant_service.get_movie_by_id] stands
    for any program that returns the fields of the movie with its
    vector, or nothing. *)

Module ApiFast.
Section ApiFast.
Context {F : FaissLib}.
Variable linalg_norm : Vector -> Q.
Variable drawn_sequence : Z -> list Z.
Variable get_movie_by_id : Z -> Prog (option (Dict * Vector)).
Open Scope prog_scope.

(** The response; [latency_ms] is a wall-clock reading and is left out. *)
Record FastResponse : Type := {
  resp_user_id : Z;
  recommendations : list Dict;
  method : string
}.

(** The loop over [zip(movie_ids, scores)]. *)
Fixpoint movie_infos (found : list (Z * Q)) : Prog (list Dict) :=
  match found with
  | [] => Ret []
  | (movie_id, score) :: rest =>
      movie_info <- get_movie_by_id movie_id;;
      match movie_info with
      | Some (info, _) =>
          title <- lift (dict_index info "title");;
          genres <- lift (dict_index info "genres");;
          year <- lift (dict_index info "year");;
          recommendations <- movie_infos rest;;
          Ret ({[ "movie_id" := VInt movie_id; "title" := title;
                  "genres" := genres; "year" := year;
                  "score" := VFloat score ]} :: recommendations)
      | None => movie_infos rest
      end
  end.

(** [recommend_fast] *)
Definition recommend_fast (faiss_index : FAISSIndex F)
    (user_embeddings_cache : gmap Z Vector)
    (request : ApiFilter.RecommendationRequest)
  : Prog (Result FastResponse * gmap Z Vector) :=
  try_except
    (found <- Api.get_user_embedding linalg_norm drawn_sequence
                user_embeddings_cache (ApiFilter.user_id request);;
     let user_embedding := fst found in
     let cache := snd found in
     try_except
       (hits <- lift (search faiss_index user_embedding (ApiFilter.k request));;
        recommendations <- movie_infos (zip (fst hits) (snd hits));;
        Ret (Ok {| resp_user_id := ApiFilter.user_id request;
                   recommendations := recommendations;
                   method := "faiss_fast" |}, cache))
       (fun e => Ret (Raise (ApiFilter.http_500 e), cache)))
    (fun e => Ret (Raise (ApiFilter.http_500 e), user_embeddings_cache)).

End ApiFast.
End ApiFast.

(** A lookup that finds every movie. *)
Definition every_movie (movie_id : Z) : Prog (option (Dict * Vector)) :=
  Ret (Some ({[ "movie_id" := VInt movie_id; "title" := VStr "A";
                "genres" := VList []; "year" := VInt 1995;
                "rating" := VNone ]}, [1%Q; 0%Q])).

(** A flat index that holds one vector, known as [movie]. *)
Definition single_movie_index (movie : Z) : FAISSIndex RefFaiss.lib :=
  snd (create_index (FAISSIndex_init 2 "flat") [[1%Q; 0%Q]] {[ 1 := movie ]}).

(** * Properties *)

(** ** Running programs *)

Section Running.
Context {W : Type} (h : Handler W).

Lemma run_bind {A B : Type} (m : Prog A) (f : A -> Prog B) (w : W) :
  run h (bind m f) w =
  match result (run h m w) with
  | Ok a =>
      let o := run h (f a) (world (run h m w)) in
      {| result := result o; world := world o;
         calls := calls (run h m w) ++ calls o |}
  | Raise e =>
      {| result := Raise e; world := world (run h m w);
         calls := calls (run h m w) |}
  end.
Proof.
  revert w. induction m as [a | e | X ev k IH]; intros w; simpl.
  - destruct (run h (f a) w); reflexivity.
  - reflexivity.
  - destruct (h X ev w) as [r w']. simpl. rewrite IH.
    destruct (result (run h (k r) w')); reflexivity.
Qed.

Lemma run_try_except {A : Type} (m : Prog A) (hd : Exn -> Prog A) (w : W) :
  run h (try_except m hd) w =
  match result (run h m w) with
  | Ok a =>
      {| result := Ok a; world := world (run h m w);
         calls := calls (run h m w) |}
  | Raise e =>
      let o := run h (hd e) (world (run h m w)) in
      {| result := result o; world := world o;
         calls := calls (run h m w) ++ calls o |}
  end.
Proof.
  revert w. induction m as [a | e | X ev k IH]; intros w; simpl.
  - reflexivity.
  - destruct (run h (hd e) w); reflexivity.
  - destruct (h X ev w) as [r w']. simpl. rewrite IH.
    destruct (result (run h (k r) w')); reflexivity.
Qed.

Lemma run_call {X : Type} (ev : Event X) (w : W) :
  run h (call ev) w =
  {| result := fst (h X ev w); world := snd (h X ev w);
     calls := [Called ev (fst (h X ev w))] |}.
Proof.
  unfold call. simpl. destruct (h X ev w) as [[x | e] w']; reflexivity.
Qed.

Lemma run_lift {A : Type} (r : Result A) (w : W) :
  run h (lift r) w = {| result := r; world := w; calls := [] |}.
Proof. destruct r; reflexivity. Qed.

End Running.

(** ** Ranking *)

Lemma non_increasing_cons (x y : Q) (l : list Q) :
  non_increasing (x :: y :: l) <-> (y <= x)%Q /\ non_increasing (y :: l).
Proof. reflexivity. Qed.

Lemma non_increasing_tail (x : Q) (l : list Q) :
  non_increasing (x :: l) -> non_increasing l.
Proof. destruct l as [| y l]; [easy | intros [_ H]; exact H]. Qed.

Lemma non_increasing_take (n : nat) (l : list Q) :
  non_increasing l -> non_increasing (take n l).
Proof.
  revert n. induction l as [| x l IH]; intros n Hs.
  - destruct n; exact I.
  - destruct n as [| n]; [exact I |].
    destruct l as [| y l]; [destruct n; exact I |].
    destruct n as [| n]; [exact I |].
    destruct Hs as [Hxy Hs]. change (take (S (S n)) (x :: y :: l))
      with (x :: take (S n) (y :: l)).
    specialize (IH (S n) Hs). simpl in *. split; assumption.
Qed.

Lemma non_increasing_pad (b : Q) (n : nat) (l : list Q) :
  non_increasing l -> Forall (fun s => (b <= s)%Q) l ->
  non_increasing (l ++ replicate n b).
Proof.
  induction l as [| x l IH]; intros Hs Hb.
  - simpl. induction n as [| n IHn]; [exact I |].
    destruct n; [exact I |]. split; [apply Qle_refl | exact IHn].
  - apply Forall_cons in Hb as [Hx Hb].
    specialize (IH (non_increasing_tail _ _ Hs) Hb).
    destruct l as [| y l].
    + simpl. destruct n as [| n]; [exact I |]. split; [exact Hx | exact IH].
    + destruct Hs as [Hxy _]. split; [exact Hxy | exact IH].
Qed.

Section RankingFacts.
Context {A : Type} (score : A -> Q).

Lemma insert_ranked_perm (x : A) (l : list A) :
  insert_ranked score x l ≡ₚ x :: l.
Proof.
  induction l as [| y l IH]; simpl; [reflexivity |].
  destruct (Qle_bool (score y) (score x)); [reflexivity |].
  rewrite IH. apply Permutation_swap.
Qed.

Lemma rank_perm (l : list A) : rank score l ≡ₚ l.
Proof.
  induction l as [| x l IH]; simpl; [reflexivity |].
  rewrite insert_ranked_perm. by rewrite IH.
Qed.

Lemma insert_ranked_sorted (x : A) (l : list A) :
  non_increasing (score <$> l) ->
  non_increasing (score <$> insert_ranked score x l).
Proof.
  induction l as [| y l IH]; intros Hs; [exact I |].
  simpl. destruct (Qle_bool (score y) (score x)) eqn:E.
  - split; [by apply Qle_bool_iff | exact Hs].
  - assert (Hxy : (score x <= score y)%Q).
    { apply Qlt_le_weak, Qnot_le_lt. intros Hle.
      apply Qle_bool_iff in Hle. congruence. }
    specialize (IH (non_increasing_tail _ _ Hs)).
    destruct l as [| z l]; [split; [exact Hxy | exact I] |].
    destruct Hs as [Hzy _]. simpl in *.
    destruct (Qle_bool (score z) (score x)); split; assumption.
Qed.

Lemma rank_sorted (l : list A) : non_increasing (score <$> rank score l).
Proof.
  induction l as [| x l IH]; [exact I |].
  simpl. by apply insert_ranked_sorted.
Qed.

End RankingFacts.

(** ** The reference FAISS library keeps the search contract *)

Lemma knn_length (xb : list Vector) (k : nat) (q : Vector) :
  length (RefFaiss.knn xb k q) = k.
Proof.
  unfold RefFaiss.knn. rewrite length_app, length_replicate, length_take. lia.
Qed.

Lemma knn_l2_length (xb : list Vector) (k : nat) (q : Vector) :
  length (RefFaiss.knn_l2 xb k q) = k.
Proof.
  unfold RefFaiss.knn_l2. rewrite length_app, length_replicate, length_take. lia.
Qed.

Lemma row_length (ix : RefFaiss.RefIndex) (k : nat) (q : Vector) :
  length (RefFaiss.row ix k q) = k.
Proof.
  unfold RefFaiss.row. destruct (RefFaiss.ref_metric ix);
    [apply knn_length | apply knn_l2_length].
Qed.

Lemma scored_bounded (q : Vector) (xb : list Vector) :
  Forall (fun s => (RefFaiss.neg_flt_max <= s)%Q) (fst <$> RefFaiss.scored q xb).
Proof.
  unfold RefFaiss.scored. apply Forall_fmap, Forall_forall.
  intros [s i] Hin. apply elem_of_lookup_imap in Hin as (n & x & Heq & _).
  injection Heq as -> _. simpl. unfold RefFaiss.score. apply Q.le_max_l.
Qed.

Lemma knn_sorted (xb : list Vector) (k : nat) (q : Vector) :
  non_increasing (fst <$> RefFaiss.knn xb k q).
Proof.
  unfold RefFaiss.knn. rewrite fmap_app, fmap_replicate, fmap_take. simpl.
  apply non_increasing_pad.
  - apply non_increasing_take, rank_sorted.
  - apply Forall_take. rewrite (rank_perm fst), reverse_Permutation.
    apply scored_bounded.
Qed.

Lemma ref_search_ok (ix : RefFaiss.RefIndex) (qs : list Vector) (k : Z) S I :
  RefFaiss.search ix qs k = Ok (S, I) ->
  0 < k /\ forallb (RefFaiss.has_dim (RefFaiss.ref_dim ix)) qs = true /\
  S = (fmap fst <$> (RefFaiss.row ix (Z.to_nat k) <$> qs)) /\
  I = (fmap snd <$> (RefFaiss.row ix (Z.to_nat k) <$> qs)).
Proof.
  unfold RefFaiss.search. destruct (0 <? k) eqn:Hk; simpl; [| discriminate].
  destruct (forallb _ qs) eqn:Hd; simpl; [| discriminate].
  intros [= <- <-]. apply Z.ltb_lt in Hk. auto.
Qed.

Lemma ref_faiss_contract : FaissSearchContract RefFaiss.lib.
Proof.
  split; simpl.
  - intros ix qs k S I H. apply ref_search_ok in H as (Hk & _ & -> & ->).
    rewrite !length_fmap. repeat split; try reflexivity.
    + apply Forall_fmap, Forall_fmap, Forall_forall. intros q _. simpl.
      rewrite length_fmap, row_length. lia.
    + apply Forall_fmap, Forall_fmap, Forall_forall. intros q _. simpl.
      rewrite length_fmap, row_length. lia.
  - intros ix qs k S I i q H Hq.
    apply ref_search_ok in H as (Hk & Hd & -> & ->).
    exists (fst <$> RefFaiss.row ix (Z.to_nat k) q),
           (snd <$> RefFaiss.row ix (Z.to_nat k) q).
    rewrite !list_lookup_fmap, Hq. simpl. repeat split.
    unfold RefFaiss.search.
    apply Z.ltb_lt in Hk. rewrite Hk. simpl.
    rewrite forallb_forall in Hd.
    rewrite (Hd q), Bool.andb_true_r; [reflexivity |].
    apply list_elem_of_In, list_elem_of_lookup. eauto.
Qed.

Lemma ref_flat_metric (ix : RefFaiss.RefIndex) :
  flat_inner_product (F := RefFaiss.lib) ix ->
  RefFaiss.ref_metric ix = RefFaiss.METRIC_INNER_PRODUCT.
Proof.
  induction 1 as [d ix H | ix ix' xs _ IH H]; simpl in H.
  - by injection H as <-.
  - unfold RefFaiss.add in H. destruct (negb _); [discriminate |].
    destruct (forallb _ xs); [| discriminate]. by injection H as <-.
Qed.

Lemma ref_flat_ranking : FlatRanking RefFaiss.lib.
Proof.
  split. intros ix qs k S I Hflat H. simpl in H.
  apply ref_search_ok in H as (_ & _ & -> & _).
  apply Forall_fmap, Forall_fmap, Forall_forall. intros q _. simpl.
  unfold RefFaiss.row. rewrite (ref_flat_metric ix Hflat). apply knn_sorted.
Qed.

(** ** [FAISSIndex]: id translation, ranking and batches *)

Section FAISSIndexFacts.
Context {F : FaissLib}.

Lemma translate_index_reported (m : gmap Z Z) (idx : Z) :
  reported_id m idx (translate_index m idx).
Proof.
  unfold reported_id, translate_index. case_bool_decide as Hlt.
  - left. split; [exact Hlt |].
    destruct (m !! (idx + 1)) as [v |] eqn:E; simpl; eauto.
  - right. split; [lia | reflexivity].
Qed.

Lemma translate_row_reported (m : gmap Z Z) (row : list Z) :
  Forall2 (reported_id m) row (translate_row m row).
Proof.
  unfold translate_row. induction row as [| idx row IH]; simpl.
  - constructor.
  - constructor; [apply translate_index_reported | exact IH].
Qed.

Lemma batch_rows_ok (m : gmap Z Z) (I : list (list Z)) (S : list (list Q)) :
  length S = length I ->
  batch_rows m I S =
  Ok (zip_with (fun irow srow => (translate_row m irow, srow)) I S).
Proof.
  revert S. induction I as [| irow I IH]; intros [| srow S] Hlen;
    simpl in *; try discriminate; [reflexivity |].
  injection Hlen as Hlen. by rewrite (IH S Hlen).
Qed.

Lemma create_index_item_mapping (self : FAISSIndex F) (embeddings : list Vector)
    (m : gmap Z Z) :
  item_mapping (snd (create_index self embeddings m)) = m /\
  reverse_item_mapping (snd (create_index self embeddings m)) = reverse_mapping m.
Proof.
  unfold create_index, add_embeddings. simpl.
  repeat (match goal with
          | |- context [if ?b then _ else _] => destruct b
          | |- context [match ?r with Ok _ => _ | Raise _ => _ end] => destruct r
          | |- context [match ?o with Some _ => _ | None => _ end] => destruct o
          end; simpl); auto.
Qed.

End FAISSIndexFacts.

(** C10.  On a built index, whenever the library answers the query,
    [search] returns (it does not raise), with one id per internal index
    of the library's row and each id the one [reported_id] describes: the
    mapping's value under [idx + 1] or else [idx + 1] for [idx] below the
    size of the mapping, and [-1] for [idx] at or beyond it.  The same
    holds for every row returned by [batch_search]. *)
Theorem search_reports_ids {F : FaissLib} {FC : FaissSearchContract F}
    (self : FAISSIndex F) (ix : Index) (qs : list Vector) (k : Z)
    (S : list (list Q)) (I : list (list Z)) :
  index self = Some ix ->
  index_search ix qs k = Ok (S, I) ->
  (forall q, qs = [q] ->
     exists ids scores irow,
       search self q k = Ok (ids, scores) /\ I = [irow] /\ S = [scores] /\
       Forall2 (reported_id (item_mapping self)) irow ids /\
       (forall (j : nat) idx, irow !! j = Some idx ->
          Z.of_nat (size (item_mapping self)) <= idx -> ids !! j = Some (-1))) /\
  exists rows,
    batch_search self qs k = Ok rows /\ length rows = length qs /\
    forall (i : nat) irow, I !! i = Some irow ->
      exists ids scores,
        rows !! i = Some (ids, scores) /\ S !! i = Some scores /\
        Forall2 (reported_id (item_mapping self)) irow ids.
Proof.
  intros Hix Hs.
  destruct (search_shape _ _ _ _ _ Hs) as (HlS & HlI & _ & _).
  split.
  - intros q ->. simpl in HlS, HlI.
    destruct S as [| srow [| ? ?]]; try discriminate.
    destruct I as [| irow [| ? ?]]; try discriminate.
    exists (translate_row (item_mapping self) irow), srow, irow.
    unfold search. rewrite Hix, Hs. repeat split.
    + apply translate_row_reported.
    + intros j idx Hj Hge. unfold translate_row.
      rewrite list_lookup_fmap, Hj. simpl. unfold translate_index.
      rewrite bool_decide_eq_false_2; [reflexivity | lia].
  - exists (zip_with (fun irow srow => (translate_row (item_mapping self) irow, srow)) I S).
    unfold batch_search. rewrite Hix, Hs.
    split; [apply batch_rows_ok; congruence |].
    split; [rewrite length_zip_with; lia |].
    intros i irow Hi.
    destruct (lookup_lt_is_Some_2 S i) as [srow Hsrow].
    { rewrite HlS, <- HlI. by apply lookup_lt_Some in Hi. }
    exists (translate_row (item_mapping self) irow), srow.
    split; [| split; [exact Hsrow | apply translate_row_reported]].
    rewrite lookup_zip_with, Hi. simpl. by rewrite Hsrow.
Qed.

Lemma search_reports_ids_witness :
  exists ids scores irow,
    search Samples.short_mapping_index [1%Q; 0%Q] 3 = Ok (ids, scores) /\
    ids = [-1; 20; 10] /\ irow = [2; 0; 1] /\
    Forall2 (reported_id (item_mapping Samples.short_mapping_index)) irow ids.
Proof.
  destruct (search_reports_ids (FC := ref_faiss_contract)
              Samples.short_mapping_index
              (Samples.flat_of [[1%Q; 0%Q]; [0%Q; 1%Q]; [1%Q; 1%Q]])
              [[1%Q; 0%Q]] 3 [[1%Q; 1%Q; 0%Q]] [[2; 0; 1]]
              eq_refl eq_refl) as [Hone _].
  destruct (Hone [1%Q; 0%Q] eq_refl) as (ids & scores & irow & Hs & HI & _ & Hrep & _).
  exists ids, scores, irow. split; [exact Hs |].
  vm_compute in Hs. injection Hs as <- _. injection HI as <-.
  split; [reflexivity | split; [reflexivity | exact Hrep]].
Defined.

Lemma search_uninitialised {F : FaissLib} (self : FAISSIndex F)
    (q : Vector) (qs : list Vector) (k : Z) :
  index self = None ->
  search self q k = Raise not_initialised /\
  batch_search self qs k = Raise not_initialised.
Proof. intros H. unfold search, batch_search. by rewrite H. Qed.

(** C7.  For a library whose search treats each query row on its own,
    [batch_search] returns one result per query, in the order of the
    queries, and its [i]-th result is what [search] returns for the
    [i]-th query alone on the same index. *)
Theorem batch_search_is_search_per_query {F : FaissLib}
    {FC : FaissSearchContract F} (self : FAISSIndex F)
    (qs : list Vector) (k : Z) (rows : list (list Z * list Q)) :
  batch_search self qs k = Ok rows ->
  length rows = length qs /\
  forall (i : nat) (q : Vector), qs !! i = Some q ->
    exists r, rows !! i = Some r /\ search self q k = Ok r.
Proof.
  unfold batch_search. destruct (index self) as [ix |] eqn:Hix; [| discriminate].
  destruct (index_search ix qs k) as [[S I] | e] eqn:Hs; [| discriminate].
  destruct (search_shape _ _ _ _ _ Hs) as (HlS & HlI & _ & _).
  rewrite batch_rows_ok by congruence. intros [= <-].
  split; [rewrite length_zip_with; lia |].
  intros i q Hq.
  destruct (search_rowwise _ _ _ _ _ _ _ Hs Hq) as (srow & irow & HS & HI & Hone).
  exists (translate_row (item_mapping self) irow, srow). split.
  - rewrite lookup_zip_with, HI. simpl. by rewrite HS.
  - unfold search. by rewrite Hix, Hone.
Qed.

Lemma batch_search_is_search_per_query_witness :
  batch_search Samples.twin_index [[1%Q; 0%Q]; [0%Q; 1%Q]] 2
    = Ok [([10; 20], [1%Q; 1%Q]); ([10; 20], [0%Q; 0%Q])] /\
  search Samples.twin_index [0%Q; 1%Q] 2 = Ok ([10; 20], [0%Q; 0%Q]).
Proof.
  split; [reflexivity |].
  destruct (batch_search_is_search_per_query (FC := ref_faiss_contract)
              Samples.twin_index [[1%Q; 0%Q]; [0%Q; 1%Q]] 2
              [([10; 20], [1%Q; 1%Q]); ([10; 20], [0%Q; 0%Q])] eq_refl)
    as [_ Hrow].
  destruct (Hrow 1%nat [0%Q; 1%Q] eq_refl) as (r & Hr & Hs).
  injection Hr as <-. exact Hs.
Defined.

(** A flat index built by [create_index] is an inner-product index. *)
Lemma create_index_flat {F : FaissLib} (self : FAISSIndex F)
    (embeddings : list Vector) (m : gmap Z Z) :
  index_type self = "flat" ->
  fst (create_index self embeddings m) = Ok tt ->
  exists ix, index (snd (create_index self embeddings m)) = Some ix /\
             flat_inner_product ix.
Proof.
  intros Ht. unfold create_index, add_embeddings. simpl. rewrite Ht. simpl.
  destruct (IndexFlatIP (embedding_dim self)) as [ix0 | e] eqn:H0; simpl;
    [| discriminate].
  destruct (index_add ix0 embeddings) as [ix1 | e] eqn:H1; simpl;
    [| discriminate].
  intros _. exists ix1. split; [reflexivity |].
  eapply flat_filled; [eapply flat_new |]; eassumption.
Qed.

(** Whatever order the library gives to results of equal score, the
    wrapper keeps it: two tied results whose internal indices the
    mapping sends to descending ids come out with descending ids. *)
Lemma search_keeps_library_order_on_ties {F : FaissLib} (self : FAISSIndex F)
    (ix : Index) (q : Vector) (k : Z) (srow : list Q) (irow : list Z)
    (S : list (list Q)) (I : list (list Z))
    (i j : nat) (a b x y : Z) (s t : Q) :
  index self = Some ix ->
  index_search ix [q] k = Ok (srow :: S, irow :: I) ->
  (i < j)%nat -> irow !! i = Some a -> irow !! j = Some b ->
  srow !! i = Some s -> srow !! j = Some t -> (s == t)%Q ->
  a < Z.of_nat (size (item_mapping self)) ->
  b < Z.of_nat (size (item_mapping self)) ->
  item_mapping self !! (a + 1) = Some x ->
  item_mapping self !! (b + 1) = Some y ->
  y < x ->
  exists ids, search self q k = Ok (ids, srow) /\ ~ ties_by_ascending_id ids srow.
Proof.
  intros Hix Hs Hij Ha Hb Hsi Htj Hst Hla Hlb Hx Hy Hyx.
  exists (translate_row (item_mapping self) irow).
  unfold search. rewrite Hix, Hs. split; [reflexivity |].
  intros Hties.
  assert (x <= y) as Hle; [| lia].
  apply (Hties i j x y s t Hij); try assumption.
  - unfold translate_row. rewrite list_lookup_fmap, Ha. simpl.
    unfold translate_index. rewrite bool_decide_eq_true_2 by exact Hla.
    by rewrite Hx.
  - unfold translate_row. rewrite list_lookup_fmap, Hb. simpl.
    unfold translate_index. rewrite bool_decide_eq_true_2 by exact Hlb.
    by rewrite Hy.
Qed.

(** C8, as the code has it.  [create_index] has no guard for an empty
    corpus: on a flat index, when the library accepts the empty [add],
    the call with no embeddings returns normally, and the object then
    holds the new item mapping and a new index built from nothing; the
    index and the mapping it held before are gone. *)
Theorem create_index_empty_flat {F : FaissLib} (self : FAISSIndex F)
    (m : gmap Z Z) (ix0 ix1 : Index) :
  index_type self = "flat" ->
  IndexFlatIP (embedding_dim self) = Ok ix0 ->
  index_add ix0 [] = Ok ix1 ->
  create_index self [] m =
  (Ok tt, {| embedding_dim := embedding_dim self; index_type := index_type self;
             index := Some ix1; item_mapping := m;
             reverse_item_mapping := reverse_mapping m |}).
Proof.
  intros Ht H0 H1. unfold create_index, add_embeddings, set_index, set_mappings.
  simpl. rewrite Ht. simpl. rewrite H0. simpl. rewrite H1. reflexivity.
Qed.

Lemma create_index_empty_flat_witness :
  create_index Samples.twin_index [] ∅ = (Ok tt, Samples.rebuilt_empty).
Proof.
  exact (create_index_empty_flat Samples.twin_index ∅
           Samples.empty_flat Samples.empty_flat eq_refl eq_refl eq_refl).
Defined.

(** C8 as stated fails: rebuilding a two-vector flat index from an empty
    array raises nothing, and a search that found id 10 before the call
    finds only the padding entry after it. *)
Lemma create_index_empty_not_refused :
  fst (create_index Samples.twin_index [] ∅) = Ok tt /\
  search Samples.twin_index [1%Q; 0%Q] 1 = Ok ([10], [1%Q]) /\
  search (snd (create_index Samples.twin_index [] ∅)) [1%Q; 0%Q] 1
    = Ok ([0], [RefFaiss.neg_flt_max]).
Proof. repeat split. Qed.

(** ** [api.py]: invalidation of the user embedding cache *)

Section ApiFacts.
Variable linalg_norm : Vector -> Q.
Variable drawn_sequence : Z -> list Z.

Lemma get_user_embedding_hit (cache : gmap Z Vector) (user_id : Z) (v : Vector) :
  cache !! user_id = Some v ->
  Api.get_user_embedding linalg_norm drawn_sequence cache user_id
    = Ret (v, cache).
Proof. intros H. unfold Api.get_user_embedding. by rewrite H. Qed.

Lemma update_user_cache (cache : gmap Z Vector) (request : Api.UserUpdateRequest) :
  snd (fst (Api.update_user cache request)) = delete (Api.user_id request) cache.
Proof.
  unfold Api.update_user. simpl.
  destruct (cache !! Api.user_id request) eqn:E; [reflexivity |].
  symmetry. by apply delete_id.
Qed.

(** C3, as the code has it.  [update_user] removes the user's entry from
    the cache and leaves every other entry alone; the background task it
    schedules finds nothing more to remove; and the next
    [get_user_embedding] for that user does not answer from the cache:
    for a user id that NumPy accepts as a seed it starts by calling the
    model on the user's sequence, and for any other id it raises the
    seed's [ValueError] without calling anything. *)
Theorem update_user_drops_entry {W : Type} (h : Handler W) (w : W)
    (cache : gmap Z Vector) (request : Api.UserUpdateRequest) :
  let uid := Api.user_id request in
  let cache' := snd (fst (Api.update_user cache request)) in
  let again := run h (Api.get_user_embedding linalg_norm drawn_sequence cache' uid) w in
  cache' !! uid = None /\
  (forall u, u <> uid -> cache' !! u = cache !! u) /\
  snd (Api.update_user cache request) = [uid] /\
  Api.recalculate_user_embedding cache' uid = cache' /\
  (Api.seed_accepted uid ->
   exists answer rest,
     calls again = Called (ModelForward (drawn_sequence uid)) answer :: rest) /\
  (~ Api.seed_accepted uid ->
   result again = Raise Api.seed_error /\ calls again = []).
Proof.
  intros uid cache' again. subst again cache'. rewrite update_user_cache. fold uid.
  assert (Hnone : delete uid cache !! uid = None) by apply lookup_delete_eq.
  split; [exact Hnone |]. split; [intros u Hu; by apply lookup_delete_ne |].
  split; [reflexivity |].
  split; [unfold Api.recalculate_user_embedding; by rewrite Hnone |].
  unfold Api.get_user_embedding, Api.generate_user_sequence. rewrite Hnone. split.
  - intros Hseed. rewrite bool_decide_eq_true_2 by exact Hseed. simpl.
    destruct (h Vector (ModelForward (drawn_sequence uid)) w) as [r w'] eqn:E.
    eexists r, _. reflexivity.
  - intros Hseed. rewrite bool_decide_eq_false_2 by exact Hseed. simpl. done.
Qed.

End ApiFacts.

Lemma update_user_drops_entry_witness :
  let cache' := snd (fst (Api.update_user Samples.cache_with_7 Samples.rating_by_7)) in
  Samples.cache_with_7 !! 7 = Some [1%Q; 0%Q] /\
  cache' !! 7 = None /\
  (8 <> 7 -> cache' !! 8 = Samples.cache_with_7 !! 8).
Proof.
  destruct (update_user_drops_entry (fun _ => 1%Q) (fun _ => [5; 3])
              RefWorld.handler Samples.empty_movies
              Samples.cache_with_7 Samples.rating_by_7)
    as (Hgone & Hother & _).
  split; [reflexivity |]. split; [exact Hgone | exact (Hother 8)].
Defined.

(** C3 as stated fails: when user 7 has a cached embedding, the lookup
    after the rating update misses only because the entry was removed;
    the stored entries are not what they were. *)
Lemma stale_entry_is_removed :
  ~ misses_with_entries_kept Samples.cache_with_7 Samples.rating_by_7.
Proof.
  intros [_ H].
  apply (f_equal (fun c : gmap Z Vector => c !! 7)) in H.
  vm_compute in H. discriminate H.
Qed.

(** ** [update_user_rating]: the write comes before the invalidation *)

Section RatingUpdateFacts.
Context {W : Type} (h : Handler W).

(** The calls of a rating update, in order: the clock, the write, and
    only after a successful write the deletion of the cached sequence. *)
Lemma update_user_calls (request : ApiVectorial.UserUpdateRequest) (w : W) :
  let o := run h (ApiVectorial.update_user request) w in
  let uid := ApiVectorial.upd_user_id request in
  let mid := ApiVectorial.upd_movie_id request in
  let r := ApiVectorial.upd_rating request in
  (exists e, calls o = [Called TimeNow (Raise e)] /\
             result o = Raise (HTTPException 500 ("Error interno: " +:+ exn_str e))) \/
  (exists t e, calls o = [Called TimeNow (Ok t);
                          Called (RatingsUpdateOne uid mid r t) (Raise e)] /\
               result o = Raise (HTTPException 500 ("Error interno: " +:+ exn_str e))) \/
  (exists t a, calls o = [Called TimeNow (Ok t);
                          Called (RatingsUpdateOne uid mid r t) (Ok tt);
                          Called (RedisDelete (user_sequence_key uid)) a]).
Proof.
  unfold ApiVectorial.update_user, update_user_rating, call. simpl.
  destruct (h Z TimeNow w) as [[t | e] w1]; simpl.
  - destruct (h unit (RatingsUpdateOne _ _ _ t) w1) as [[[] | e] w2]; simpl.
    + destruct (h unit (RedisDelete _) w2) as [[[] | e] w3]; simpl;
        right; right; eauto.
    + right; left. eauto.
  - left. eauto.
Qed.

(** C9.  In a run of [update_user] whose rating-store write raises, no
    Redis operation is issued at all, so the cached sequence of the user
    is what it was, and the request fails; a deletion of the cached
    sequence appears in a run only after a write that succeeded. *)
Theorem failed_write_leaves_cache (request : ApiVectorial.UserUpdateRequest) (w : W) :
  let o := run h (ApiVectorial.update_user request) w in
  (existsb is_failed_write (calls o) = true ->
   existsb is_redis_call (calls o) = false /\
   exists detail, result o = Raise (HTTPException 500 detail)) /\
  (existsb is_redis_call (calls o) = true ->
   exists before a,
     calls o = before ++ [Called (RedisDelete
                            (user_sequence_key (ApiVectorial.upd_user_id request))) a] /\
     existsb is_successful_write before = true).
Proof.
  intros o. subst o.
  destruct (update_user_calls request w)
    as [(e & -> & Hr) | [(t & e & -> & Hr) | (t & a & ->)]]; simpl; split.
  - discriminate.
  - discriminate.
  - intros _. split; [reflexivity | eauto].
  - discriminate.
  - discriminate.
  - intros _. eexists [_; _], a. split; reflexivity.
Qed.

End RatingUpdateFacts.

Lemma failed_write_leaves_cache_witness :
  let o := run RefWorld.handler
             (ApiVectorial.update_user Samples.rating_request)
             Samples.mongo_down in
  existsb is_failed_write (calls o) = true /\
  existsb is_redis_call (calls o) = false /\
  RefWorld.redis (world o) = RefWorld.redis Samples.mongo_down.
Proof.
  split; [reflexivity |].
  split; [| reflexivity].
  exact (proj1 (proj1 (failed_write_leaves_cache RefWorld.handler
                         Samples.rating_request Samples.mongo_down)
                  eq_refl)).
Defined.

(** ** Inversion of runs *)

Section RunInversion.
Context {W : Type} (h : Handler W).

Lemma run_bind_Ok {A B : Type} (m : Prog A) (f : A -> Prog B) (w : W) (b : B) :
  result (run h (bind m f) w) = Ok b ->
  exists a, result (run h m w) = Ok a /\
            result (run h (f a) (world (run h m w))) = Ok b.
Proof.
  rewrite run_bind. destruct (result (run h m w)) as [a | e]; simpl.
  - eauto.
  - discriminate.
Qed.

Lemma run_try_except_Ok {A : Type} (m : Prog A) (hd : Exn -> Prog A) (w : W) (a : A) :
  (forall e w', result (run h (hd e) w') <> Ok a) ->
  result (run h (try_except m hd) w) = Ok a ->
  result (run h m w) = Ok a.
Proof.
  intros Hhd. rewrite run_try_except.
  destruct (result (run h m w)) as [x | e]; simpl; [done |].
  intros H. by apply Hhd in H.
Qed.

Lemma run_bind_Ok_calls {A B : Type} (m : Prog A) (f : A -> Prog B) (w : W) (b : B) :
  result (run h (bind m f) w) = Ok b ->
  exists a, result (run h m w) = Ok a /\
            result (run h (f a) (world (run h m w))) = Ok b /\
            calls (run h (bind m f) w)
            = calls (run h m w) ++ calls (run h (f a) (world (run h m w))).
Proof.
  rewrite run_bind. destruct (result (run h m w)) as [a | e]; simpl.
  - eauto.
  - discriminate.
Qed.

Lemma run_try_except_Ok_calls {A : Type} (m : Prog A) (hd : Exn -> Prog A) (w : W)
    (a : A) :
  (forall e w', result (run h (hd e) w') <> Ok a) ->
  result (run h (try_except m hd) w) = Ok a ->
  result (run h m w) = Ok a /\
  calls (run h (try_except m hd) w) = calls (run h m w).
Proof.
  intros Hhd. rewrite run_try_except.
  destruct (result (run h m w)) as [x | e]; simpl; [done |].
  intros H. by apply Hhd in H.
Qed.

Lemma filter_none {X : Type} (f : X -> bool) (l : list X) :
  existsb f l = false -> List.filter f l = [].
Proof.
  induction l as [| x l IH]; [done |]. simpl.
  destruct (f x); [done |]. exact IH.
Qed.

Lemma run_try_except_total {A : Type} (m : Prog A) (a : A) (w : W) :
  result (run h (try_except m (fun _ => Ret a)) w)
  = Ok (match result (run h m w) with Ok x => x | Raise _ => a end).
Proof.
  rewrite run_try_except. destruct (result (run h m w)); reflexivity.
Qed.

End RunInversion.

(** ** [database.py]: what the lookups can do *)

Section DatabaseFacts.
Context {C : Codec} {W : Type} (h : Handler W).

Lemma get_user_sequence_returns (user_id : Z) (w : W) :
  result (run h (get_user_sequence user_id) w) = Ok (user_history h w user_id).
Proof.
  unfold user_history, get_user_sequence. rewrite run_try_except_total.
  reflexivity.
Qed.

Lemma get_movie_metadata_returns (movie_id : Value) (w : W) :
  exists md, result (run h (get_movie_metadata movie_id) w) = Ok md.
Proof.
  unfold get_movie_metadata. rewrite run_try_except_total. eauto.
Qed.

(** [get_user_sequence] talks to Redis and MongoDB only. *)
Lemma get_user_sequence_calls (user_id : Z) (w : W) :
  existsb is_model_call (calls (run h (get_user_sequence user_id) w)) = false /\
  existsb is_search_call (calls (run h (get_user_sequence user_id) w)) = false.
Proof.
  unfold get_user_sequence, call. simpl.
  destruct (h _ (RedisGet _) w) as [[cached | e] w1]; simpl; [| done].
  destruct (cached_text cached) as [text |]; simpl.
  - destruct (json_loads_sequence text); done.
  - destruct (h _ (RatingsFindOne _) w1) as [[[d |] | e] w2]; simpl; [| done | done].
    destruct (h _ (RatingsFindSorted _) w2) as [[docs | e] w3]; simpl; [| done].
    destruct (h _ (RedisSetex _ _ _) w3) as [[[] | e] w4]; done.
Qed.

End DatabaseFacts.

(** ** [recommend]: seen movies are removed *)

Lemma not_seen_outside (seen : list Z) (similar kept : list Dict) :
  ApiVectorial.not_seen seen similar = Ok kept ->
  Forall (outside_history seen) kept /\ sublist kept similar.
Proof.
  revert kept. induction similar as [| movie rest IH]; intros kept; simpl.
  - intros [= <-]. split; constructor.
  - unfold dict_index. destruct (movie !! "movie_id") as [v |] eqn:Hid; [| discriminate].
    simpl. destruct (in_int_set v seen) as [b |] eqn:Hin; [| discriminate].
    simpl. destruct (ApiVectorial.not_seen seen rest) as [kept' |]; [| discriminate].
    simpl. destruct (IH kept' eq_refl) as [Hout Hsub].
    destruct b; intros [= <-].
    + split; [exact Hout | by apply sublist_cons].
    + split; [| by apply sublist_skip].
      constructor; [| exact Hout]. exists v. auto.
Qed.

Lemma slice_to_Forall {A : Type} (P : A -> Prop) (k : Z) (l : list A) :
  Forall P l -> Forall P (ApiVectorial.slice_to k l).
Proof.
  intros H. unfold ApiVectorial.slice_to. destruct (k <? 0); by apply Forall_take.
Qed.

Lemma slice_to_length {A : Type} (k : Z) (l : list A) :
  0 <= k -> Z.of_nat (length (ApiVectorial.slice_to k l)) <= k.
Proof.
  intros Hk. unfold ApiVectorial.slice_to.
  destruct (k <? 0) eqn:E; [apply Z.ltb_lt in E; lia |].
  rewrite length_take. lia.
Qed.

Lemma metadata_update_keeps_id (rec md : Dict) :
  dict_update rec (ApiVectorial.metadata_update md) !! "movie_id" = rec !! "movie_id".
Proof.
  unfold dict_update, ApiVectorial.metadata_update.
  apply lookup_union_r.
  rewrite !lookup_insert_ne by done. apply lookup_singleton_ne. done.
Qed.

Lemma in_int_set_int (n : Z) (seen : list Z) :
  in_int_set (VInt n) seen = Ok false -> n ∉ seen.
Proof.
  unfold in_int_set, VInt. simpl. intros [= H] Hin.
  apply list_elem_of_In in Hin.
  assert (existsb (fun m => Qeq_bool (inject_Z n) (inject_Z m)) seen = true) as Ht.
  { apply existsb_exists. exists n. split; [exact Hin |].
    apply Qeq_bool_iff. reflexivity. }
  congruence.
Qed.

Section RecommendResults.
Context {C : Codec} {W : Type} (h : Handler W).

(** The enrichment loop keeps the number of recommendations and the id
    of each. *)
Lemma enrich_keeps_ids (recs recs' : list Dict) (w : W) :
  result (run h (ApiVectorial.enrich recs) w) = Ok recs' ->
  Forall2 same_movie_id recs recs'.
Proof.
  revert recs' w. induction recs as [| rec rest IH]; intros recs' w.
  - intros [= <-]. constructor.
  - intros H. cbn [ApiVectorial.enrich] in H.
    apply run_bind_Ok in H as (movie_id & _ & H).
    apply run_bind_Ok in H as (md & _ & H).
    apply run_bind_Ok in H as (rest' & Hrest & H).
    simpl in H. injection H as <-.
    constructor; [| by eapply IH].
    unfold same_movie_id.
    destruct md as [d |]; [| reflexivity].
    case_bool_decide; [reflexivity | apply metadata_update_keeps_id].
Qed.

Lemma reraise_http_raises {A : Type} (e : Exn) (w : W) (a : A) :
  result (run h (ApiVectorial.reraise_http e) w) <> Ok a.
Proof. destruct e; discriminate. Qed.

End RecommendResults.

(** ** [search_similar]: the filter handed to the engine *)

Lemma range_bound_number (v : option Value) (b : option Q) :
  range_bound v = Ok b -> number_of v = b.
Proof.
  destruct v as [[| [] |] |]; simpl; intros H; try discriminate;
    by injection H as <-.
Qed.

Lemma genre_conditions_matches (filters payload : Dict) (cs : list Condition) :
  genre_conditions filters = Ok cs ->
  forallb (condition_matches payload) cs = genre_ok filters payload.
Proof.
  unfold genre_conditions, genre_ok.
  destruct (filters !! "genres") as [[| [] |] |]; simpl; intros H;
    try discriminate; injection H as <-; simpl;
    try apply Bool.andb_true_r; reflexivity.
Qed.

Lemma year_conditions_matches (filters payload : Dict) (cs : list Condition) :
  year_conditions filters = Ok cs ->
  forallb (condition_matches payload) cs = year_ok filters payload.
Proof.
  unfold year_conditions, year_ok.
  destruct (filters !! "year_min") as [lo |], (filters !! "year_max") as [hi |];
    (case_bool_decide as Hk;
     [| try (exfalso; apply Hk; eauto; fail); try by intros [= <-]]);
    try (destruct Hk as [[? ?] | [? ?]]; discriminate).
  - destruct (range_bound (Some lo)) as [gte |] eqn:Hlo; [| discriminate].
    destruct (range_bound (Some hi)) as [lte |] eqn:Hhi; [| discriminate].
    apply range_bound_number in Hlo, Hhi. rewrite Hlo, Hhi.
    simpl. intros [= <-]. simpl. apply Bool.andb_true_r.
  - destruct (range_bound (Some lo)) as [gte |] eqn:Hlo; [| discriminate].
    apply range_bound_number in Hlo. rewrite Hlo.
    simpl. intros [= <-]. simpl. apply Bool.andb_true_r.
  - destruct (range_bound (Some hi)) as [lte |] eqn:Hhi; [| discriminate].
    apply range_bound_number in Hhi. rewrite Hhi.
    simpl. intros [= <-]. simpl. apply Bool.andb_true_r.
Qed.

Lemma rating_conditions_matches (filters payload : Dict) (cs : list Condition) :
  rating_conditions filters = Ok cs ->
  forallb (condition_matches payload) cs = rating_ok filters payload.
Proof.
  unfold rating_conditions, rating_ok.
  destruct (filters !! "rating_min") as [v |]; [| by intros [= <-]].
  destruct (range_bound (Some v)) as [gte |] eqn:Hlo; [| discriminate].
  apply range_bound_number in Hlo. rewrite Hlo.
  simpl. intros [= <-]. simpl. apply Bool.andb_true_r.
Qed.

(** The filter that [search_similar] builds holds of a payload exactly
    when the payload satisfies the request's filters. *)
Lemma build_filter_matches (filters : option Dict) (flt : option Filter)
    (payload : Dict) :
  build_filter filters = Ok flt ->
  filter_matches payload flt = satisfies filters payload.
Proof.
  unfold build_filter, satisfies. destruct filters as [f |]; [| by intros [= <-]].
  case_bool_decide as He.
  - intros [= <-]. subst f. reflexivity.
  - destruct (genre_conditions f) as [c1 |] eqn:H1; [| discriminate].
    destruct (year_conditions f) as [c2 |] eqn:H2; [| discriminate].
    destruct (rating_conditions f) as [c3 |] eqn:H3; [| discriminate].
    simpl. intros H.
    rewrite <- (genre_conditions_matches f payload c1 H1),
            <- (year_conditions_matches f payload c2 H2),
            <- (rating_conditions_matches f payload c3 H3).
    rewrite <- Bool.andb_assoc, <- !forallb_app.
    destruct (c1 ++ c2 ++ c3) eqn:Hc; injection H as <-; reflexivity.
Qed.

(** A request that refers to a field is not satisfied by a payload
    without that field. *)
Lemma satisfies_absent_field (f payload : Dict) (field : string) :
  refers_to f field -> payload !! field = None ->
  satisfies (Some f) payload = false.
Proof.
  unfold satisfies, refers_to.
  intros [[-> [v Hv]] | [[-> Hy] | [-> [v Hv]]]] Hnone.
  - unfold genre_ok. rewrite Hv. simpl. rewrite Hnone.
    destruct v as [| g |]; reflexivity.
  - assert (year_ok f payload = false) as ->;
      [| by rewrite Bool.andb_false_r].
    unfold year_ok. simpl. rewrite Hnone.
    destruct (f !! "year_min"), (f !! "year_max"); try reflexivity.
    destruct Hy as [[? ?] | [? ?]]; discriminate.
  - assert (rating_ok f payload = false) as ->; [| apply Bool.andb_false_r].
    unfold rating_ok. rewrite Hv. simpl. by rewrite Hnone.
Qed.

Lemma matches_absent_field (payload : Dict) (e : FilterExpr) (field : string) :
  expr_field e = Some field -> payload !! field = None -> matches payload e = false.
Proof.
  destruct e; simpl; intros [= ->] Hnone; try by rewrite Hnone.
Qed.

Section SearchSimilarFacts.
Context {W : Type} (h : Handler W).

Lemma search_similar_Ok (self : QdrantService) (q : Vector) (k : Z)
    (filters : option Dict) (w : W) (results : list Dict) :
  result (run h (search_similar self q k filters) w) = Ok results ->
  exists flt points w',
    build_filter filters = Ok flt /\
    h _ (QdrantSearch (collection_name self) q k flt) w = (Ok points, w') /\
    results = format_result <$> points.
Proof.
  unfold search_similar. intros H.
  apply run_bind_Ok in H as (flt & Hflt & H).
  rewrite run_lift in Hflt, H. simpl in Hflt, H.
  destruct (h _ (QdrantSearch (collection_name self) q k flt) w)
    as [[points | e] w'] eqn:Hcall; simpl in H; [| discriminate].
  injection H as <-. exists flt, points, w'. auto.
Qed.

End SearchSimilarFacts.

(** ** The reference engine keeps the engine contract *)

Lemma points_of_ids (coll : gmap Z (Vector * Dict)) :
  NoDup (ps_id <$> RefWorld.points_of coll).
Proof.
  unfold RefWorld.points_of. rewrite <- list_fmap_compose.
  apply NoDup_fst_map_to_list.
Qed.

Lemma search_points_spec (ps : list PointStruct) (q : Vector) (limit : Z)
    (flt : option Filter) :
  NoDup (ps_id <$> ps) ->
  let results := RefWorld.search_points ps q limit flt in
  Z.of_nat (length results) <= Z.max 0 limit /\
  NoDup (sp_id <$> results) /\
  Forall (fun r => exists p, p ∈ ps /\ ps_id p = sp_id r /\
                             ps_payload p = sp_payload r /\
                             filter_matches (ps_payload p) flt = true) results /\
  non_increasing (sp_score <$> results).
Proof.
  intros Hnd results. subst results. unfold RefWorld.search_points.
  set (kept := filter (fun p => filter_matches (ps_payload p) flt = true) ps).
  set (ranked := rank sp_score (RefWorld.scored_point q <$> kept)).
  assert (Hperm : ranked ≡ₚ RefWorld.scored_point q <$> kept) by apply rank_perm.
  repeat split.
  - rewrite length_take. lia.
  - apply (sublist_NoDup _ (sp_id <$> ranked)).
    + rewrite Hperm, <- list_fmap_compose.
      apply (sublist_NoDup _ (ps_id <$> ps)); [exact Hnd |].
      apply fmap_sublist, sublist_filter.
    + apply fmap_sublist, sublist_take.
  - apply Forall_forall. intros r Hr.
    apply subseteq_take in Hr. rewrite Hperm in Hr.
    apply list_elem_of_fmap in Hr as (p & -> & Hp).
    apply list_elem_of_filter in Hp as [Hm Hp].
    exists p. auto.
  - rewrite fmap_take. apply non_increasing_take, rank_sorted.
Qed.

Lemma ref_engine_contract : EngineContract RefWorld.handler RefWorld.stored.
Proof.
  split. intros coll q limit flt w results w'. simpl.
  destruct (RefWorld.collections w !! coll) eqn:E; [| discriminate].
  destruct (negb (1 <=? limit)); [discriminate |].
  destruct (RefWorld.has_size _ q); [| discriminate].
  intros [= <- <-].
  destruct (search_points_spec (RefWorld.stored w coll) q limit flt
              (points_of_ids _)) as (H1 & H2 & H3 & H4).
  repeat split; try assumption. apply points_of_ids.
Qed.

(** ** [search_similar]: filtered results *)

(** C5.  Over an engine that keeps its contract, every result of
    [search_similar] is the formatted payload of a stored point that
    satisfies the request's filters; there are no more results than
    stored points satisfying them (and no more than [k]), so a short
    set of matches is returned as it is; and a request that refers to a
    field is not satisfied by a payload without that field, the
    evaluation being a total boolean function. *)
Theorem search_similar_filtered {W : Type} (h : Handler W)
    (stored : W -> string -> list PointStruct) (EC : EngineContract h stored)
    (self : QdrantService) (q : Vector) (k : Z) (filters : option Dict) (w : W)
    (results : list Dict) :
  result (run h (search_similar self q k filters) w) = Ok results ->
  let matching :=
    filter (fun p => satisfies filters (ps_payload p) = true)
      (stored w (collection_name self)) in
  (exists points,
     results = format_result <$> points /\
     Forall (fun r => satisfies filters (sp_payload r) = true /\
                      exists p, p ∈ matching /\ ps_id p = sp_id r /\
                                ps_payload p = sp_payload r) points) /\
  (length results <= length matching)%nat /\
  Z.of_nat (length results) <= Z.max 0 k /\
  (forall f payload field,
     filters = Some f -> refers_to f field -> payload !! field = None ->
     satisfies filters payload = false).
Proof.
  intros H matching.
  apply search_similar_Ok in H as (flt & points & w' & Hflt & Hcall & ->).
  destruct (engine_search _ _ EC _ _ _ _ _ _ _ Hcall) as (Hlen & Hnd & Hst & Hall & _).
  assert (Hpoints :
    Forall (fun r => satisfies filters (sp_payload r) = true /\
                     exists p, p ∈ matching /\ ps_id p = sp_id r /\
                               ps_payload p = sp_payload r) points).
  { eapply Forall_impl; [exact Hall |]. simpl.
    intros r (p & Hp & Hid & Hpl & Hm).
    rewrite (build_filter_matches _ _ _ Hflt) in Hm.
    split; [by rewrite <- Hpl |].
    exists p. split; [| auto]. apply list_elem_of_filter. auto. }
  split; [exists points; auto |]. rewrite length_fmap.
  split; [| split; [exact Hlen |]].
  - rewrite <- (length_fmap sp_id points), <- (length_fmap ps_id matching).
    apply submseteq_length, NoDup_submseteq; [exact Hnd |].
    intros i Hi. apply list_elem_of_fmap in Hi as (r & -> & Hr).
    rewrite Forall_forall in Hpoints.
    destruct (Hpoints r Hr) as (_ & p & Hp & Hid & _).
    rewrite <- Hid. by apply list_elem_of_fmap_2.
  - intros f payload field -> Href Hnone. by eapply satisfies_absent_field.
Qed.

Lemma search_similar_filtered_witness :
  result (run RefWorld.handler
            (search_similar Samples.movies_service [1%Q; 0%Q] 5 Samples.from_2000)
            Samples.catalogue) = Ok Samples.similar_from_2000 /\
  (fun r => dict_get r "movie_id") <$> Samples.similar_from_2000 = [VInt 3] /\
  (length Samples.similar_from_2000 <=
   length (filter (fun p => satisfies Samples.from_2000 (ps_payload p) = true)
             (RefWorld.stored Samples.catalogue "movies")))%nat.
Proof.
  assert (H : result (run RefWorld.handler
                        (search_similar Samples.movies_service [1%Q; 0%Q] 5
                           Samples.from_2000)
                        Samples.catalogue) = Ok Samples.similar_from_2000)
    by (vm_compute; reflexivity).
  split; [exact H |]. split; [vm_compute; reflexivity |].
  exact (proj1 (proj2 (search_similar_filtered RefWorld.handler RefWorld.stored
                         ref_engine_contract Samples.movies_service [1%Q; 0%Q] 5
                         Samples.from_2000 Samples.catalogue
                         Samples.similar_from_2000 H))).
Defined.

(** The results of [search_similar] are at most [k] and come in the
    engine's order, by non-increasing score. *)
Lemma search_similar_ranked {W : Type} (h : Handler W)
    (stored : W -> string -> list PointStruct) (EC : EngineContract h stored)
    (self : QdrantService) (q : Vector) (k : Z) (filters : option Dict) (w : W)
    (results : list Dict) :
  result (run h (search_similar self q k filters) w) = Ok results ->
  Z.of_nat (length results) <= Z.max 0 k /\
  exists points,
    results = format_result <$> points /\
    non_increasing (sp_score <$> points) /\
    Forall2 (fun r p => r !! "score" = Some (VFloat (sp_score p))) results points.
Proof.
  intros H.
  apply search_similar_Ok in H as (flt & points & w' & _ & Hcall & ->).
  destruct (engine_search _ _ EC _ _ _ _ _ _ _ Hcall) as (Hlen & _ & _ & _ & Hs).
  rewrite length_fmap. split; [exact Hlen |].
  exists points. split; [reflexivity |]. split; [exact Hs |].
  apply Forall2_fmap_l, Forall_Forall2_diag, Forall_forall.
  intros p _. unfold compose, format_result.
  rewrite !lookup_insert_ne by done. apply lookup_singleton_eq.
Qed.

(** C2, as the code has it.  On a flat index built by [create_index],
    for a library that returns [k] columns and ranks inner products in
    non-increasing order, [search] returns exactly [k] ids (padding
    included) and [k] scores, the scores in non-increasing order; the ids
    are the translations of the library's internal indices in the
    library's order, so results of equal score are not reordered by id.
    [search_similar] returns at most [max 0 k] results, by non-increasing
    score in the engine's order. *)
Theorem search_ranked {F : FaissLib} {FC : FaissSearchContract F}
    {FR : FlatRanking F} {W : Type} (h : Handler W)
    (stored : W -> string -> list PointStruct) (EC : EngineContract h stored)
    (self : FAISSIndex F) (embeddings : list Vector) (m : gmap Z Z)
    (q : Vector) (k : Z) (ids : list Z) (scores : list Q)
    (qdrant : QdrantService) (filters : option Dict) (w : W)
    (results : list Dict) :
  let built := snd (create_index self embeddings m) in
  (index_type self = "flat" ->
   fst (create_index self embeddings m) = Ok tt ->
   search built q k = Ok (ids, scores) ->
   Z.of_nat (length ids) = k /\ Z.of_nat (length scores) = k /\
   non_increasing scores /\
   exists ix S I irow,
     index built = Some ix /\ index_search ix [q] k = Ok (S, I) /\
     I !! 0%nat = Some irow /\ S !! 0%nat = Some scores /\
     ids = translate_row m irow) /\
  (result (run h (search_similar qdrant q k filters) w) = Ok results ->
   Z.of_nat (length results) <= Z.max 0 k /\
   exists points,
     results = format_result <$> points /\
     non_increasing (sp_score <$> points) /\
     Forall2 (fun r p => r !! "score" = Some (VFloat (sp_score p))) results points).
Proof.
  intros built. split; [intros Ht Hbuilt Hsearch | intros Hsimilar].
  - destruct (create_index_flat self embeddings m Ht Hbuilt) as (ix & Hix & Hflat).
    pose proof (proj1 (create_index_item_mapping self embeddings m)) as Hm.
    fold built in Hix, Hm.
    revert Hsearch. unfold search. rewrite Hix, Hm.
    destruct (index_search ix [q] k) as [[S I] | e] eqn:Hs; [| discriminate].
    destruct I as [| irow I]; [discriminate |].
    destruct S as [| srow S]; [discriminate |].
    intros [= <- <-].
    destruct (search_shape _ _ _ _ _ Hs) as (_ & _ & HS & HI).
    pose proof (flat_sorted _ _ _ _ _ Hflat Hs) as Hsorted.
    apply Forall_cons in HS as [HS _]. apply Forall_cons in HI as [HI _].
    apply Forall_cons in Hsorted as [Hsorted _].
    unfold translate_row. rewrite length_fmap.
    repeat split; try assumption.
    exists ix, (srow :: S), (irow :: I), irow. auto.
  - exact (search_similar_ranked h stored EC qdrant q k filters w results Hsimilar).
Qed.

Lemma search_ranked_witness :
  search Samples.twin_index [1%Q; 0%Q] 2 = Ok ([10; 20], [1%Q; 1%Q]) /\
  Z.of_nat (length [10; 20]) = 2 /\ non_increasing [1%Q; 1%Q] /\
  Z.of_nat (length Samples.two_nearest) <= 2.
Proof.
  split; [reflexivity |].
  destruct (search_ranked (F := RefFaiss.lib) (FC := ref_faiss_contract)
              (FR := ref_flat_ranking)
              RefWorld.handler RefWorld.stored ref_engine_contract
              (FAISSIndex_init 2 "flat") [[1%Q; 0%Q]; [1%Q; 0%Q]]
              (list_to_map [(1, 20); (2, 10)]) [1%Q; 0%Q] 2
              [10; 20] [1%Q; 1%Q] Samples.movies_service None Samples.catalogue
              Samples.two_nearest)
    as [Hfaiss Hqdrant].
  destruct (Hfaiss eq_refl eq_refl eq_refl) as (Hl & _ & Hs & _).
  destruct Hqdrant as [Hk _]; [vm_compute; reflexivity |].
  split; [exact Hl |]. split; [exact Hs | exact Hk].
Defined.

(** C2 as stated fails, in two ways.  An HNSW index built by
    [create_index] measures L2 distance: for the query [(1, 0)] over the
    vectors [(1, 0)] and [(0, 1)], [search] returns the scores 0 and 2,
    in increasing order.  And no tie is broken by id: whichever of two
    stored vectors of equal score a library reports first, there is an
    item mapping of size 2 under which [search] returns the larger id
    first; the reference flat index does so on two copies of the query
    mapped to ids 10 and 20. *)
Lemma search_order_not_as_stated :
  (search Samples.hnsw_index [1%Q; 0%Q] 2 = Ok ([10; 20], [0%Q; 2%Q]) /\
   ~ non_increasing [0%Q; 2%Q]) /\
  (forall (F : FaissLib) (ix : Index) (q : Vector) (s : Q) (a b : Z)
          (S : list (list Q)) (I : list (list Z)),
     index_search ix [q] 2 = Ok ([s; s] :: S, [a; b] :: I) ->
     0 <= a < 2 -> 0 <= b < 2 -> a <> b ->
     exists (m : gmap Z Z) (ids : list Z),
       size m = 2%nat /\
       search {| embedding_dim := 2; index_type := "flat"; index := Some ix;
                 item_mapping := m; reverse_item_mapping := reverse_mapping m |}
              q 2 = Ok (ids, [s; s]) /\
       ~ ties_by_ascending_id ids [s; s]) /\
  search (F := RefFaiss.lib)
         (snd (create_index (FAISSIndex_init 2 "flat")
                 [[1%Q; 0%Q]; [1%Q; 0%Q]] (list_to_map [(1, 10); (2, 20)])))
         [1%Q; 0%Q] 2 = Ok ([20; 10], [1%Q; 1%Q]) /\
  ~ ties_by_ascending_id [20; 10] [1%Q; 1%Q].
Proof.
  split; [split; [reflexivity |] |].
  { simpl. intros [H _]. revert H. vm_compute. intros H. by apply H. }
  split.
  - intros F ix q s a b S I Hs Ha Hb Hab.
    set (m := ({[ a + 1 := 20; b + 1 := 10 ]} : gmap Z Z)).
    assert (Hsize : size m = 2%nat).
    { unfold m. rewrite map_size_insert_None, map_size_singleton; [reflexivity |].
      apply lookup_singleton_ne. lia. }
    exists m.
    destruct (search_keeps_library_order_on_ties
                {| embedding_dim := 2; index_type := "flat"; index := Some ix;
                   item_mapping := m; reverse_item_mapping := reverse_mapping m |}
                ix q 2 [s; s] [a; b] S I 0%nat 1%nat a b 20 10 s s)
      as (ids & Hids & Hties);
      [reflexivity | exact Hs | lia | reflexivity | reflexivity | reflexivity
      | reflexivity | reflexivity | | | | | lia |].
    + cbn [item_mapping]. rewrite Hsize. lia.
    + cbn [item_mapping]. rewrite Hsize. lia.
    + unfold m. apply lookup_insert_eq.
    + cbn [item_mapping]. unfold m. rewrite lookup_insert_ne by lia.
      apply lookup_singleton_eq.
    + exists ids. auto.
  - split; [reflexivity |].
    intros H. specialize (H 0%nat 1%nat 20 10 1%Q 1%Q).
    assert (20 <= 10) as Habs; [| lia].
    apply H; try reflexivity. lia.
Qed.

(** ** Insertion: vectors reach the engine as they were given *)

Lemma batches_fuel_concat {A : Type} (fuel n : nat) (l : list A) :
  (0 < n)%nat -> (length l <= fuel)%nat -> concat (batches_fuel fuel n l) = l.
Proof.
  intros Hn. revert l. induction fuel as [| fuel IH]; intros l Hl.
  - destruct l; [reflexivity | simpl in Hl; lia].
  - destruct l as [| x l]; [reflexivity |].
    change (batches_fuel (S fuel) n (x :: l))
      with (take n (x :: l) :: batches_fuel fuel n (drop n (x :: l))).
    simpl concat. rewrite IH; [apply take_drop |].
    rewrite length_drop. simpl in *. lia.
Qed.

Lemma batches_concat {A : Type} (n : nat) (l : list A) :
  (0 < n)%nat -> concat (batches n l) = l.
Proof. intros Hn. by apply batches_fuel_concat. Qed.

Lemma movie_points_vectors (i : Z) (embeddings : list Vector) (metadata : list Dict) :
  ps_vector <$> movie_points i embeddings metadata
  = take (length metadata) embeddings.
Proof.
  revert i metadata. induction embeddings as [| e embeddings IH];
    intros i [| m metadata]; simpl; try reflexivity.
  by rewrite IH.
Qed.

Section InsertionFacts.
Context {W : Type} (h : Handler W).

Lemma upsert_batches_sent (coll : string) (bs : list (list PointStruct)) (w : W) :
  let o := run h (upsert_batches coll bs) w in
  upserted_points (calls o) `prefix_of` concat bs /\
  (result o = Ok tt -> upserted_points (calls o) = concat bs).
Proof.
  revert w. induction bs as [| batch bs IH]; intros w; simpl.
  - split; [by exists [] | done].
  - unfold call. simpl.
    destruct (h unit (QdrantUpsert coll batch) w) as [[[] | e] w']; simpl.
    + destruct (IH w') as [Hp He]. unfold upserted_points in *. simpl.
      split; [by apply prefix_app | intros Hr; f_equal; exact (He Hr)].
    + unfold upserted_points. simpl. rewrite app_nil_r.
      split; [by apply prefix_app_r | discriminate].
Qed.

(** [insert_movies] and [save_user_embedding] hand every vector to the
    engine exactly as it was supplied; neither normalises or checks its
    length. *)
Lemma insertion_sends_vectors (self : QdrantService)
    (embeddings : list Vector) (metadata : list Dict)
    (user_id : Z) (embedding : Vector) (w : W) :
  let movies := run h (insert_movies self embeddings metadata) w in
  let user := run h (save_user_embedding self user_id embedding) w in
  (ps_vector <$> upserted_points (calls movies)) `prefix_of` embeddings /\
  (result movies = Ok tt ->
   ps_vector <$> upserted_points (calls movies)
   = take (length metadata) embeddings) /\
  Forall (fun p => ps_vector p = embedding /\ ps_id p = user_id)
    (upserted_points (calls user)) /\
  (result user = Ok tt ->
   ps_vector <$> upserted_points (calls user) = [embedding]) /\
  (Forall unit_norm embeddings ->
   Forall (fun p => unit_norm (ps_vector p)) (upserted_points (calls movies))).
Proof.
  intros movies user.
  destruct (upsert_batches_sent (collection_name self)
              (batches 100 (movie_points 0 embeddings metadata)) w) as [Hp He].
  rewrite batches_concat in Hp, He by lia.
  fold (insert_movies self embeddings metadata) in Hp, He. fold movies in Hp, He.
  assert (Hpre : (ps_vector <$> upserted_points (calls movies)) `prefix_of` embeddings).
  { destruct Hp as [rest Hp].
    exists ((ps_vector <$> rest) ++ drop (length metadata) embeddings).
    rewrite app_assoc, <- fmap_app, <- Hp, movie_points_vectors.
    symmetry. apply take_drop. }
  split; [exact Hpre |]. split.
  { intros Hr. rewrite (He Hr). apply movie_points_vectors. }
  split; [| split].
  - subst user. unfold save_user_embedding, call. simpl.
    destruct (h unit (QdrantGetCollection _) w) as [[[] | e] w1]; simpl.
    + destruct (h Z TimeNow w1) as [[t | e] w2]; simpl; [| constructor].
      destruct (h unit (QdrantUpsert _ _) w2) as [[[] | e] w3]; simpl;
        repeat constructor.
    + destruct (h unit (QdrantCreateCollection _ _) w1) as [[[] | e'] w2];
        simpl; [| constructor].
      destruct (h Z TimeNow w2) as [[t | e'] w3]; simpl; [| constructor].
      destruct (h unit (QdrantUpsert _ _) w3) as [[[] | e'] w4]; simpl;
        repeat constructor.
  - subst user. unfold save_user_embedding, call. simpl.
    destruct (h unit (QdrantGetCollection _) w) as [[[] | e] w1]; simpl.
    + destruct (h Z TimeNow w1) as [[t | e] w2]; simpl; [| discriminate].
      destruct (h unit (QdrantUpsert _ _) w2) as [[[] | e] w3]; simpl;
        [reflexivity | discriminate].
    + destruct (h unit (QdrantCreateCollection _ _) w1) as [[[] | e'] w2];
        simpl; [| discriminate].
      destruct (h Z TimeNow w2) as [[t | e'] w3]; simpl; [| discriminate].
      destruct (h unit (QdrantUpsert _ _) w3) as [[[] | e'] w4]; simpl;
        [reflexivity | discriminate].
  - intros Hunit. destruct Hpre as [rest Hpre]. rewrite Hpre in Hunit.
    apply Forall_app in Hunit as [Hunit _].
    rewrite Forall_fmap in Hunit. exact Hunit.
Qed.

End InsertionFacts.

(** ** The 404 of [recommend] means an empty history *)

Section RaisesOnly.
Context {W : Type} (h : Handler W) (Hserv : service_errors h).

Lemma raises_only_run {A : Type} (P : Exn -> Prop) (m : Prog A) (w : W) (e : Exn) :
  raises_only P m -> result (run h m w) = Raise e -> P e.
Proof.
  intros Hm. revert w. induction Hm as [a | e0 He0 | X ev k _ IHok _ IHraise];
    intros w; simpl.
  - discriminate.
  - by intros [= <-].
  - destruct (h X ev w) as [[x | e1] w'] eqn:Hans; simpl.
    + apply IHok.
    + apply IHraise. by eapply Hserv.
Qed.

Lemma raises_only_weaken {A : Type} (P Q : Exn -> Prop) (m : Prog A) :
  (forall e, P e -> Q e) -> raises_only P m -> raises_only Q m.
Proof. intros HPQ Hm. induction Hm; constructor; auto. Qed.

Lemma raises_only_bind {A B : Type} (P : Exn -> Prop) (m : Prog A) (f : A -> Prog B) :
  raises_only P m -> (forall a, raises_only P (f a)) -> raises_only P (bind m f).
Proof. intros Hm Hf. induction Hm; simpl; try constructor; auto. Qed.

Lemma raises_only_try_except {A : Type} (P Q : Exn -> Prop) (m : Prog A)
    (hd : Exn -> Prog A) :
  raises_only Q m -> (forall e, Q e -> raises_only P (hd e)) ->
  raises_only P (try_except m hd).
Proof. intros Hm Hhd. induction Hm; simpl; try constructor; auto. Qed.

Lemma raises_only_call {X : Type} (P : Exn -> Prop) (ev : Event X) :
  (forall e, is_http e = false -> P e) -> raises_only P (call ev).
Proof. intros HP. unfold call. constructor; intros; constructor; auto. Qed.

Lemma raises_only_lift {A : Type} (P : Exn -> Prop) (r : Result A) :
  (forall e, r = Raise e -> P e) -> raises_only P (lift r).
Proof. intros HP. destruct r; constructor; auto. Qed.

End RaisesOnly.

Lemma rbind_Raise {A B : Type} (r : Result A) (f : A -> Result B) (e : Exn) :
  rbind r f = Raise e -> r = Raise e \/ exists a, r = Ok a /\ f a = Raise e.
Proof. destruct r as [a | e0]; simpl; [eauto | intros [= <-]; auto]. Qed.

Lemma MatchValue_raises (v : Value) (e : Exn) :
  MatchValue v = Raise e -> is_http e = false.
Proof. destruct v as [| [] |]; simpl; intros [= <-]; reflexivity. Qed.

Lemma range_bound_raises (v : option Value) (e : Exn) :
  range_bound v = Raise e -> is_http e = false.
Proof. destruct v as [[| [] |] |]; simpl; intros [= <-]; reflexivity. Qed.

Lemma build_filter_raises (filters : option Dict) (e : Exn) :
  build_filter filters = Raise e -> is_http e = false.
Proof.
  unfold build_filter. destruct filters as [f |]; [| discriminate].
  case_bool_decide as Hempty; [discriminate |]. intros H.
  apply rbind_Raise in H as [H | (c1 & _ & H)].
  { unfold genre_conditions in H. destruct (f !! "genres"); [| discriminate].
    apply rbind_Raise in H as [H | (? & _ & H)]; [| discriminate].
    by eapply MatchValue_raises. }
  apply rbind_Raise in H as [H | (c2 & _ & H)].
  { unfold year_conditions in H. case_bool_decide as Hkeys; [| discriminate].
    apply rbind_Raise in H as [H | (? & _ & H)]; [by eapply range_bound_raises |].
    apply rbind_Raise in H as [H | (? & _ & H)]; [| discriminate].
    by eapply range_bound_raises. }
  apply rbind_Raise in H as [H | (c3 & _ & H)].
  { unfold rating_conditions in H. destruct (f !! "rating_min"); [| discriminate].
    apply rbind_Raise in H as [H | (? & _ & H)]; [| discriminate].
    by eapply range_bound_raises. }
  destruct (c1 ++ c2 ++ c3); discriminate.
Qed.

Lemma not_seen_raises (seen : list Z) (similar : list Dict) (e : Exn) :
  ApiVectorial.not_seen seen similar = Raise e -> is_http e = false.
Proof.
  induction similar as [| movie rest IH]; simpl; [discriminate |].
  unfold dict_index. destruct (movie !! "movie_id") as [v |]; simpl;
    [| by intros [= <-]].
  destruct (in_int_set v seen) as [b | e0] eqn:Hin; simpl.
  - destruct (ApiVectorial.not_seen seen rest); simpl; [discriminate |].
    intros [= <-]. by apply IH.
  - intros [= <-]. destruct v as [| s |]; simpl in Hin.
    + discriminate.
    + destruct (scalar_number s); discriminate.
    + by injection Hin as <-.
Qed.

Lemma raises_only_any {A : Type} (m : Prog A) : raises_only (fun _ => True) m.
Proof. induction m; constructor; auto. Qed.

Lemma raises_only_caught {A : Type} (P : Exn -> Prop) (m : Prog A) (a : A) :
  raises_only P (try_except m (fun _ => Ret a)).
Proof.
  apply (raises_only_try_except P (fun _ => True)); [apply raises_only_any |].
  intros. constructor.
Qed.

Section RecommendFailures.
Context {C : Codec}.

Lemma search_similar_raises (self : QdrantService) (q : Vector) (k : Z)
    (filters : option Dict) :
  raises_only internal_failure (search_similar self q k filters).
Proof.
  unfold search_similar. apply raises_only_bind.
  - apply raises_only_lift. intros e He. left. by eapply build_filter_raises.
  - intros flt. apply raises_only_bind.
    + apply raises_only_call. intros e He. by left.
    + intros. constructor.
Qed.

Lemma enrich_raises (recs : list Dict) :
  raises_only internal_failure (ApiVectorial.enrich recs).
Proof.
  induction recs as [| rec rest IH]; [constructor |].
  cbn [ApiVectorial.enrich]. apply raises_only_bind.
  - apply raises_only_lift. unfold dict_index.
    destruct (rec !! "movie_id"); intros e [= <-]. by left.
  - intros movie_id. apply raises_only_bind.
    + unfold get_movie_metadata. apply raises_only_caught.
    + intros md. apply raises_only_bind; [exact IH |]. intros. constructor.
Qed.

(** With services that raise no HTTP exceptions, a run of [recommend]
    on a user with a history ends well or with an HTTP 500: the 404 of
    the missing history is not among its outcomes. *)
Lemma recommend_with_history {W : Type} (h : Handler W) (model : bool)
    (qdrant_instance : QdrantService)
    (request : ApiVectorial.RecommendationRequest) (w : W) (e : Exn) :
  service_errors h ->
  user_history h w (ApiVectorial.user_id request) <> [] ->
  result (run h (ApiVectorial.recommend model qdrant_instance request) w) = Raise e ->
  exists detail, e = HTTPException 500 detail.
Proof.
  intros Hserv Hne. unfold ApiVectorial.recommend.
  rewrite run_try_except, run_bind, get_user_sequence_returns.
  destruct (user_history h w (ApiVectorial.user_id request)) as [| x l]; [done |].
  cbn zeta iota beta. cbn [result world].
  match goal with
  | |- context [result (run h ?cont ?w1)] =>
      assert (Hcont : raises_only internal_failure cont);
      [| destruct (result (run h cont w1)) as [r | e0] eqn:Hr]
  end.
  - apply raises_only_bind.
    + unfold ApiVectorial.get_user_embedding. apply raises_only_caught.
    + intros [v |]; [| constructor; by right].
      apply raises_only_bind; [apply search_similar_raises |].
      intros similar. apply raises_only_bind.
      * apply raises_only_lift. intros e0 He0. left. by eapply not_seen_raises.
      * intros unseen. apply raises_only_bind; [apply enrich_raises |].
        intros. constructor.
  - discriminate.
  - apply (raises_only_run h Hserv internal_failure _ _ _ Hcont) in Hr.
    cbn [result world calls].
    destruct Hr as [Hr | ->].
    + destruct e0; try discriminate Hr; simpl; intros [= <-]; eauto.
    + simpl. intros [= <-]. eauto.
Qed.

End RecommendFailures.

(** ** [recommend]: the empty history *)

Section RecommendFacts.
Context {C : Codec} {W : Type} (h : Handler W).

(** C6, as the code has it.  When the history of the user is empty,
    [recommend] fails with
    the no-history error (HTTP 404) right after the history lookup: its
    calls and final world are those of the lookup, and no call to the
    model or to the search engine is made.  When the history is not
    empty that branch is not taken: the run goes on to the embedding
    step, which calls the model on the padded history, or fails with the
    embedding error (HTTP 500) when no model is loaded; and, the
    services raising no HTTP exceptions of their own, the run does not
    end with the no-history error.  The history is the sequence that the
    lookup returns, and the lookup returns the empty sequence also when
    one of its calls raises: a user whose stored ratings could not be
    read is answered with the no-history error as well. *)
Theorem recommend_no_history (model : bool) (qdrant_instance : QdrantService)
    (request : ApiVectorial.RecommendationRequest) (w : W) :
  let uid := ApiVectorial.user_id request in
  let lookup := run h (get_user_sequence uid) w in
  let o := run h (ApiVectorial.recommend model qdrant_instance request) w in
  (user_history h w uid = [] ->
   result o = Raise (ApiVectorial.no_history uid) /\
   calls o = calls lookup /\ world o = world lookup /\
   existsb is_model_call (calls o) = false /\
   existsb is_search_call (calls o) = false) /\
  (user_history h w uid <> [] ->
   if model
   then exists answer rest,
          calls o = calls lookup ++
                    Called (ModelForward
                              (ApiVectorial.padded_sequence (user_history h w uid)))
                           answer :: rest
   else result o = Raise ApiVectorial.embedding_failed /\ calls o = calls lookup) /\
  (service_errors h -> user_history h w uid <> [] ->
   result o <> Raise (ApiVectorial.no_history uid)) /\
  (existsb is_failed_call (calls lookup) = true ->
   user_history h w uid = [] /\
   result o = Raise (ApiVectorial.no_history uid)).
Proof.
  intros uid lookup o. subst o lookup.
  assert (Hfail : existsb is_failed_call
                    (calls (run h (get_user_sequence uid) w)) = true ->
                  user_history h w uid = []).
  { unfold user_history, get_user_sequence, call. simpl.
    destruct (h _ (RedisGet _) w) as [[cached | e] w1]; simpl; [| done].
    destruct (cached_text cached) as [text |]; simpl.
    - destruct (json_loads_sequence text); done.
    - destruct (h _ (RatingsFindOne _) w1) as [[[d |] | e] w2]; simpl; [| done | done].
      destruct (h _ (RatingsFindSorted _) w2) as [[docs | e] w3]; simpl; [| done].
      destruct (h _ (RedisSetex _ _ _) w3) as [[[] | e] w4]; done. }
  assert (Hlast : service_errors h -> user_history h w uid <> [] ->
            result (run h (ApiVectorial.recommend model qdrant_instance request) w)
            <> Raise (ApiVectorial.no_history uid)).
  { intros Hserv Hne Hr.
    destruct (recommend_with_history h model qdrant_instance request w _
                Hserv Hne Hr) as [detail Hd].
    discriminate Hd. }
  assert (Hempty : user_history h w uid = [] ->
            result (run h (ApiVectorial.recommend model qdrant_instance request) w)
            = Raise (ApiVectorial.no_history uid) /\
            calls (run h (ApiVectorial.recommend model qdrant_instance request) w)
            = calls (run h (get_user_sequence uid) w) /\
            world (run h (ApiVectorial.recommend model qdrant_instance request) w)
            = world (run h (get_user_sequence uid) w) /\
            existsb is_model_call
              (calls (run h (ApiVectorial.recommend model qdrant_instance request) w))
            = false /\
            existsb is_search_call
              (calls (run h (ApiVectorial.recommend model qdrant_instance request) w))
            = false).
  { unfold ApiVectorial.recommend.
    rewrite run_try_except, run_bind, get_user_sequence_returns. fold uid.
    intros ->. simpl. rewrite !app_nil_r.
    repeat split; apply get_user_sequence_calls. }
  split; [exact Hempty |]. split; [| split; [exact Hlast |]]; clear Hlast.
  - unfold ApiVectorial.recommend.
    rewrite run_try_except, run_bind, get_user_sequence_returns. fold uid.
    intros Hne. destruct (user_history h w uid) as [| x l] eqn:Hh; [done |].
    clear Hne. destruct model.
    + unfold ApiVectorial.get_user_embedding, call. simpl.
      destruct (h Vector (ModelForward _) _) as [r w'].
      match goal with
      | |- context [result ?o] => destruct (result o); simpl;
          rewrite <- ?app_assoc; simpl; eauto
      end.
    + simpl. rewrite !app_nil_r. done.
  - intros Hf. split; [by apply Hfail |]. by apply Hempty, Hfail.
Qed.

End RecommendFacts.

Lemma ref_service_errors : service_errors RefWorld.handler.
Proof.
  intros X ev w w' e. destruct ev; simpl;
    repeat match goal with
           | |- context [if ?b then _ else _] => destruct b
           | |- context [match ?o with Some _ => _ | None => _ end] => destruct o
           end; intros [= <- <-]; reflexivity.
Qed.

Lemma recommend_no_history_witness :
  let o := run RefWorld.handler
             (ApiVectorial.recommend (C := RefWorld.codec) true
                Samples.movies_service (Samples.request_for 8 None))
             Samples.catalogue in
  user_history (C := RefWorld.codec) RefWorld.handler Samples.catalogue 8 = [] /\
  result o = Raise (ApiVectorial.no_history 8) /\
  existsb is_model_call (calls o) = false /\
  existsb is_search_call (calls o) = false /\
  user_history (C := RefWorld.codec) RefWorld.handler Samples.catalogue 7 <> [] /\
  result (run RefWorld.handler
            (ApiVectorial.recommend (C := RefWorld.codec) true
               Samples.movies_service (Samples.request_for 7 None))
            Samples.catalogue) <> Raise (ApiVectorial.no_history 7).
Proof.
  split; [reflexivity |].
  destruct (proj1 (recommend_no_history (C := RefWorld.codec) RefWorld.handler
                     true Samples.movies_service (Samples.request_for 8 None)
                     Samples.catalogue) eq_refl)
    as (Hr & _ & _ & Hm & Hs).
  split; [exact Hr | split; [exact Hm | split; [exact Hs |]]].
  assert (Hne : user_history (C := RefWorld.codec) RefWorld.handler
                  Samples.catalogue 7 <> []) by (vm_compute; discriminate).
  split; [exact Hne |].
  exact (proj1 (proj2 (proj2 (recommend_no_history (C := RefWorld.codec)
                                RefWorld.handler true Samples.movies_service
                                (Samples.request_for 7 None) Samples.catalogue)))
           ref_service_errors Hne).
Defined.

(** C6 as stated fails in its second half: user 7 has stored ratings,
    a non-empty history, and [recommend] answers with the no-history
    error when MongoDB cannot be reached, and when the cached sequence
    of the user cannot be decoded. *)
Lemma stored_history_reported_missing :
  r_movieId <$> RefWorld.user_ratings ratings_unreachable 7 = [5; 3] /\
  result (run RefWorld.handler
            (ApiVectorial.recommend (C := RefWorld.codec) true
               Samples.movies_service (Samples.request_for 7 None))
            ratings_unreachable)
  = Raise (ApiVectorial.no_history 7) /\
  r_movieId <$> RefWorld.user_ratings corrupt_sequence_cache 7 = [5; 3] /\
  result (run RefWorld.handler
            (ApiVectorial.recommend (C := RefWorld.codec) true
               Samples.movies_service (Samples.request_for 7 None))
            corrupt_sequence_cache)
  = Raise (ApiVectorial.no_history 7).
Proof. repeat split; vm_compute; reflexivity. Qed.


(** * Further properties *)

(** ** [faiss_index.py]: padding, unknown index types, saved mappings *)

Lemma string_app_inv_head (p a b : string) : p +:+ a = p +:+ b -> a = b.
Proof.
  induction p as [| c p IH]; simpl; [done |]. intros [= H]. by apply IH.
Qed.

Lemma path_join_inj (directory a b : string) :
  path_join directory a = path_join directory b -> a = b.
Proof.
  unfold path_join. destruct (String.eqb directory ""); [done |].
  destruct (ends_with_slash directory); intros H.
  - by eapply string_app_inv_head.
  - apply string_app_inv_head in H. by injection H.
Qed.

Lemma string_length_app (a b : string) :
  String.length (a +:+ b) = (String.length a + String.length b)%nat.
Proof. induction a as [| c a IH]; simpl; [reflexivity | by rewrite IH]. Qed.

Lemma path_join_longer (directory name : string) :
  directory <> "" -> name <> "" -> directory <> path_join directory name.
Proof.
  intros Hd Hn He. apply (f_equal String.length) in He.
  unfold path_join in He. apply String.eqb_neq in Hd. rewrite Hd in He.
  assert (0 < String.length name)%nat by (destruct name; [done | simpl; lia]).
  destruct (ends_with_slash directory);
    rewrite ?string_length_app in He; simpl in He; lia.
Qed.

#[global] Instance KInt_inj : Inj (=) (=) KInt.
Proof. by intros ?? [=]. Qed.

#[global] Instance KStr_inj : Inj (=) (=) KStr.
Proof. by intros ?? [=]. Qed.

Lemma kmap_size `{Countable K1, Countable K2} {A : Type} (f : K1 -> K2)
    `{!Inj (=) (=) f} (m : gmap K1 A) :
  size (kmap (M2 := gmap K2) f m) = size m.
Proof.
  rewrite <- !length_map_to_list, map_to_list_kmap by done.
  apply length_fmap.
Qed.

Lemma foldl_insert_lookup (l : list Z) (m : gmap Z Z) (i : Z) :
  foldl (fun acc j => <[j := j]> acc) m l !! i
  = if decide (i ∈ l) then Some i else m !! i.
Proof.
  revert m. induction l as [| a l IH]; intros m.
  - destruct (decide (i ∈ [])) as [Hin | _]; [| done].
    by apply elem_of_nil in Hin.
  - cbn [foldl]. rewrite IH.
    destruct (decide (i ∈ l)) as [Hin | Hnin],
             (decide (i ∈ a :: l)) as [Hin' | Hnin']; try done.
    + exfalso. apply Hnin'. by right.
    + apply elem_of_cons in Hin' as [-> | ?]; [| done].
      apply lookup_insert_eq.
    + apply lookup_insert_ne. intros ->. apply Hnin'. by left.
Qed.

Lemma foldl_insert_size (l : list Z) (m : gmap Z Z) :
  NoDup l -> (forall i, i ∈ l -> m !! i = None) ->
  size (foldl (fun acc j => <[j := j]> acc) m l) = (size m + length l)%nat.
Proof.
  revert m. induction l as [| a l IH]; intros m Hnd Hfresh; simpl; [lia |].
  apply NoDup_cons in Hnd as [Ha Hnd]. rewrite IH; [| done |].
  - rewrite map_size_insert_None; [lia |]. apply Hfresh. by left.
  - intros i Hi. rewrite lookup_insert_ne; [apply Hfresh; by right |].
    intros ->. done.
Qed.

Lemma create_item_mapping_lookup (num_items i : Z) :
  create_item_mapping num_items !! i
  = if decide (1 <= i <= num_items) then Some i else None.
Proof.
  unfold create_item_mapping. rewrite foldl_insert_lookup, lookup_empty.
  destruct (decide (i ∈ seqZ 1 num_items)) as [Hin | Hnin],
           (decide (1 <= i <= num_items)) as [Hr | Hr];
    rewrite elem_of_seqZ in *; try done; lia.
Qed.

Lemma create_item_mapping_size (num_items : Z) :
  size (create_item_mapping num_items) = Z.to_nat num_items.
Proof.
  unfold create_item_mapping. rewrite foldl_insert_size.
  - rewrite map_size_empty, length_seqZ. lia.
  - apply NoDup_seqZ.
  - intros. apply lookup_empty.
Qed.

Section FAISSIndexMore.
Context {F : FaissLib}.

(** X1.  When the library pads a row with the index [-1] (fewer than [k]
    vectors are stored), [search] does not report the sentinel [-1] for
    it: the test [idx < len(item_mapping)] holds of [-1], so the id
    reported is the mapping's value under key 0, or 0 when there is
    none. *)
Theorem search_reports_padding_as_key_zero (self : FAISSIndex F) (ix : Index)
    (q : Vector) (k : Z) (srow : list Q) (irow : list Z)
    (S : list (list Q)) (I : list (list Z)) (j : nat) :
  index self = Some ix ->
  index_search ix [q] k = Ok (srow :: S, irow :: I) ->
  irow !! j = Some (-1) ->
  exists ids,
    search self q k = Ok (ids, srow) /\
    ids !! j = Some (default 0 (item_mapping self !! 0)) /\
    (item_mapping self !! 0 = None -> ids !! j = Some 0).
Proof.
  intros Hix Hs Hj. exists (translate_row (item_mapping self) irow).
  unfold search. rewrite Hix, Hs. split; [reflexivity |].
  assert (Hid : translate_row (item_mapping self) irow !! j
                = Some (default 0 (item_mapping self !! 0))).
  { unfold translate_row. rewrite list_lookup_fmap, Hj. simpl.
    unfold translate_index. rewrite bool_decide_eq_true_2 by lia. reflexivity. }
  split; [exact Hid |]. intros Hnone. by rewrite Hid, Hnone.
Qed.

(** X2.  With an index type other than "flat", "ivf" and "hnsw",
    [create_index] on a new object fails with [AttributeError]: no index
    object is assigned, although the item mapping has already been
    replaced; a search on the object then fails as not initialised. *)
Theorem create_index_unknown_type (embedding_dim : Z) (index_type : string)
    (embeddings : list Vector) (m : gmap Z Z) (q : Vector) (k : Z) :
  index_type <> "flat" -> index_type <> "ivf" -> index_type <> "hnsw" ->
  let o := create_index (FAISSIndex_init embedding_dim index_type) embeddings m in
  (exists msg, fst o = Raise (AttributeError msg)) /\
  index (snd o) = None /\
  item_mapping (snd o) = m /\
  search (snd o) q k = Raise not_initialised.
Proof.
  intros H1 H2 H3. unfold create_index, add_embeddings. simpl.
  apply String.eqb_neq in H1, H2, H3. rewrite H1, H2, H3. simpl.
  repeat split; eauto.
Qed.

End FAISSIndexMore.

Lemma search_reports_padding_as_key_zero_witness :
  search Samples.twin_index [1%Q; 0%Q] 3
  = Ok ([10; 20; 0], [1%Q; 1%Q; RefFaiss.neg_flt_max]).
Proof.
  destruct (search_reports_padding_as_key_zero Samples.twin_index
              (Samples.flat_of [[1%Q; 0%Q]; [1%Q; 0%Q]])
              [1%Q; 0%Q] 3 [1%Q; 1%Q; RefFaiss.neg_flt_max] [1; 0; -1] [] [] 2%nat
              eq_refl eq_refl eq_refl) as (ids & Hs & _ & _).
  reflexivity.
Defined.

Lemma create_index_unknown_type_witness :
  fst (create_index (F := RefFaiss.lib) (FAISSIndex_init 2 "lsh")
         [[1%Q; 0%Q]] (list_to_map [(1, 20)]))
  = Raise (AttributeError "'NoneType' object has no attribute 'add'").
Proof.
  destruct (create_index_unknown_type (F := RefFaiss.lib) 2 "lsh"
              [[1%Q; 0%Q]] (list_to_map [(1, 20)]) [1%Q; 0%Q] 1)
    as ((msg & Hmsg) & _); [done | done | done |].
  reflexivity.
Defined.

Section FAISSIndexSaved.
Context {F : FaissLib}.

Lemma translate_index_identity (n idx : Z) :
  0 <= n ->
  translate_index (create_item_mapping n) idx
  = if bool_decide (idx < n) then idx + 1 else -1.
Proof.
  intros Hn. unfold translate_index.
  rewrite create_item_mapping_size, Z2Nat.id by done.
  case_bool_decide as Hlt; [| done].
  rewrite create_item_mapping_lookup. by case_decide.
Qed.

Lemma search_k_keyed (self : FAISSIndex F) (q : Vector) (k : Z) :
  search_k (keyed self) q k = search self q k.
Proof.
  unfold search_k, search, keyed. simpl.
  destruct (index self) as [ix |]; [| done].
  destruct (index_search ix [q] k) as [[S I] | e]; [| done].
  destruct I as [| irow I]; [done |]. destruct S as [| srow S]; [done |].
  do 2 f_equal. unfold translate_row. apply list_fmap_ext. intros _ idx _.
  unfold translate_index_k, translate_index.
  by rewrite kmap_size, lookup_kmap by apply _.
Qed.

Lemma save_index_Ok (self : FAISSIndex F) (directory : string)
    (files : gmap string (FileContent F)) :
  fst (save_index self directory files) = Ok tt ->
  snd (save_index self directory files) !! path_join directory "faiss_index.bin"
  = Some (match index self with Some ix => IndexFile ix | None => NullIndexFile end) /\
  snd (save_index self directory files) !! path_join directory "item_mapping.json"
  = Some (JsonFile (json_dump_mapping (item_mapping self))).
Proof.
  unfold save_index.
  destruct (makedirs directory files) as [[[] | e] files1]; [| discriminate].
  unfold write_index.
  destruct (files1 !! path_join directory "faiss_index.bin") as [[] |];
    try discriminate;
    (unfold write_mapping;
     match goal with
     | |- context [?m !! path_join directory "item_mapping.json"] =>
         destruct (m !! path_join directory "item_mapping.json") as [[] |] eqn:Hm
     end; try discriminate; intros _; cbn [snd];
     (split; [| apply lookup_insert_eq]);
     (rewrite lookup_insert_ne
        by (intros H; apply path_join_inj in H; discriminate H));
     apply lookup_insert_eq).
Qed.


(** X4.  [load_index] fails with [FileNotFoundError] when a file is
    missing.  When the index file is missing the object is unchanged;
    when only the mapping file is missing the index has already been
    replaced by the one read, so the object is left with the new index
    and its old mapping. *)
Theorem load_index_missing_file (obj : FAISSIndexK F) (directory : string)
    (files : gmap string (FileContent F)) :
  (files !! path_join directory "faiss_index.bin" = None ->
   exists msg, load_index obj directory files = (Raise (FileNotFoundError msg), obj)) /\
  (forall ix,
     files !! path_join directory "faiss_index.bin" = Some (IndexFile ix) ->
     files !! path_join directory "item_mapping.json" = None ->
     (exists msg, fst (load_index obj directory files)
                  = Raise (FileNotFoundError msg)) /\
     k_index (snd (load_index obj directory files)) = Some ix /\
     k_item_mapping (snd (load_index obj directory files)) = k_item_mapping obj).
Proof.
  unfold load_index, load_mapping. split.
  - intros ->. eauto.
  - intros ix -> ->. simpl. eauto.
Qed.

(** X5.  The item mapping that the exporter creates holds exactly the
    ids [1 .. num_items], each mapped to itself; with it, [search]
    reports [idx + 1] for every internal index below [num_items] (the
    padding index [-1] becomes 0) and [-1] for the others. *)
Theorem exporter_mapping_is_identity (num_items : Z) :
  0 <= num_items ->
  size (create_item_mapping num_items) = Z.to_nat num_items /\
  (forall i, create_item_mapping num_items !! i = Some i <-> 1 <= i <= num_items) /\
  (forall i v, create_item_mapping num_items !! i = Some v -> v = i) /\
  reverse_mapping (create_item_mapping num_items) = create_item_mapping num_items /\
  (forall idx, translate_index (create_item_mapping num_items) idx
               = if bool_decide (idx < num_items) then idx + 1 else -1).
Proof.
  intros Hn. split; [apply create_item_mapping_size |].
  assert (Hl : forall i v, create_item_mapping num_items !! i = Some v -> v = i).
  { intros i v. rewrite create_item_mapping_lookup. case_decide; congruence. }
  split; [| split; [exact Hl | split]].
  - intros i. rewrite create_item_mapping_lookup. case_decide; split; try done.
  - unfold reverse_mapping.
    assert (Hgen : forall (l : list (Z * Z)) (acc : gmap Z Z),
               (forall kv, kv ∈ l -> kv.2 = kv.1) ->
               foldl (fun a kv => <[kv.2 := kv.1]> a) acc l
               = foldl (fun a kv => <[kv.1 := kv.2]> a) acc l).
    { induction l as [| [a b] l IH]; intros acc Hall; [done |].
      assert (b = a) as -> by (apply (Hall (a, b)); by left).
      simpl. apply IH. intros kv Hkv. apply Hall. by right. }
    rewrite Hgen.
    + apply map_eq. intros i.
      assert (Hfold : forall (l : list (Z * Z)) (acc : gmap Z Z),
                 foldl (fun a kv => <[kv.1 := kv.2]> a) acc l
                 = list_to_map (reverse l) ∪ acc).
      { induction l as [| kv l IH]; intros acc; simpl.
        - by rewrite (left_id_L ∅ (∪)).
        - rewrite IH, reverse_cons, list_to_map_app. simpl.
          rewrite <- (assoc_L (∪)). f_equal.
          by rewrite insert_union_singleton_l, insert_empty. }
      rewrite Hfold, (right_id_L ∅ (∪)).
      rewrite (list_to_map_proper (reverse (map_to_list (create_item_mapping num_items)))
                 (map_to_list (create_item_mapping num_items))).
      * by rewrite list_to_map_to_list.
      * rewrite fmap_reverse, reverse_Permutation. apply NoDup_fst_map_to_list.
      * apply reverse_Permutation.
    + intros [i v] Hkv. simpl. apply elem_of_map_to_list in Hkv. by apply Hl.
  - intros idx. by apply translate_index_identity.
Qed.

End FAISSIndexSaved.


Lemma load_index_missing_file_witness :
  let files : gmap string (FileContent RefFaiss.lib) :=
    {[ "idx/faiss_index.bin" := @IndexFile RefFaiss.lib Samples.empty_flat ]} in
  let o := load_index (keyed Samples.twin_index) "idx" files in
  k_index (snd o) = Some (Samples.empty_flat : @Index RefFaiss.lib) /\
  k_item_mapping (snd o) = k_item_mapping (keyed Samples.twin_index).
Proof.
  intros files o.
  destruct (proj2 (load_index_missing_file (keyed Samples.twin_index) "idx" files)
              Samples.empty_flat eq_refl eq_refl) as (_ & Hi & Hm).
  split; [exact Hi | exact Hm].
Defined.

Lemma exporter_mapping_is_identity_witness :
  size (create_item_mapping 3) = 3%nat /\
  translate_index (create_item_mapping 3) 2 = 3 /\
  translate_index (create_item_mapping 3) 3 = -1.
Proof.
  destruct (exporter_mapping_is_identity 3 ltac:(lia))
    as (Hsize & _ & _ & _ & Htr).
  split; [exact Hsize |]. split; [exact (Htr 2) | exact (Htr 3)].
Defined.

(** ** [qdrant_service.py]: filters, insertion and user embeddings *)

(** X6.  [search_similar] reads four keys of the filters, "genres",
    "year_min", "year_max" and "rating_min".  A filter dictionary with
    none of them, whatever else it holds, is ignored without an error:
    the search is the unfiltered one. *)
Theorem search_similar_ignores_other_keys (self : QdrantService) (q : Vector)
    (k : Z) (filters : Dict) :
  filters !! "genres" = None -> filters !! "year_min" = None ->
  filters !! "year_max" = None -> filters !! "rating_min" = None ->
  build_filter (Some filters) = Ok None /\
  search_similar self q k (Some filters) = search_similar self q k None.
Proof.
  intros Hg Hmin Hmax Hr.
  assert (Hb : build_filter (Some filters) = Ok None).
  { unfold build_filter. case_bool_decide; [reflexivity |].
    unfold genre_conditions, year_conditions, rating_conditions.
    rewrite Hg, Hmin, Hmax, Hr.
    rewrite bool_decide_eq_false_2; [reflexivity |].
    intros [[? ?] | [? ?]]; discriminate. }
  split; [exact Hb |]. unfold search_similar. by rewrite Hb.
Qed.

Lemma search_similar_ignores_other_keys_witness :
  search_similar Samples.movies_service [1%Q; 0%Q] 5
    (Some {[ "director" := VStr "Kurosawa"; "year" := VInt 1954 ]})
  = search_similar Samples.movies_service [1%Q; 0%Q] 5 None.
Proof.
  exact (proj2 (search_similar_ignores_other_keys Samples.movies_service
                  [1%Q; 0%Q] 5 {[ "director" := VStr "Kurosawa"; "year" := VInt 1954 ]}
                  eq_refl eq_refl eq_refl eq_refl)).
Defined.

Lemma movie_points_lookup (embeddings : list Vector) (metadata : list Dict)
    (start : Z) (i : nat) (p : PointStruct) :
  movie_points start embeddings metadata !! i = Some p ->
  exists embedding meta,
    embeddings !! i = Some embedding /\ metadata !! i = Some meta /\
    p = {| ps_id := start + Z.of_nat i; ps_vector := embedding;
           ps_payload := movie_payload (start + Z.of_nat i) meta |}.
Proof.
  revert metadata start i.
  induction embeddings as [| e embeddings IH]; intros [| m metadata] start i;
    simpl; try discriminate.
  destruct i as [| i]; simpl.
  - intros [= <-]. exists e, m. by rewrite Z.add_0_r.
  - intros H. apply IH in H as (e' & m' & He & Hm & ->).
    exists e', m'. repeat split; try assumption.
    by replace (start + 1 + Z.of_nat i) with (start + Z.of_nat (S i)) by lia.
Qed.

Lemma movie_points_length (embeddings : list Vector) (metadata : list Dict)
    (start : Z) :
  length (movie_points start embeddings metadata)
  = Nat.min (length embeddings) (length metadata).
Proof.
  revert metadata start.
  induction embeddings as [| e embeddings IH]; intros [| m metadata] start;
    simpl; try reflexivity.
  by rewrite IH.
Qed.

Lemma movie_points_ids (embeddings : list Vector) (metadata : list Dict)
    (start : Z) :
  ps_id <$> movie_points start embeddings metadata
  = seqZ start (Z.of_nat (Nat.min (length embeddings) (length metadata))).
Proof.
  revert metadata start.
  induction embeddings as [| e embeddings IH]; intros [| m metadata] start;
    try reflexivity.
  cbn [movie_points length]. rewrite fmap_cons, IH.
  rewrite <- Nat.succ_min_distr, Nat2Z.inj_succ, (seqZ_cons start) by lia.
  cbn [ps_id]. f_equal. f_equal; lia.
Qed.

Lemma batches_fuel_length {A : Type} (fuel : nat) (l : list A) :
  (length l <= fuel)%nat ->
  Z.of_nat (length (batches_fuel fuel 100 l)) = (Z.of_nat (length l) + 99) / 100.
Proof.
  revert l. induction fuel as [| fuel IH]; intros l Hl.
  - destruct l; [reflexivity | simpl in Hl; lia].
  - destruct l as [| x l]; [reflexivity |].
    change (batches_fuel (S fuel) 100 (x :: l))
      with (take 100 (x :: l) :: batches_fuel fuel 100 (drop 100 (x :: l))).
    cbn [length]. rewrite Nat2Z.inj_succ, IH, length_drop.
    + change (S (length l)) with (length (x :: l)).
      remember (length (x :: l)) as n eqn:Hn.
      assert (1 <= n)%nat by (subst n; simpl; lia).
      destruct (decide (100 <= n)%nat).
      * replace (Z.of_nat n + 99) with (Z.of_nat (n - 100) + 99 + 1 * 100) by lia.
        rewrite Z.div_add by lia. lia.
      * replace (Z.of_nat (n - 100)) with 0 by lia.
        change ((0 + 99) `div` 100) with 0.
        apply (Z.div_unique _ _ _ (Z.of_nat n - 1)); lia.
    + rewrite length_drop. simpl in *. lia.
Qed.

Lemma batches_fuel_sizes {A : Type} (fuel : nat) (l : list A) :
  Forall (fun batch => (1 <= length batch <= 100)%nat) (batches_fuel fuel 100 l).
Proof.
  revert l. induction fuel as [| fuel IH]; intros l; [constructor |].
  destruct l as [| x l]; [constructor |].
  change (batches_fuel (S fuel) 100 (x :: l))
    with (take 100 (x :: l) :: batches_fuel fuel 100 (drop 100 (x :: l))).
  constructor; [| apply IH].
  rewrite length_take. cbn [length]. lia.
Qed.

Section InsertionMore.
Context {W : Type} (h : Handler W).

Lemma upsert_batches_calls (coll : string) (bs : list (list PointStruct)) (w : W) :
  let o := run h (upsert_batches coll bs) w in
  exists sent,
    sent `prefix_of` bs /\
    upsert_batch <$> calls o = (fun batch => Some (coll, batch)) <$> sent /\
    (result o = Ok tt -> sent = bs /\ existsb is_failed_call (calls o) = false) /\
    (forall e, result o = Raise e ->
       exists earlier batch,
         calls o = earlier ++ [Called (QdrantUpsert coll batch) (Raise e)] /\
         existsb is_failed_call earlier = false).
Proof.
  revert w. induction bs as [| batch bs IH]; intros w; simpl.
  - exists []. repeat split; try done.
  - unfold call. simpl.
    destruct (h unit (QdrantUpsert coll batch) w) as [[[] | e] w']; simpl.
    + destruct (IH w') as (sent & Hp & Hc & Hok & Hraise).
      exists (batch :: sent). split; [by apply prefix_cons |].
      split; [simpl; f_equal; exact Hc |]. split.
      * intros Hr. destruct (Hok Hr) as [-> Hf]. done.
      * intros e Hr. destruct (Hraise e Hr) as (earlier & b & -> & Hf).
        exists (Called (QdrantUpsert coll batch) (Ok tt) :: earlier), b.
        split; [reflexivity | exact Hf].
    + exists [batch]. split; [by apply prefix_cons, prefix_nil |].
      split; [reflexivity |]. split; [discriminate |].
      intros e' [= <-]. by exists [], batch.
Qed.

(** X7.  [insert_movies] numbers the points by position: the point sent
    for the [i]-th embedding has id [i], whatever "movie_id" its metadata
    holds, and carries the [i]-th embedding with the payload built from
    the [i]-th metadata, in which a missing "movie_id" is [i] as well.
    Embeddings or metadata beyond the shorter of the two lists are
    dropped without an error. *)
Theorem insert_movies_ids_are_positions (self : QdrantService)
    (embeddings : list Vector) (metadata : list Dict) (w : W) :
  let o := run h (insert_movies self embeddings metadata) w in
  let n := Nat.min (length embeddings) (length metadata) in
  result o = Ok tt ->
  ps_id <$> upserted_points (calls o) = seqZ 0 (Z.of_nat n) /\
  (forall (i : nat) p, upserted_points (calls o) !! i = Some p ->
     exists embedding meta,
       embeddings !! i = Some embedding /\ metadata !! i = Some meta /\
       ps_id p = Z.of_nat i /\ ps_vector p = embedding /\
       ps_payload p = movie_payload (Z.of_nat i) meta /\
       ps_payload p !! "movie_id"
       = Some (default (VInt (Z.of_nat i)) (meta !! "movie_id"))).
Proof.
  intros o n Hr. subst o. unfold insert_movies in *.
  destruct (upsert_batches_sent h (collection_name self)
              (batches 100 (movie_points 0 embeddings metadata)) w) as [_ He].
  rewrite (He Hr), batches_concat by lia. split.
  - apply movie_points_ids.
  - intros i p Hp. apply movie_points_lookup in Hp as (e & m & He' & Hm & ->).
    rewrite Z.add_0_l. exists e, m. cbn [ps_id ps_vector ps_payload].
    do 5 (split; [done |]).
    unfold movie_payload, dict_get_default. apply lookup_insert_eq.
Qed.

(** X8.  [insert_movies] only calls [upsert], on the collection of the
    service, with batches of 1 to 100 points that are, in order, the
    slices of the point list.  When every call succeeds there are
    [ceil(n / 100)] of them.  When a call raises, the exception is the
    one of that call, nothing is sent after it, and the batches sent
    before it stay sent. *)
Theorem insert_movies_batches (self : QdrantService)
    (embeddings : list Vector) (metadata : list Dict) (w : W) :
  let o := run h (insert_movies self embeddings metadata) w in
  let points := movie_points 0 embeddings metadata in
  let n := Nat.min (length embeddings) (length metadata) in
  (exists sent,
     sent `prefix_of` batches 100 points /\
     upsert_batch <$> calls o
     = (fun batch => Some (collection_name self, batch)) <$> sent /\
     Forall (fun batch => (1 <= length batch <= 100)%nat) sent) /\
  (result o = Ok tt ->
   Z.of_nat (length (calls o)) = (Z.of_nat n + 99) / 100 /\
   existsb is_failed_call (calls o) = false) /\
  (forall e, result o = Raise e ->
     exists earlier batch,
       calls o = earlier ++
                 [Called (QdrantUpsert (collection_name self) batch) (Raise e)] /\
       existsb is_failed_call earlier = false).
Proof.
  intros o points n. subst o. unfold insert_movies. fold points.
  destruct (upsert_batches_calls (collection_name self) (batches 100 points) w)
    as (sent & Hp & Hc & Hok & Hraise).
  split; [| split].
  - exists sent. split; [exact Hp |]. split; [exact Hc |].
    destruct Hp as [rest Hp].
    pose proof (batches_fuel_sizes (length points) points) as Hs.
    fold (batches 100 points) in Hs. rewrite Hp in Hs.
    by apply Forall_app in Hs as [Hs _].
  - intros Hr. destruct (Hok Hr) as [-> Hf]. split; [| exact Hf].
    apply (f_equal length) in Hc. rewrite !length_fmap in Hc. rewrite Hc.
    unfold batches. rewrite batches_fuel_length by lia.
    subst points n. by rewrite movie_points_length.
  - exact Hraise.
Qed.

(** X9.  [save_user_embedding] first asks for the collection
    "user_embeddings" (not the collection of the service).  When that
    call succeeds no collection is created.  When it raises, whatever
    the exception, the collection is created with the length of the
    given embedding as its vector size; a failure of the creation is
    raised again and the point is then not written. *)
Theorem save_user_embedding_creates_when_missing (self : QdrantService)
    (user_id : Z) (embedding : Vector) (w : W) :
  let o := run h (save_user_embedding self user_id embedding) w in
  let asked := h unit (QdrantGetCollection "user_embeddings") w in
  head (calls o) = Some (Called (QdrantGetCollection "user_embeddings") (fst asked)) /\
  (fst asked = Ok tt -> existsb is_create_collection_call (calls o) = false) /\
  (forall e, fst asked = Raise e ->
     let created := h unit (QdrantCreateCollection "user_embeddings"
                              (Z.of_nat (length embedding))) (snd asked) in
     calls o !! 1%nat
     = Some (Called (QdrantCreateCollection "user_embeddings"
                       (Z.of_nat (length embedding))) (fst created)) /\
     (forall e', fst created = Raise e' ->
        result o = Raise e' /\ existsb is_upsert_call (calls o) = false)).
Proof.
  intros o asked. subst o asked. unfold save_user_embedding, call. simpl.
  destruct (h unit (QdrantGetCollection _) w) as [[[] | e] w1]; simpl.
  - split; [reflexivity |]. split; [| discriminate]. intros _.
    destruct (h Z TimeNow w1) as [[t | e] w2]; simpl; [| reflexivity].
    destruct (h unit (QdrantUpsert _ _) w2) as [[[] | e] w3]; reflexivity.
  - split; [reflexivity |]. split; [discriminate |]. intros e0 _.
    destruct (h unit (QdrantCreateCollection _ _) w1) as [[[] | e'] w2]; simpl.
    + split; [reflexivity | discriminate].
    + split; [reflexivity |]. intros e1 [= <-]. done.
Qed.

Lemma ne_int_VInt (n user_id : Z) : ne_int (VInt n) user_id = true -> n <> user_id.
Proof.
  unfold ne_int, VInt. simpl. intros H ->.
  apply negb_true_iff in H.
  assert (Qeq_bool (inject_Z user_id) (inject_Z user_id) = true) as Ht
    by (apply Qeq_bool_iff; reflexivity).
  congruence.
Qed.

Lemma other_users_spec (user_id : Z) (results : list ScoredPoint) :
  Forall (fun u => ne_int (dict_get u "user_id") user_id = true)
    (other_users user_id results) /\
  sublist (other_users user_id results) (similar_user <$> results).
Proof.
  unfold other_users. split.
  - apply Forall_fmap, Forall_forall. intros r Hr.
    apply list_elem_of_filter in Hr as [Hr _]. unfold compose.
    unfold similar_user, dict_get at 1. by rewrite lookup_insert_eq.
  - apply fmap_sublist, sublist_filter.
Qed.

(** X10.  [find_similar_users] never raises: a failure of the lookup of
    the user's embedding or of the search gives the empty list, as does
    a user without a stored embedding, for whom no search is made.
    Otherwise one search for [k + 1] users is made in the collection
    "user_embeddings"; no result carries the id of the user asked about,
    the results come in the engine's order, and for [k >= 0] there are
    at most [k] of them. *)
Theorem find_similar_users_excludes_self
    (get_user_embedding : Z -> Prog (option Vector)) (user_id k : Z) (w : W) :
  let lookup := run h (get_user_embedding user_id) w in
  let o := run h (find_similar_users get_user_embedding user_id k) w in
  exists users,
    result o = Ok users /\
    Forall (fun u => ne_int (dict_get u "user_id") user_id = true) users /\
    (forall u n, u ∈ users -> u !! "user_id" = Some (VInt n) -> n <> user_id) /\
    (0 <= k -> Z.of_nat (length users) <= k) /\
    match result lookup with
    | Ok (Some user_embedding) =>
        exists answer,
          calls o = calls lookup ++
                    [Called (QdrantSearch "user_embeddings" user_embedding (k + 1) None)
                       answer] /\
          match answer with
          | Ok results => sublist users (similar_user <$> results)
          | Raise _ => users = []
          end
    | _ => users = [] /\ calls o = calls lookup
    end.
Proof.
  intros lookup o.
  assert (Hint : forall users : list Dict,
             Forall (fun u => ne_int (dict_get u "user_id") user_id = true) users ->
             forall u n, u ∈ users -> u !! "user_id" = Some (VInt n) -> n <> user_id).
  { intros users Hall u n Hu Hid. rewrite Forall_forall in Hall.
    specialize (Hall u Hu). unfold dict_get in Hall. rewrite Hid in Hall.
    by apply ne_int_VInt. }
  subst o. unfold find_similar_users. rewrite run_try_except, run_bind.
  fold lookup. destruct (result lookup) as [[v |] | e]; cbn zeta iota beta.
  - unfold call. cbn [run bind].
    match goal with
    | |- context [h ?X (QdrantSearch ?c ?q ?l ?f) ?w0] =>
        destruct (h X (QdrantSearch c q l f) w0) as [[results | e] w']
    end; cbn.
    + destruct (other_users_spec user_id results) as [Hne Hsub].
      exists (ApiVectorial.slice_to k (other_users user_id results)).
      assert (Hall : Forall (fun u => ne_int (dict_get u "user_id") user_id = true)
                       (ApiVectorial.slice_to k (other_users user_id results)))
        by (by apply slice_to_Forall).
      split; [reflexivity |]. split; [exact Hall |].
      split; [by apply Hint |]. split; [apply slice_to_length |].
      exists (Ok results). split; [reflexivity |].
      etransitivity; [| exact Hsub].
      unfold ApiVectorial.slice_to. destruct (k <? 0); apply sublist_take.
    + exists []. split; [reflexivity |]. split; [constructor |].
      split; [by apply Hint |]. split; [simpl; lia |].
      exists (Raise e). by rewrite app_nil_r.
  - exists []. cbn. split; [reflexivity |]. split; [constructor |].
    split; [by apply Hint |]. split; [lia |]. by rewrite app_nil_r.
  - exists []. cbn. split; [reflexivity |]. split; [constructor |].
    split; [by apply Hint |]. split; [lia |]. by rewrite app_nil_r.
Qed.

End InsertionMore.

Lemma insert_movies_ids_are_positions_witness :
  let o := run RefWorld.handler
             (insert_movies Samples.movies_service
                [[1%Q; 0%Q]; [0%Q; 1%Q]]
                [{[ "movie_id" := VInt 50 ]}; ∅; ∅]) Samples.empty_movies in
  result o = Ok tt /\
  ps_id <$> upserted_points (calls o) = [0; 1] /\
  (ps_payload <$> upserted_points (calls o)) !! 0%nat
  = Some (movie_payload 0 {[ "movie_id" := VInt 50 ]}).
Proof.
  intros o.
  assert (Hr : result o = Ok tt) by (vm_compute; reflexivity).
  destruct (insert_movies_ids_are_positions RefWorld.handler Samples.movies_service
              [[1%Q; 0%Q]; [0%Q; 1%Q]] [{[ "movie_id" := VInt 50 ]}; ∅; ∅]
              Samples.empty_movies Hr) as [Hids _].
  split; [exact Hr |]. split; [exact Hids |]. vm_compute. reflexivity.
Defined.

Lemma insert_movies_batches_witness :
  let o := run RefWorld.handler
             (insert_movies Samples.movies_service
                [[1%Q; 0%Q]; [0%Q; 1%Q]]
                [{[ "movie_id" := VInt 50 ]}; ∅; ∅]) Samples.empty_movies in
  result o = Ok tt /\ Z.of_nat (length (calls o)) = 1.
Proof.
  intros o.
  assert (Hr : result o = Ok tt) by (vm_compute; reflexivity).
  destruct (insert_movies_batches RefWorld.handler Samples.movies_service
              [[1%Q; 0%Q]; [0%Q; 1%Q]] [{[ "movie_id" := VInt 50 ]}; ∅; ∅]
              Samples.empty_movies) as (_ & Hok & _).
  split; [exact Hr |]. exact (proj1 (Hok Hr)).
Defined.

Lemma save_user_embedding_creates_when_missing_witness :
  let o := run RefWorld.handler
             (save_user_embedding Samples.movies_service 7 [1%Q; 0%Q; 0%Q])
             Samples.empty_movies in
  calls o !! 1%nat
  = Some (Called (QdrantCreateCollection "user_embeddings" 3) (Ok tt)).
Proof.
  intros o.
  destruct (save_user_embedding_creates_when_missing RefWorld.handler
              Samples.movies_service 7 [1%Q; 0%Q; 0%Q] Samples.empty_movies)
    as (_ & _ & Hmissing).
  exact (proj1 (Hmissing (RefWorld.no_collection "user_embeddings") eq_refl)).
Defined.

Lemma find_similar_users_excludes_self_witness :
  let users : list PointStruct :=
    [ {| ps_id := 7; ps_vector := [1%Q; 0%Q];
         ps_payload := {[ "user_id" := VInt 7 ]} |};
      {| ps_id := 9; ps_vector := [(1 # 2)%Q; 0%Q];
         ps_payload := {[ "user_id" := VInt 9 ]} |} ] in
  let w := RefWorld.set_collections Samples.empty_movies
             {[ "user_embeddings" := RefWorld.collection_of 2 users ]} in
  exists found,
    result (run RefWorld.handler
              (find_similar_users (fun _ => Ret (Some [1%Q; 0%Q])) 7 5) w)
    = Ok found /\
    (fun u => dict_get u "user_id") <$> found = [VInt 9].
Proof.
  intros users w.
  destruct (find_similar_users_excludes_self RefWorld.handler
              (fun _ => Ret (Some [1%Q; 0%Q])) 7 5 w)
    as (found & Hr & _).
  exists found. split; [exact Hr |].
  assert (Hf : Ok found
               = Ok [ ({[ "user_id" := VInt 9; "similarity_score" := VFloat 1;
                          "created_at" := VNone ]} : Dict) ]).
  { rewrite <- Hr. vm_compute. reflexivity. }
  injection Hf as ->. vm_compute. reflexivity.
Defined.

(** ** [database.py]: failures, the cache of sequences and of movies *)

Lemma cached_text_Some (text : string) : text <> "" -> cached_text (Some text) = Some text.
Proof.
  intros Hne. unfold cached_text. by destruct (String.eqb_spec text "").
Qed.

Ltac cached_text_known Hne :=
  apply String.eqb_neq in Hne; simpl; unfold cached_text; rewrite Hne.

Section DatabaseMore.
Context {C : Codec} {W : Type} (h : Handler W).

Lemma get_user_sequence_failed_call (user_id : Z) (w : W) :
  existsb is_failed_call (calls (run h (get_user_sequence user_id) w)) = true ->
  result (run h (get_user_sequence user_id) w) = Ok [].
Proof.
  unfold get_user_sequence, call. simpl.
  destruct (h _ (RedisGet _) w) as [[cached | e] w1]; simpl; [| done].
  destruct (cached_text cached) as [text |]; simpl.
  - destruct (json_loads_sequence text); done.
  - destruct (h _ (RatingsFindOne _) w1) as [[[d |] | e] w2]; simpl; [| done | done].
    destruct (h _ (RatingsFindSorted _) w2) as [[docs | e] w3]; simpl; [| done].
    destruct (h _ (RedisSetex _ _ _) w3) as [[[] | e] w4]; done.
Qed.

(** X11.  [get_user_sequence] hides every failure: when any call it
    makes raises (Redis or MongoDB, the final cache write included) the
    answer is the empty sequence, as for a user without ratings.  A
    cached text that cannot be decoded gives the empty sequence as well,
    with no call to MongoDB, and the entry is left in the cache. *)
Theorem get_user_sequence_hides_failures (user_id : Z) (w : W) :
  let o := run h (get_user_sequence user_id) w in
  let key := user_sequence_key user_id in
  (existsb is_failed_call (calls o) = true -> result o = Ok []) /\
  (forall text w1 e,
     h _ (RedisGet key) w = (Ok (Some text), w1) -> text <> "" ->
     json_loads_sequence text = Raise e ->
     result o = Ok [] /\ calls o = [Called (RedisGet key) (Ok (Some text))] /\
     world o = w1).
Proof.
  intros o key. split; [apply get_user_sequence_failed_call |].
  intros text w1 e Hget Hne Hbad. subst o key.
  unfold get_user_sequence, call. simpl. rewrite Hget.
  cached_text_known Hne. simpl. rewrite Hbad. done.
Qed.

(** X12.  Because the lookup hides failures, [recommend] answers a user
    whose history could not be read (a call of the lookup raised) with
    the no-history error, HTTP 404, and calls neither the model nor the
    search engine. *)
Theorem recommend_lookup_failure_is_404 (model : bool)
    (qdrant_instance : QdrantService)
    (request : ApiVectorial.RecommendationRequest) (w : W) :
  let uid := ApiVectorial.user_id request in
  let lookup := run h (get_user_sequence uid) w in
  let o := run h (ApiVectorial.recommend model qdrant_instance request) w in
  existsb is_failed_call (calls lookup) = true ->
  result o = Raise (ApiVectorial.no_history uid) /\ calls o = calls lookup.
Proof.
  intros uid lookup o Hfailed. subst o lookup uid.
  apply get_user_sequence_failed_call in Hfailed.
  unfold ApiVectorial.recommend. rewrite run_try_except, run_bind.
  rewrite Hfailed. simpl. by rewrite !app_nil_r.
Qed.

(** X13.  With Redis behaving as a store and a sequence whose text
    decodes to it again, a sequence that [get_user_sequence] read from
    MongoDB and cached is answered from the cache by the next lookup:
    that one makes a single call, the read of the key, and returns the
    same sequence. *)
Theorem get_user_sequence_cached (RS : RedisStore h) (user_id : Z) (w : W)
    (sequence : list Z) :
  let o := run h (get_user_sequence user_id) w in
  let again := run h (get_user_sequence user_id) (world o) in
  json_loads_sequence (str_of_sequence sequence) = Ok sequence ->
  str_of_sequence sequence <> "" ->
  result o = Ok sequence ->
  existsb is_setex_call (calls o) = true ->
  existsb is_failed_call (calls o) = false ->
  result again = Ok sequence /\
  calls again = [Called (RedisGet (user_sequence_key user_id))
                   (Ok (Some (str_of_sequence sequence)))].
Proof.
  intros o again Hcodec Hne. subst again o.
  unfold get_user_sequence at 1 2 3 4. unfold call. simpl.
  destruct (h _ (RedisGet _) w) as [[cached | e] w1]; simpl; [| done].
  destruct (cached_text cached) as [text |]; simpl.
  { destruct (json_loads_sequence text); done. }
  destruct (h _ (RatingsFindOne _) w1) as [[[d |] | e] w2]; simpl; [| done | done].
  destruct (h _ (RatingsFindSorted _) w2) as [[docs | e] w3]; simpl; [| done].
  destruct (h _ (RedisSetex _ _ _) w3) as [[[] | e] w4] eqn:Hset; simpl; [| done].
  intros [= <-] _ _.
  destruct (get_after_setex h RS _ _ _ _ _ Hset) as [w5 Hget].
  unfold get_user_sequence, call. simpl. rewrite Hget.
  cached_text_known Hne. simpl. rewrite Hcodec. done.
Qed.

(** X14.  With Redis behaving as a store, after [update_user_rating]
    has succeeded the next [get_user_sequence] of that user misses the
    cache and asks MongoDB. *)
Theorem update_user_rating_invalidates (RS : RedisStore h)
    (user_id movie_id : Z) (rating : Q) (timestamp : option Z) (w : W) :
  let o := run h (update_user_rating user_id movie_id rating timestamp) w in
  let again := run h (get_user_sequence user_id) (world o) in
  result o = Ok tt ->
  exists answer rest,
    calls again = Called (RedisGet (user_sequence_key user_id)) (Ok None)
                  :: Called (RatingsFindOne user_id) answer :: rest.
Proof.
  intros o again. subst again o.
  assert (Hagain : forall w3 w4,
             h _ (RedisDelete (user_sequence_key user_id)) w3 = (Ok tt, w4) ->
             exists answer rest,
               calls (run h (get_user_sequence user_id) w4)
               = Called (RedisGet (user_sequence_key user_id)) (Ok None)
                 :: Called (RatingsFindOne user_id) answer :: rest).
  { intros w3 w4 Hdel.
    destruct (get_after_delete h RS _ _ _ Hdel) as [w5 Hget].
    unfold get_user_sequence, call. simpl. rewrite Hget. simpl.
    destruct (h _ (RatingsFindOne _) w5) as [answer w6]. simpl.
    match goal with
    | |- context [calls ?o] => exists answer, (calls o)
    end. reflexivity. }
  unfold update_user_rating, call.
  destruct timestamp as [t |]; simpl.
  - destruct (h _ (RatingsUpdateOne _ _ _ _) w) as [[[] | e] w2]; simpl; [| done].
    destruct (h _ (RedisDelete _) w2) as [[[] | e] w3] eqn:Hdel; simpl; [| done].
    intros _. by eapply Hagain.
  - destruct (h _ TimeNow w) as [[t | e] w1]; simpl; [| done].
    destruct (h _ (RatingsUpdateOne _ _ _ _) w1) as [[[] | e] w2]; simpl; [| done].
    destruct (h _ (RedisDelete _) w2) as [[[] | e] w3] eqn:Hdel; simpl; [| done].
    intros _. by eapply Hagain.
Qed.

(** X15.  [get_movie_metadata] never raises.  When the cached text of a
    movie cannot be decoded as JSON the entry is deleted and, the
    deletion having succeeded, MongoDB is asked; when the deletion
    raises, the answer is [None] and MongoDB is not asked. *)
Theorem get_movie_metadata_corrupt_cache (movie_id : Value) (w w1 : W)
    (text msg : string) :
  let o := run h (get_movie_metadata movie_id) w in
  let key := movie_metadata_key movie_id in
  let deleted := h _ (RedisDelete key) w1 in
  h _ (RedisGet key) w = (Ok (Some text), w1) -> text <> "" ->
  json_loads text = Raise (JSONDecodeError msg) ->
  exists metadata rest,
    result o = Ok metadata /\
    calls o = Called (RedisGet key) (Ok (Some text))
              :: Called (RedisDelete key) (fst deleted) :: rest /\
    match fst deleted with
    | Ok _ => exists answer rest',
                rest = Called (MoviesFindOne movie_id) answer :: rest'
    | Raise _ => rest = [] /\ metadata = None
    end.
Proof.
  intros o key deleted Hget Hne Hbad. subst o deleted key.
  unfold get_movie_metadata, cached_movie, call. simpl. rewrite Hget.
  cached_text_known Hne. simpl. rewrite Hbad. simpl.
  destruct (h _ (RedisDelete _) w1) as [[[] | e] w2]; simpl.
  - destruct (h _ (MoviesFindOne _) w2) as [[[m |] | e] w3]; simpl.
    + case_bool_decide; simpl; [eauto 10 |].
      destruct (h _ (RedisSetex _ _ _) w3) as [[[] | e] w4]; simpl; eauto 10.
    + eauto 10.
    + eauto 10.
  - eauto 10.
Qed.

End DatabaseMore.

Lemma ref_redis_store : RedisStore RefWorld.handler.
Proof.
  split.
  - intros key ttl value w w1 [= <-]. eexists. simpl. by rewrite lookup_insert_eq.
  - intros key w w1 [= <-]. eexists. simpl. by rewrite lookup_delete_eq.
Qed.

Lemma get_user_sequence_hides_failures_witness :
  result (run RefWorld.handler (get_user_sequence (C := RefWorld.codec) 8)
            Samples.mongo_down) = Ok [] /\
  result (run RefWorld.handler (get_user_sequence (C := RefWorld.codec) 7)
            (RefWorld.set_redis Samples.catalogue {[ "user_sequence:7" := "[5, x]" ]}))
  = Ok [].
Proof.
  split.
  - apply (proj1 (get_user_sequence_hides_failures (C := RefWorld.codec)
                    RefWorld.handler 8 Samples.mongo_down)).
    vm_compute. reflexivity.
  - eapply (proj2 (get_user_sequence_hides_failures (C := RefWorld.codec)
                     RefWorld.handler 7 _) "[5, x]").
    + reflexivity.
    + discriminate.
    + vm_compute. reflexivity.
Defined.

Lemma recommend_lookup_failure_is_404_witness :
  result (run RefWorld.handler
            (ApiVectorial.recommend (C := RefWorld.codec) true
               Samples.movies_service (Samples.request_for 8 None))
            Samples.mongo_down)
  = Raise (ApiVectorial.no_history 8).
Proof.
  apply (recommend_lookup_failure_is_404 (C := RefWorld.codec) RefWorld.handler
           true Samples.movies_service (Samples.request_for 8 None)
           Samples.mongo_down).
  vm_compute. reflexivity.
Defined.

Lemma get_user_sequence_cached_witness :
  let o := run RefWorld.handler (get_user_sequence (C := RefWorld.codec) 7)
             Samples.catalogue in
  let again := run RefWorld.handler (get_user_sequence (C := RefWorld.codec) 7)
                 (world o) in
  result o = Ok [5; 3] /\ existsb is_mongo_call (calls o) = true /\
  result again = Ok [5; 3] /\ existsb is_mongo_call (calls again) = false.
Proof.
  intros o again.
  assert (Hr : result o = Ok [5; 3]) by (vm_compute; reflexivity).
  destruct (get_user_sequence_cached (C := RefWorld.codec) RefWorld.handler
              ref_redis_store 7 Samples.catalogue [5; 3]) as [Hagain Hcalls].
  - vm_compute. reflexivity.
  - discriminate.
  - exact Hr.
  - vm_compute. reflexivity.
  - vm_compute. reflexivity.
  - split; [exact Hr |]. split; [vm_compute; reflexivity |].
    split; [exact Hagain |]. subst again o. by rewrite Hcalls.
Defined.

Lemma update_user_rating_invalidates_witness :
  let w := RefWorld.set_redis Samples.catalogue {[ "user_sequence:7" := "[5, 3]" ]} in
  let o := run RefWorld.handler (update_user_rating 7 1 (9 # 2)%Q None) w in
  let again := run RefWorld.handler (get_user_sequence (C := RefWorld.codec) 7)
                 (world o) in
  result (run RefWorld.handler (get_user_sequence (C := RefWorld.codec) 7) w)
  = Ok [5; 3] /\
  result o = Ok tt /\
  (exists answer rest,
     calls again = Called (RedisGet (user_sequence_key 7)) (Ok None)
                   :: Called (RatingsFindOne 7) answer :: rest) /\
  result again = Ok [5; 3; 1].
Proof.
  intros w o again.
  assert (Hr : result o = Ok tt) by (vm_compute; reflexivity).
  split; [vm_compute; reflexivity |]. split; [exact Hr |]. split.
  - exact (update_user_rating_invalidates (C := RefWorld.codec) RefWorld.handler
             ref_redis_store 7 1 (9 # 2)%Q None w Hr).
  - vm_compute. reflexivity.
Defined.

Lemma get_movie_metadata_corrupt_cache_witness :
  let w := RefWorld.set_redis Samples.catalogue {[ "movie_metadata:1" := "{" ]} in
  let o := run RefWorld.handler (get_movie_metadata (C := RefWorld.codec) (VInt 1)) w in
  exists metadata rest,
    result o = Ok metadata /\
    calls o = Called (RedisGet "movie_metadata:1") (Ok (Some "{"))
              :: Called (RedisDelete "movie_metadata:1") (Ok tt) :: rest.
Proof.
  intros w o.
  destruct (get_movie_metadata_corrupt_cache (C := RefWorld.codec) RefWorld.handler
              (VInt 1) w w "{" "Expecting value" eq_refl ltac:(discriminate) eq_refl)
    as (metadata & rest & Hr & Hcalls & _).
  exists metadata, rest. split; [exact Hr | exact Hcalls].
Defined.

(** ** [api_ml32m_vectorial.py]: the model input, failures and ranking *)

(** X16.  The sequence handed to the model always has 200 entries: a
    history of at most 200 movies is padded on the left with zeros, a
    longer one is cut to its last 200 movies. *)
Theorem padded_sequence_shape (user_sequence : list Z) :
  let padded := ApiVectorial.padded_sequence user_sequence in
  let n := length user_sequence in
  length padded = 200%nat /\
  ((n <= 200)%nat -> padded = replicate (200 - n) 0 ++ user_sequence) /\
  ((200 <= n)%nat -> padded = drop (n - 200) user_sequence).
Proof.
  intros padded n. subst padded n.
  unfold ApiVectorial.padded_sequence, ApiVectorial.max_seq_len, ApiVectorial.last_n.
  split; [| split].
  - rewrite length_app, length_replicate, length_drop. lia.
  - intros Hn. rewrite Nat.min_l by lia. by rewrite Nat.sub_diag.
  - intros Hn. rewrite Nat.min_r by lia. by rewrite Nat.sub_diag.
Qed.

Lemma padded_sequence_shape_witness :
  ApiVectorial.padded_sequence [5; 3] = replicate 198 0 ++ [5; 3].
Proof.
  exact (proj1 (proj2 (padded_sequence_shape [5; 3])) ltac:(simpl; lia)).
Defined.

Lemma non_increasing_bound (x : Q) (l : list Q) :
  non_increasing (x :: l) -> Forall (fun y => (y <= x)%Q) l.
Proof.
  revert x. induction l as [| y l IH]; intros x H; [constructor |].
  destruct H as [Hyx H]. constructor; [exact Hyx |].
  eapply Forall_impl; [apply IH, H |].
  intros z Hz. simpl in Hz. by apply Qle_trans with y.
Qed.

Lemma non_increasing_from_bound (x : Q) (l : list Q) :
  Forall (fun y => (y <= x)%Q) l -> non_increasing l -> non_increasing (x :: l).
Proof.
  destruct l as [| y l]; [done |]. intros Hb Hs.
  apply Forall_cons in Hb as [Hy _]. split; assumption.
Qed.

Lemma Forall_sublist {A : Type} (P : A -> Prop) (l1 l2 : list A) :
  sublist l1 l2 -> Forall P l2 -> Forall P l1.
Proof.
  induction 1 as [| x l1 l2 Hsub IH | x l1 l2 Hsub IH]; intros Hall.
  - constructor.
  - apply Forall_cons in Hall as [Hx Hall]. constructor; auto.
  - apply Forall_cons in Hall as [_ Hall]. auto.
Qed.

Lemma non_increasing_sublist (l1 l2 : list Q) :
  sublist l1 l2 -> non_increasing l2 -> non_increasing l1.
Proof.
  induction 1 as [| x l1 l2 Hsub IH | x l1 l2 Hsub IH]; intros Hs.
  - exact I.
  - apply non_increasing_from_bound.
    + eapply Forall_sublist; [exact Hsub | by apply non_increasing_bound].
    + apply IH. by eapply non_increasing_tail.
  - apply IH. by eapply non_increasing_tail.
Qed.

Lemma score_of_format_result (points : list ScoredPoint) :
  score_of <$> (format_result <$> points) = sp_score <$> points.
Proof.
  rewrite <- list_fmap_compose. apply list_fmap_ext. intros _ p _.
  unfold compose, score_of, format_result.
  rewrite !lookup_insert_ne by done. by rewrite lookup_singleton_eq.
Qed.

Lemma metadata_update_keeps_score (rec md : Dict) :
  dict_update rec (ApiVectorial.metadata_update md) !! "score" = rec !! "score".
Proof.
  unfold dict_update, ApiVectorial.metadata_update.
  apply lookup_union_r.
  rewrite !lookup_insert_ne by done. apply lookup_singleton_ne. done.
Qed.

Lemma slice_to_sublist {A : Type} (k : Z) (l : list A) :
  sublist (ApiVectorial.slice_to k l) l.
Proof. unfold ApiVectorial.slice_to. destruct (k <? 0); apply sublist_take. Qed.

Section RecommendMore.
Context {C : Codec} {W : Type} (h : Handler W).

Lemma enrich_keeps_score (recs recs' : list Dict) (w : W) :
  result (run h (ApiVectorial.enrich recs) w) = Ok recs' ->
  Forall2 (fun rec rec' => rec' !! "score" = rec !! "score") recs recs'.
Proof.
  revert recs' w. induction recs as [| rec rest IH]; intros recs' w.
  - intros [= <-]. constructor.
  - intros H. cbn [ApiVectorial.enrich] in H.
    apply run_bind_Ok in H as (movie_id & _ & H).
    apply run_bind_Ok in H as (md & _ & H).
    apply run_bind_Ok in H as (rest' & Hrest & H).
    simpl in H. injection H as <-.
    constructor; [| by eapply IH].
    destruct md as [d |]; [| reflexivity].
    case_bool_decide; [reflexivity | apply metadata_update_keeps_score].
Qed.

Lemma same_score_of (recs recs' : list Dict) :
  Forall2 (fun rec rec' => rec' !! "score" = rec !! "score") recs recs' ->
  score_of <$> recs' = score_of <$> recs.
Proof.
  induction 1 as [| r r' rs rs' Hs _ IH]; [reflexivity |].
  rewrite !fmap_cons, IH. f_equal. unfold score_of. by rewrite Hs.
Qed.

(** X17.  When the model raises on the padded history, whatever the
    exception, [recommend] fails with the fixed embedding error (HTTP
    500) whose detail does not mention the exception, and the search
    engine is not called. *)
Theorem recommend_model_failure (qdrant_instance : QdrantService)
    (request : ApiVectorial.RecommendationRequest) (w w2 : W) (e : Exn) :
  let uid := ApiVectorial.user_id request in
  let lookup := run h (get_user_sequence uid) w in
  let o := run h (ApiVectorial.recommend true qdrant_instance request) w in
  user_history h w uid <> [] ->
  h _ (ModelForward (ApiVectorial.padded_sequence (user_history h w uid)))
    (world lookup) = (Raise e, w2) ->
  result o = Raise ApiVectorial.embedding_failed /\
  calls o = calls lookup ++
            [Called (ModelForward (ApiVectorial.padded_sequence (user_history h w uid)))
               (Raise e)] /\
  existsb is_search_call (calls o) = false.
Proof.
  intros uid lookup o Hne Hmodel. subst o lookup uid.
  destruct (get_user_sequence_calls h (ApiVectorial.user_id request) w) as [_ Hnosearch].
  unfold ApiVectorial.recommend.
  rewrite run_try_except, run_bind, get_user_sequence_returns.
  destruct (user_history h w (ApiVectorial.user_id request)) as [| x l] eqn:Hh; [done |].
  cbn zeta iota beta. cbn [result world calls].
  rewrite run_bind. unfold ApiVectorial.get_user_embedding.
  rewrite run_try_except, run_bind, run_call, Hmodel.
  remember (run h (get_user_sequence (ApiVectorial.user_id request)) w) as lookup.
  simpl. rewrite !app_nil_r. split; [reflexivity |]. split; [reflexivity |].
  rewrite existsb_app, Hnosearch. reflexivity.
Qed.

(** X18.  A response of [recommend] names the user and the method of
    the request, counts its recommendations, of which there are at most
    [k] for [k >= 0], and gives the size of the history, which is not
    empty.  Over an engine that ranks its results, every recommendation
    carries a score and the recommendations come by non-increasing
    score: removing the seen movies, cutting to [k] and adding the
    metadata keep the engine's order and scores. *)
Theorem recommend_keeps_ranking (stored : W -> string -> list PointStruct)
    (EC : EngineContract h stored) (model : bool) (qdrant_instance : QdrantService)
    (request : ApiVectorial.RecommendationRequest) (w : W)
    (response : ApiVectorial.RecommendationResponse) :
  result (run h (ApiVectorial.recommend model qdrant_instance request) w)
    = Ok response ->
  let recs := ApiVectorial.recommendations response in
  ApiVectorial.resp_user_id response = ApiVectorial.user_id request /\
  ApiVectorial.resp_method response = ApiVectorial.method request /\
  ApiVectorial.count response = Z.of_nat (length recs) /\
  (0 <= ApiVectorial.k request -> ApiVectorial.count response <= ApiVectorial.k request) /\
  ApiVectorial.user_history_size response
  = Z.of_nat (length (user_history h w (ApiVectorial.user_id request))) /\
  0 < ApiVectorial.user_history_size response /\
  Forall (fun rec => exists s, rec !! "score" = Some (VFloat s)) recs /\
  non_increasing (score_of <$> recs).
Proof.
  intros H recs.
  unfold ApiVectorial.recommend in H.
  apply run_try_except_Ok in H; [| intros; apply reraise_http_raises].
  apply run_bind_Ok in H as (seq & Hseq & H).
  rewrite get_user_sequence_returns in Hseq. injection Hseq as <-.
  destruct (user_history h w (ApiVectorial.user_id request)) as [| x l] eqn:Hh;
    [discriminate |].
  apply run_bind_Ok in H as (emb & _ & H).
  destruct emb as [v |]; [| discriminate].
  apply run_bind_Ok in H as (similar & Hsim & H).
  apply run_bind_Ok in H as (unseen & Hunseen & H).
  rewrite run_lift in Hunseen, H. simpl in Hunseen, H.
  apply run_bind_Ok in H as (recs' & Henrich & H).
  simpl in H. injection H as <-. subst recs. cbn.
  pose proof (enrich_keeps_score _ _ _ Henrich) as Hscore.
  destruct (search_similar_ranked h stored EC _ _ _ _ _ _ Hsim)
    as (_ & points & -> & Hsorted & _).
  destruct (not_seen_outside _ _ _ Hunseen) as [_ Hsub].
  assert (Hcut : sublist (ApiVectorial.slice_to (ApiVectorial.k request) unseen)
                   (format_result <$> points))
    by (etransitivity; [apply slice_to_sublist | exact Hsub]).
  split; [reflexivity |]. split; [reflexivity |]. split; [reflexivity |].
  split.
  { intros Hk. rewrite <- (Forall2_length _ _ _ Hscore). by apply slice_to_length. }
  split; [reflexivity |]. split; [lia |]. split.
  - assert (Hall : Forall (fun rec : Dict => exists s, rec !! "score" = Some (VFloat s))
                     (ApiVectorial.slice_to (ApiVectorial.k request) unseen)).
    { eapply Forall_sublist; [exact Hcut |].
      apply Forall_fmap, Forall_forall. intros p _. exists (sp_score p).
      unfold compose, format_result.
      rewrite !lookup_insert_ne by done. apply lookup_singleton_eq. }
    assert (Hgen : forall l l' : list Dict,
               Forall2 (fun rec rec' => rec' !! "score" = rec !! "score") l l' ->
               Forall (fun rec : Dict => exists s, rec !! "score" = Some (VFloat s)) l ->
               Forall (fun rec : Dict => exists s, rec !! "score" = Some (VFloat s)) l').
    { induction 1 as [| r r' rs rs' Hs _ IH]; intros Hl; [constructor |].
      apply Forall_cons in Hl as [[s Hr] Hl].
      constructor; [| by apply IH]. exists s. congruence. }
    exact (Hgen _ _ Hscore Hall).
  - rewrite (same_score_of _ _ Hscore).
    eapply non_increasing_sublist; [apply fmap_sublist, Hcut |].
    by rewrite score_of_format_result.
Qed.

End RecommendMore.

Lemma recommend_model_failure_witness :
  user_history (C := RefWorld.codec) model_down Samples.catalogue 7 = [5; 3] /\
  result (run model_down
            (ApiVectorial.recommend (C := RefWorld.codec) true
               Samples.movies_service (Samples.request_for 7 None))
            Samples.catalogue)
  = Raise ApiVectorial.embedding_failed.
Proof.
  split; [vm_compute; reflexivity |].
  refine (proj1 (recommend_model_failure (C := RefWorld.codec) model_down
                   Samples.movies_service (Samples.request_for 7 None)
                   Samples.catalogue
                   (world (run model_down (get_user_sequence (C := RefWorld.codec) 7)
                             Samples.catalogue))
                   (ExternalError "CUDA out of memory") _ _)).
  - vm_compute. discriminate.
  - vm_compute. reflexivity.
Defined.

Lemma recommend_keeps_ranking_witness :
  score_of <$> Samples.recommendations_for_7 = [1%Q; (3 # 5)%Q] /\
  non_increasing (score_of <$> Samples.recommendations_for_7).
Proof.
  split; [vm_compute; reflexivity |].
  refine (proj2 (proj2 (proj2 (proj2 (proj2 (proj2 (proj2
            (recommend_keeps_ranking (C := RefWorld.codec) RefWorld.handler
               RefWorld.stored ref_engine_contract
               true Samples.movies_service (Samples.request_for 7 None)
               Samples.catalogue
               {| ApiVectorial.resp_user_id := 7;
                  ApiVectorial.recommendations := Samples.recommendations_for_7;
                  ApiVectorial.resp_method := "vectorial";
                  ApiVectorial.count := 2;
                  ApiVectorial.user_history_size := 2 |} _)))))))).
  vm_compute. reflexivity.
Defined.

(** ** [api_ml32m_vectorial.py]: [similar_movies] *)

Lemma others_spec (movie_id : Z) (similar kept : list Dict) :
  SimilarMovies.others movie_id similar = Ok kept ->
  Forall (fun m => exists v, m !! "movie_id" = Some v /\ ne_int v movie_id = true) kept /\
  sublist kept similar.
Proof.
  revert kept. induction similar as [| movie rest IH]; intros kept; simpl.
  - intros [= <-]. split; constructor.
  - unfold dict_index. destruct (movie !! "movie_id") as [v |] eqn:Hid; [| discriminate].
    simpl. destruct (SimilarMovies.others movie_id rest) as [kept' |]; [| discriminate].
    simpl. destruct (IH kept' eq_refl) as [Hout Hsub].
    destruct (ne_int v movie_id) eqn:Hne; intros [= <-].
    + split; [| by apply sublist_skip]. constructor; [| exact Hout]. eauto.
    + split; [exact Hout | by apply sublist_cons].
Qed.

Section SimilarMoviesFacts.
Context {C : Codec} {W : Type} (h : Handler W).
Variable get_movie_by_id : Z -> Prog (option (Dict * Vector)).

(** X19.  A response of [similar_movies] never lists the movie asked
    about: the results of the search, made for [k + 1] movies, that
    carry its id are removed, the rest is cut to [k], and the metadata
    added afterwards keeps each id.  The response counts its movies,
    names the movie asked about as its base, and exists only when the
    vector found for that movie has 256 components. *)
Theorem similar_movies_excludes_base (qdrant_instance : QdrantService)
    (request : SimilarMovies.SimilarMoviesRequest) (w : W)
    (response : SimilarMovies.SimilarMoviesResponse) :
  result (run h (SimilarMovies.similar_movies get_movie_by_id qdrant_instance request) w)
    = Ok response ->
  let found := SimilarMovies.similar_movies_found response in
  let base := SimilarMovies.movie_id request in
  Forall (fun m => exists v, m !! "movie_id" = Some v /\ ne_int v base = true) found /\
  (forall m n, m ∈ found -> m !! "movie_id" = Some (VInt n) -> n <> base) /\
  SimilarMovies.count response = Z.of_nat (length found) /\
  (0 <= SimilarMovies.k request ->
   SimilarMovies.count response <= SimilarMovies.k request) /\
  SimilarMovies.base_movie response !! "movie_id" = Some (VInt base) /\
  exists payload vector,
    result (run h (get_movie_by_id base) w) = Ok (Some (payload, vector)) /\
    Z.of_nat (length vector) = 256.
Proof.
  intros H found base.
  unfold SimilarMovies.similar_movies in H.
  apply run_try_except_Ok in H; [| intros; apply reraise_http_raises].
  apply run_bind_Ok in H as (found_base & Hbase & H).
  destruct found_base as [[payload [| x v]] |]; try discriminate H.
  apply run_bind_Ok in H as ([] & Hdim & H).
  case_bool_decide as Hlen; [| discriminate Hdim]. clear Hdim.
  apply run_bind_Ok in H as (similar & _ & H).
  apply run_bind_Ok in H as (kept & Hkept & H).
  rewrite run_lift in Hkept, H. cbn [result world] in Hkept, H.
  apply run_bind_Ok in H as (base_metadata & _ & H).
  apply run_bind_Ok in H as (recs' & Henrich & H).
  cbn [run result] in H. injection H as <-. subst found. cbn.
  apply enrich_keeps_ids in Henrich.
  destruct (others_spec _ _ _ Hkept) as [Hout _].
  apply (slice_to_Forall _ (SimilarMovies.k request)) in Hout.
  assert (Hgen : forall l l' : list Dict,
             Forall2 same_movie_id l l' ->
             Forall (fun m : Dict => exists v, m !! "movie_id" = Some v /\
                                              ne_int v base = true) l ->
             Forall (fun m : Dict => exists v, m !! "movie_id" = Some v /\
                                              ne_int v base = true) l').
  { induction 1 as [| r r' rs rs' Hid _ IH]; intros Hl; [constructor |].
    apply Forall_cons in Hl as [(v0 & Hv0 & Hne) Hl].
    constructor; [| by apply IH]. exists v0. split; [| exact Hne].
    unfold same_movie_id in Hid. congruence. }
  pose proof (Hgen _ _ Henrich Hout) as Hall.
  split; [exact Hall |]. split.
  { intros m n Hm Hid. rewrite Forall_forall in Hall.
    destruct (Hall m Hm) as (v0 & Hv0 & Hne).
    apply ne_int_VInt. congruence. }
  split; [reflexivity |]. split.
  { intros Hk. rewrite <- (Forall2_length _ _ _ Henrich). by apply slice_to_length. }
  split.
  { unfold SimilarMovies.base_movie_of. apply lookup_insert_eq. }
  exists payload, (x :: v). split; [exact Hbase | exact Hlen].
Qed.

(** X20.  [similar_movies] answers HTTP 404 when the movie is not found
    or its vector is empty, and HTTP 500 when the vector does not have
    256 components; in both cases nothing is called after the lookup of
    the movie. *)
Theorem similar_movies_rejects_vector (qdrant_instance : QdrantService)
    (request : SimilarMovies.SimilarMoviesRequest) (w : W) :
  let base := SimilarMovies.movie_id request in
  let lookup := run h (get_movie_by_id base) w in
  let o := run h (SimilarMovies.similar_movies get_movie_by_id qdrant_instance request) w in
  match result lookup with
  | Ok None | Ok (Some (_, [])) =>
      result o = Raise (SimilarMovies.not_found base) /\ calls o = calls lookup
  | Ok (Some (_, vector)) =>
      Z.of_nat (length vector) <> 256 ->
      result o = Raise (SimilarMovies.wrong_dimension base (Z.of_nat (length vector))) /\
      calls o = calls lookup
  | Raise e =>
      is_http e = false ->
      result o = Raise (HTTPException 500 ("Error interno: " +:+ exn_str e)) /\
      calls o = calls lookup
  end.
Proof.
  intros base lookup o. subst o lookup base.
  unfold SimilarMovies.similar_movies. rewrite run_try_except, run_bind.
  destruct (result (run h (get_movie_by_id (SimilarMovies.movie_id request)) w))
    as [[[payload [| x v]] |] | e].
  - cbn. by rewrite !app_nil_r.
  - intros Hlen. cbn zeta iota beta. cbn [result world calls].
    rewrite run_bind. rewrite bool_decide_eq_false_2 by exact Hlen.
    cbn. by rewrite !app_nil_r.
  - cbn. by rewrite !app_nil_r.
  - intros Hhttp. cbn [result world calls].
    destruct e; try discriminate Hhttp; cbn; by rewrite !app_nil_r.
Qed.

End SimilarMoviesFacts.

Lemma similar_movies_excludes_base_witness :
  let lookup : Z -> Prog (option (Dict * Vector)) :=
    fun _ => Ret (Some (∅, 1%Q :: replicate 255 0%Q)) in
  let request := {| SimilarMovies.movie_id := 1; SimilarMovies.k := 2;
                    SimilarMovies.filters := None |} in
  exists response,
    result (run RefWorld.handler
              (SimilarMovies.similar_movies (C := RefWorld.codec) lookup
                 Samples.movies_service request) Samples.wide_catalogue)
    = Ok response /\
    (fun m => dict_get m "movie_id") <$> SimilarMovies.similar_movies_found response
    = [VInt 4; VInt 3] /\
    Forall (fun m => exists v, m !! "movie_id" = Some v /\ ne_int v 1 = true)
      (SimilarMovies.similar_movies_found response).
Proof.
  intros lookup request.
  destruct (result (run RefWorld.handler
              (SimilarMovies.similar_movies (C := RefWorld.codec) lookup
                 Samples.movies_service request) Samples.wide_catalogue))
    as [response | e] eqn:Hr; [| vm_compute in Hr; discriminate Hr].
  exists response. split; [reflexivity |]. split.
  - vm_compute in Hr. injection Hr as <-. vm_compute. reflexivity.
  - exact (proj1 (similar_movies_excludes_base (C := RefWorld.codec) RefWorld.handler
                    lookup Samples.movies_service request Samples.wide_catalogue
                    response Hr)).
Defined.

Lemma similar_movies_rejects_vector_witness :
  let lookup : Z -> Prog (option (Dict * Vector)) :=
    fun _ => Ret (Some (∅, [1%Q; 0%Q])) in
  let request := {| SimilarMovies.movie_id := 1; SimilarMovies.k := 2;
                    SimilarMovies.filters := None |} in
  result (run RefWorld.handler
            (SimilarMovies.similar_movies (C := RefWorld.codec) lookup
               Samples.movies_service request) Samples.catalogue)
  = Raise (SimilarMovies.wrong_dimension 1 2).
Proof.
  intros lookup request.
  refine (proj1 (similar_movies_rejects_vector (C := RefWorld.codec) RefWorld.handler
                   lookup Samples.movies_service request Samples.catalogue _)).
  discriminate.
Defined.

(** ** [embedding_exporter.py] and [api.py]: user embeddings and their cache *)

Lemma dot_scale (c : Q) (u v : Vector) :
  ~ (c == 0)%Q ->
  (dot ((fun x => x / c) <$> u) ((fun x => x / c) <$> v) == dot u v / (c * c))%Q.
Proof.
  intros Hc. revert v. induction u as [| x u IH]; intros [| y v]; simpl;
    try (field; exact Hc).
  rewrite IH. field. exact Hc.
Qed.

Lemma normalize_unit_norm (linalg_norm : Vector -> Q) (v : Vector) :
  (linalg_norm v * linalg_norm v == norm_sq v)%Q -> ~ (linalg_norm v == 0)%Q ->
  unit_norm (normalize linalg_norm v).
Proof.
  intros Hnorm Hnz. unfold unit_norm, norm_sq, normalize.
  rewrite dot_scale by exact Hnz. fold (norm_sq v). rewrite <- Hnorm.
  field. exact Hnz.
Qed.

Section UserEmbeddings.
Context {W : Type} (h : Handler W).
Variable linalg_norm : Vector -> Q.
Variable drawn_sequence : Z -> list Z.

(** X21.  [extract_user_embeddings] calls the model once per sequence,
    in order, and returns for each sequence the model's answer divided
    by its norm: as many embeddings as sequences, each of unit norm when
    the norm of the answer is not zero.  The first call that raises
    ends the extraction with that exception, and no partial result. *)
Theorem extract_user_embeddings_per_sequence (user_sequences : list (list Z)) (w : W) :
  let o := run h (extract_user_embeddings linalg_norm user_sequences) w in
  match result o with
  | Ok embeddings =>
      exists answers,
        length answers = length user_sequences /\
        calls o = zip_with (fun s a => Called (ModelForward s) (Ok a))
                    user_sequences answers /\
        embeddings = normalize linalg_norm <$> answers /\
        Forall (fun a =>
                  (linalg_norm a * linalg_norm a == norm_sq a)%Q ->
                  ~ (linalg_norm a == 0)%Q ->
                  unit_norm (normalize linalg_norm a)) answers
  | Raise e =>
      exists answers s,
        (length answers < length user_sequences)%nat /\
        user_sequences !! length answers = Some s /\
        calls o = zip_with (fun s a => Called (ModelForward s) (Ok a))
                    user_sequences answers
                  ++ [Called (ModelForward s) (Raise e)]
  end.
Proof.
  revert w. induction user_sequences as [| s rest IH]; intros w.
  - cbn. exists []. repeat split. constructor.
  - cbn [extract_user_embeddings]. cbv zeta. rewrite run_bind, run_call.
    cbn [result world calls].
    destruct (h _ (ModelForward s) w) as [[a | e] w1]; cbn [fst snd].
    + rewrite run_bind. specialize (IH w1). cbv zeta in IH.
      destruct (result (run h (extract_user_embeddings linalg_norm rest) w1))
        as [embs | e].
      * destruct IH as (answers & Hlen & Hcalls & -> & Hunit).
        cbn. exists (a :: answers). rewrite Hcalls, app_nil_r.
        split; [simpl; by rewrite Hlen |]. split; [reflexivity |].
        split; [reflexivity |]. constructor; [| exact Hunit].
        apply normalize_unit_norm.
      * destruct IH as (answers & s' & Hlen & Hs & Hcalls).
        cbn. exists (a :: answers), s'. rewrite Hcalls.
        split; [simpl; lia |]. split; [exact Hs | reflexivity].
    + cbn. exists [], s. split; [simpl; lia |]. split; reflexivity.
Qed.

Lemma get_user_embedding_run (cache : gmap Z Vector) (user_id : Z) (w : W) :
  let o := run h (Api.get_user_embedding linalg_norm drawn_sequence
                    cache user_id) w in
  match cache !! user_id with
  | Some v => o = {| result := Ok (v, cache); world := w; calls := [] |}
  | None =>
      if bool_decide (Api.seed_accepted user_id) then
        let asked := h _ (ModelForward (drawn_sequence user_id)) w in
        o = {| result := match fst asked with
                         | Ok a => Ok (normalize linalg_norm a,
                                       <[user_id := normalize linalg_norm a]> cache)
                         | Raise e => Raise e
                         end;
               world := snd asked;
               calls := [Called (ModelForward (drawn_sequence user_id))
                           (fst asked)] |}
      else o = {| result := Raise Api.seed_error; world := w; calls := [] |}
  end.
Proof.
  unfold Api.get_user_embedding, Api.generate_user_sequence.
  destruct (cache !! user_id) as [v |]; [reflexivity |].
  case_bool_decide; [| reflexivity].
  unfold extract_user_embeddings, call. simpl.
  destruct (h _ (ModelForward _) w) as [[a | e] w1]; reflexivity.
Qed.

(** X22.  [get_user_embedding] of [api.py] fills the cache: after a
    successful call the cache holds the returned embedding for the user
    and is unchanged for every other user, so that the next call for
    the user calls no service at all.  A miss asks the model once, on
    the generated sequence of the user, and returns its normalised
    answer; a hit calls nothing and leaves the cache as it is. *)
Theorem get_user_embedding_fills_cache (cache cache' : gmap Z Vector)
    (user_id : Z) (w : W) (v : Vector) :
  let o := run h (Api.get_user_embedding linalg_norm drawn_sequence
                    cache user_id) w in
  result o = Ok (v, cache') ->
  cache' !! user_id = Some v /\
  (forall u, u <> user_id -> cache' !! u = cache !! u) /\
  Api.get_user_embedding linalg_norm drawn_sequence cache' user_id
  = Ret (v, cache') /\
  (cache !! user_id = None ->
   Api.seed_accepted user_id /\
   exists a, calls o = [Called (ModelForward (drawn_sequence user_id)) (Ok a)] /\
             v = normalize linalg_norm a) /\
  (is_Some (cache !! user_id) -> calls o = [] /\ cache' = cache).
Proof.
  intros o Hr. subst o.
  pose proof (get_user_embedding_run cache user_id w) as Hrun. cbv zeta in Hrun.
  assert (Hhit : cache' !! user_id = Some v ->
                 Api.get_user_embedding linalg_norm drawn_sequence
                   cache' user_id = Ret (v, cache')).
  { intros Hc. unfold Api.get_user_embedding. by rewrite Hc. }
  destruct (cache !! user_id) as [v0 |] eqn:Hc.
  - rewrite Hrun in Hr |- *. cbn in Hr |- *. injection Hr as <- <-.
    split; [exact Hc |]. split; [done |]. split; [by apply Hhit |].
    split; [discriminate | done].
  - case_bool_decide as Hseed; rewrite Hrun in Hr |- *; [| discriminate Hr].
    cbn [result calls] in Hr |- *.
    destruct (fst (h _ (ModelForward (drawn_sequence user_id)) w))
      as [a | e]; [| discriminate]. injection Hr as <- <-.
    assert (Hnew : <[user_id := normalize linalg_norm a]> cache !! user_id
                   = Some (normalize linalg_norm a)) by apply lookup_insert_eq.
    split; [exact Hnew |]. split; [intros u Hu; by apply lookup_insert_ne |].
    split; [by apply Hhit |]. split; [eauto |]. intros [? ?]. discriminate.
Qed.

(** X23.  [recommend_filter] of [api.py] always answers: with a
    response, or with an HTTP 500 whose detail is the text of the
    exception that was raised (never a 404).  It changes the cache for
    the user of the request only, and leaves the embedding written even
    when the search fails afterwards.  For a user without a cached
    embedding whose id NumPy refuses as a seed, the answer is the HTTP
    500 of the seed's [ValueError], nothing is called and nothing is
    cached; for one whose id is accepted, the cache holds the normalised
    answer of the model once the model has answered.  For a user with a
    cached embedding it does not call the model, and its
    recommendations are exactly what [search_similar] answers for that
    embedding, [k] and the filters of the request: movies the user has
    seen are not removed. *)
Theorem recommend_filter_outcome (qdrant_service : QdrantService)
    (cache : gmap Z Vector) (request : ApiFilter.RecommendationRequest) (w : W) :
  let uid := ApiFilter.user_id request in
  let o := run h (ApiFilter.recommend_filter linalg_norm drawn_sequence
                    qdrant_service cache request) w in
  exists answer cache',
    result o = Ok (answer, cache') /\
    (forall u, u <> uid -> cache' !! u = cache !! u) /\
    (forall e, answer = Raise e -> exists detail, e = HTTPException 500 detail) /\
    (forall response, answer = Ok response ->
       ApiFilter.resp_user_id response = uid /\
       ApiFilter.method response = "qdrant_filtered" /\
       ApiFilter.filters_applied response = ApiFilter.filters request /\
       is_Some (cache' !! uid)) /\
    (forall a w1,
       cache !! uid = None -> Api.seed_accepted uid ->
       h _ (ModelForward (drawn_sequence uid)) w = (Ok a, w1) ->
       cache' !! uid = Some (normalize linalg_norm a)) /\
    (cache !! uid = None -> ~ Api.seed_accepted uid ->
     answer = Raise (ApiFilter.http_500 Api.seed_error) /\
     cache' = cache /\ calls o = []) /\
    (forall v, cache !! uid = Some v ->
       let found := run h (search_similar qdrant_service v (ApiFilter.k request)
                             (ApiFilter.filters request)) w in
       cache' = cache /\ calls o = calls found /\
       existsb is_model_call (calls o) = false /\
       match result found with
       | Ok results =>
           exists response, answer = Ok response /\
                            ApiFilter.recommendations response = results
       | Raise e => answer = Raise (ApiFilter.http_500 e)
       end).
Proof.
  intros uid o. subst o.
  unfold ApiFilter.recommend_filter. rewrite run_try_except, run_bind.
  pose proof (get_user_embedding_run cache uid w) as Hrun. cbv zeta in Hrun.
  fold uid. destruct (cache !! uid) as [v0 |] eqn:Hc.
  - rewrite Hrun. cbn [result world calls fst snd]. rewrite run_try_except, run_bind.
    assert (Hnomodel : existsb is_model_call
                         (calls (run h (search_similar qdrant_service v0
                                          (ApiFilter.k request)
                                          (ApiFilter.filters request)) w)) = false).
    { unfold search_similar. rewrite run_bind, run_lift. cbn [result world calls].
      destruct (build_filter (ApiFilter.filters request)) as [flt | e]; [| reflexivity].
      rewrite run_bind, run_call. cbn [result world calls].
      by destruct (fst (h _ (QdrantSearch _ _ _ _) w)). }
    destruct (result (run h (search_similar qdrant_service v0 (ApiFilter.k request)
                               (ApiFilter.filters request)) w))
      as [results | e] eqn:Hs.
    + cbn. eexists _, cache. split; [reflexivity |]. split; [done |].
      split; [discriminate |]. split.
      { intros response [= <-]. cbn. rewrite Hc. eauto. }
      split; [discriminate |]. split; [discriminate |].
      intros v [= <-]. cbv zeta. rewrite Hs.
      rewrite !app_nil_r. split; [done |]. split; [done |].
      split; [exact Hnomodel |]. eauto.
    + cbn. eexists _, cache. split; [reflexivity |]. split; [done |].
      split; [intros e0 [= <-]; unfold ApiFilter.http_500; eauto |].
      split; [discriminate |]. split; [discriminate |]. split; [discriminate |].
      intros v [= <-]. cbv zeta. rewrite Hs. rewrite !app_nil_r.
      split; [done |]. split; [done |]. split; [exact Hnomodel | done].
  - case_bool_decide as Hseed; rewrite Hrun; cbn [result world calls fst snd].
    + destruct (h _ (ModelForward (drawn_sequence uid)) w) as [[a | e] w1];
        cbn [fst snd].
      * rewrite run_try_except, run_bind.
        destruct (result (run h (search_similar qdrant_service
                                   (normalize linalg_norm a)
                                   (ApiFilter.k request)
                                   (ApiFilter.filters request)) w1))
          as [results | e] eqn:Hs.
        -- cbn. eexists _, _. split; [reflexivity |].
           split; [intros u Hu; by apply lookup_insert_ne |].
           split; [discriminate |]. split.
           { intros response [= <-]. cbn. rewrite lookup_insert_eq. eauto. }
           split; [| split; [done | discriminate]].
           intros a' w' _ _ [= <- <-]. apply lookup_insert_eq.
        -- cbn. eexists _, _. split; [reflexivity |].
           split; [intros u Hu; by apply lookup_insert_ne |].
           split; [intros e0 [= <-]; unfold ApiFilter.http_500; eauto |].
           split; [discriminate |]. split; [| split; [done | discriminate]].
           intros a' w' _ _ [= <- <-]. apply lookup_insert_eq.
      * cbn. eexists _, cache. split; [reflexivity |]. split; [done |].
        split; [intros e0 [= <-]; unfold ApiFilter.http_500; eauto |].
        split; [discriminate |]. split; [discriminate |].
        split; [done | discriminate].
    + cbn. eexists _, cache. split; [reflexivity |]. split; [done |].
      split; [intros e0 [= <-]; unfold ApiFilter.http_500; eauto |].
      split; [discriminate |]. split; [done |]. split; [done | discriminate].
Qed.

End UserEmbeddings.

Lemma extract_user_embeddings_per_sequence_witness :
  let w := {| RefWorld.redis := ∅; RefWorld.ratings := []; RefWorld.movies := [];
              RefWorld.collections := ∅; RefWorld.clock := 0;
              RefWorld.mongo_up := true; RefWorld.embed := fun _ => [3%Q; 4%Q] |} in
  exists embeddings,
    result (run RefWorld.handler (extract_user_embeddings (fun _ => 5%Q) [[5; 3]]) w)
    = Ok embeddings /\
    embeddings = [[(3 # 5)%Q; (4 # 5)%Q]] /\
    Forall unit_norm embeddings.
Proof.
  intros w.
  pose proof (extract_user_embeddings_per_sequence RefWorld.handler (fun _ => 5%Q)
                [[5; 3]] w) as H.
  cbv zeta in H.
  destruct (result (run RefWorld.handler
                      (extract_user_embeddings (fun _ => 5%Q) [[5; 3]]) w))
    as [embeddings | e] eqn:Hr; [| vm_compute in Hr; discriminate Hr].
  destruct H as (answers & Hlen & Hcalls & -> & Hunit).
  destruct answers as [| a [| b answers]]; try discriminate Hlen.
  apply (f_equal (fun t => concat (model_answer <$> t))) in Hcalls.
  vm_compute in Hcalls. injection Hcalls as <-.
  eexists. split; [reflexivity |]. split; [vm_compute; reflexivity |].
  apply Forall_cons in Hunit as [Hunit _].
  constructor; [| constructor]. apply Hunit.
  - vm_compute. reflexivity.
  - vm_compute. discriminate.
Defined.

Lemma get_user_embedding_fills_cache_witness :
  let o := run RefWorld.handler
             (Api.get_user_embedding (fun _ => 1%Q) (fun _ => [5; 3]) ∅ 7)
             Samples.catalogue in
  result o = Ok ([1%Q; 0%Q], {[ 7 := [1%Q; 0%Q] ]}) /\
  Api.get_user_embedding (fun _ => 1%Q) (fun _ => [5; 3]) {[ 7 := [1%Q; 0%Q] ]} 7
  = Ret ([1%Q; 0%Q], {[ 7 := [1%Q; 0%Q] ]}).
Proof.
  intros o.
  assert (Hr : result o = Ok ([1%Q; 0%Q], ({[ 7 := [1%Q; 0%Q] ]} : gmap Z Vector)))
    by (vm_compute; reflexivity).
  split; [exact Hr |].
  exact (proj1 (proj2 (proj2 (get_user_embedding_fills_cache RefWorld.handler
                                (fun _ => 1%Q) (fun _ => [5; 3]) ∅ _ 7
                                Samples.catalogue _ Hr)))).
Defined.

Lemma recommend_filter_outcome_witness :
  let request := {| ApiFilter.user_id := 7; ApiFilter.k := 2;
                    ApiFilter.filters := None |} in
  let o := run RefWorld.handler
             (ApiFilter.recommend_filter (fun _ => 1%Q) (fun _ => [5; 3])
                Samples.movies_service Samples.cache_with_7 request)
             Samples.catalogue in
  exists answer,
    result o = Ok (answer, Samples.cache_with_7) /\
    existsb is_model_call (calls o) = false.
Proof.
  intros request o.
  destruct (recommend_filter_outcome RefWorld.handler (fun _ => 1%Q) (fun _ => [5; 3])
              Samples.movies_service Samples.cache_with_7 request Samples.catalogue)
    as (answer & cache' & Hr & _ & _ & _ & _ & _ & Hhit).
  destruct (Hhit [1%Q; 0%Q] eq_refl) as (-> & _ & Hnomodel & _).
  exists answer. split; [exact Hr | exact Hnomodel].
Defined.

(** ** Placeholder metadata, and a rating written without its cache entry removed *)

Section PlaceholderMetadata.
Context {W : Type} (h : Handler W).
Variable read_movies : string -> Result (list Dict).

(** X24.  Without a metadata file [load_movie_metadata] gives 3416
    placeholder movies numbered from 1.  [insert_movies] numbers its
    points from 0, so every point it sends with this metadata has a
    "movie_id" that is its point id plus one. *)
Theorem placeholder_metadata_shifts_ids (files : gmap string string)
    (movies_file : string) (self : QdrantService) (embeddings : list Vector) (w : W) :
  files !! movies_file = None ->
  exists metadata,
    load_movie_metadata read_movies files movies_file = Ok metadata /\
    length metadata = 3416%nat /\
    (forall i : nat, (i < 3416)%nat ->
       metadata !! i = Some (placeholder_movie (Z.of_nat i + 1))) /\
    Forall (fun p => ps_payload p !! "movie_id" = Some (VInt (ps_id p + 1)) /\
                     0 <= ps_id p < 3416)
      (upserted_points (calls (run h (insert_movies self embeddings metadata) w))).
Proof.
  intros Hmissing. exists (placeholder_movie <$> seqZ 1 3416).
  unfold load_movie_metadata. rewrite Hmissing. split; [reflexivity |].
  assert (Hlookup : forall (i : nat) meta,
             (placeholder_movie <$> seqZ 1 3416) !! i = Some meta ->
             (i < 3416)%nat /\ meta = placeholder_movie (Z.of_nat i + 1)).
  { intros i meta Hm. rewrite list_lookup_fmap in Hm.
    destruct (seqZ 1 3416 !! i) as [n |] eqn:Hn; [| discriminate].
    apply lookup_seqZ in Hn as [-> Hi]. injection Hm as <-.
    split; [lia | f_equal; lia]. }
  split; [by rewrite length_fmap, length_seqZ |]. split.
  - intros i Hi. rewrite list_lookup_fmap.
    rewrite (proj2 (lookup_seqZ 1 3416 i (1 + Z.of_nat i))) by lia.
    simpl. f_equal. f_equal. lia.
  - destruct (upsert_batches_sent h (collection_name self)
                (batches 100 (movie_points 0 embeddings
                                (placeholder_movie <$> seqZ 1 3416))) w) as [Hp _].
    rewrite batches_concat in Hp by lia.
    fold (insert_movies self embeddings (placeholder_movie <$> seqZ 1 3416)) in Hp.
    destruct Hp as [rest Hp].
    assert (Hall : Forall (fun p => ps_payload p !! "movie_id" = Some (VInt (ps_id p + 1)) /\
                                    0 <= ps_id p < 3416)
                     (movie_points 0 embeddings (placeholder_movie <$> seqZ 1 3416))).
    { apply Forall_lookup. intros i p Hi.
      apply movie_points_lookup in Hi as (e & meta & _ & Hm & ->).
      apply Hlookup in Hm as [Hi ->]. cbn [ps_id ps_payload]. split; [| lia].
      unfold movie_payload, dict_get_default, placeholder_movie.
      rewrite lookup_insert_eq, lookup_insert_eq. cbn [default].
      by rewrite Z.add_0_l. }
    rewrite Hp in Hall. by apply Forall_app in Hall as [Hall _].
Qed.

End PlaceholderMetadata.

Section RatingWritten.
Context {W : Type} (h : Handler W).

(** X25.  When the rating has been written and the deletion of the
    cached sequence raises, [update_user] answers HTTP 500 with the text
    of that exception although the rating is stored: the write is not
    undone, and the run ends in the world the failed deletion left. *)
Theorem update_user_write_without_invalidation
    (request : ApiVectorial.UserUpdateRequest) (w w1 w2 w3 : W) (t : Z) (e : Exn) :
  let uid := ApiVectorial.upd_user_id request in
  let write := RatingsUpdateOne uid (ApiVectorial.upd_movie_id request)
                 (ApiVectorial.upd_rating request) t in
  let o := run h (ApiVectorial.update_user request) w in
  h _ TimeNow w = (Ok t, w1) ->
  h _ write w1 = (Ok tt, w2) ->
  h _ (RedisDelete (user_sequence_key uid)) w2 = (Raise e, w3) ->
  result o = Raise (HTTPException 500 ("Error interno: " +:+ exn_str e)) /\
  world o = w3 /\
  calls o = [Called TimeNow (Ok t); Called write (Ok tt);
             Called (RedisDelete (user_sequence_key uid)) (Raise e)] /\
  existsb is_successful_write (calls o) = true.
Proof.
  intros uid write o Hnow Hwrite Hdel. subst o write uid.
  unfold ApiVectorial.update_user, update_user_rating, call. simpl.
  rewrite Hnow. simpl. rewrite Hwrite. simpl. rewrite Hdel. simpl. done.
Qed.

End RatingWritten.

Lemma placeholder_metadata_shifts_ids_witness :
  let files : gmap string string := ∅ in
  exists metadata,
    load_movie_metadata (fun _ => Ok []) files "ml-1m.txt" = Ok metadata /\
    length metadata = 3416%nat /\
    Forall (fun p => ps_payload p !! "movie_id" = Some (VInt (ps_id p + 1)) /\
                     0 <= ps_id p < 3416)
      (upserted_points
         (calls (run RefWorld.handler
                   (insert_movies Samples.movies_service [[1%Q; 0%Q]; [0%Q; 1%Q]]
                      metadata) Samples.empty_movies))).
Proof.
  intros files.
  assert (Hmissing : files !! "ml-1m.txt" = None) by (vm_compute; reflexivity).
  destruct (placeholder_metadata_shifts_ids RefWorld.handler (fun _ => Ok []) files
              "ml-1m.txt" Samples.movies_service [[1%Q; 0%Q]; [0%Q; 1%Q]]
              Samples.empty_movies Hmissing)
    as (metadata & Hload & Hlen & _ & Hall).
  exists metadata. split; [exact Hload |]. split; [exact Hlen | exact Hall].
Defined.

Lemma update_user_write_without_invalidation_witness :
  let o := run redis_read_only (ApiVectorial.update_user Samples.rating_request)
             Samples.catalogue in
  result o = Raise (HTTPException 500 "Error interno: READONLY") /\
  existsb is_successful_write (calls o) = true.
Proof.
  intros o.
  destruct (update_user_write_without_invalidation redis_read_only
              Samples.rating_request Samples.catalogue Samples.catalogue
              (snd (redis_read_only _ (RatingsUpdateOne 7 3 (9 # 2)%Q 100)
                      Samples.catalogue))
              (snd (redis_read_only _ (RatingsUpdateOne 7 3 (9 # 2)%Q 100)
                      Samples.catalogue))
              100 (ExternalError "READONLY") eq_refl eq_refl eq_refl)
    as (Hr & _ & _ & Hw).
  split; [exact Hr | exact Hw].
Defined.

(** ** [recommend]: seen movies are removed before the cut *)

Section RecommendAnswer.
Context {C : Codec} {W : Type} (h : Handler W).

Lemma get_movie_metadata_no_search (movie_id : Value) (w : W) :
  existsb is_search_call (calls (run h (get_movie_metadata movie_id) w)) = false.
Proof.
  unfold get_movie_metadata, cached_movie, call. simpl.
  destruct (h _ (RedisGet _) w) as [[cached | e] w1]; simpl; [| done].
  destruct (cached_text cached) as [text |]; simpl.
  - destruct (json_loads text) as [d | e]; simpl; [done |].
    destruct e; simpl; try done.
    destruct (h _ (RedisDelete _) w1) as [[[] | e] w2]; simpl; [| done].
    destruct (h _ (MoviesFindOne _) w2) as [[[m |] | e] w3]; simpl; try done.
    case_bool_decide; simpl; [done |].
    destruct (h _ (RedisSetex _ _ _) w3) as [[[] | e] w4]; done.
  - destruct (h _ (MoviesFindOne _) w1) as [[[m |] | e] w3]; simpl; try done.
    case_bool_decide; simpl; [done |].
    destruct (h _ (RedisSetex _ _ _) w3) as [[[] | e] w4]; done.
Qed.

Lemma enrich_no_search (recs : list Dict) (w : W) :
  existsb is_search_call (calls (run h (ApiVectorial.enrich recs) w)) = false.
Proof.
  revert w. induction recs as [| rec rest IH]; intros w; [reflexivity |].
  cbn [ApiVectorial.enrich]. rewrite run_bind, run_lift. cbn [result world calls].
  destruct (dict_index rec "movie_id") as [movie_id | e]; [| reflexivity].
  cbn [calls app]. rewrite run_bind.
  pose proof (get_movie_metadata_no_search movie_id w) as Hmd.
  destruct (result (run h (get_movie_metadata movie_id) w)) as [md | e];
    cbn [calls]; [| exact Hmd].
  rewrite existsb_app, Hmd. cbn [orb]. rewrite run_bind.
  specialize (IH (world (run h (get_movie_metadata movie_id) w))).
  destruct (result (run h (ApiVectorial.enrich rest) _)); cbn [calls];
    [| exact IH].
  cbn [run calls]. by rewrite app_nil_r.
Qed.

Lemma get_user_embedding_no_search (model : bool) (user_sequence : list Z) (w : W) :
  existsb is_search_call
    (calls (run h (ApiVectorial.get_user_embedding model user_sequence) w)) = false.
Proof.
  unfold ApiVectorial.get_user_embedding, call.
  destruct model, user_sequence as [| x l]; try reflexivity.
  cbn [try_except bind run].
  destruct (h _ (ModelForward _) w) as [[v | e] w1]; reflexivity.
Qed.

Lemma search_similar_Ok_calls (self : QdrantService) (q : Vector) (k : Z)
    (filters : option Dict) (w : W) (results : list Dict) :
  result (run h (search_similar self q k filters) w) = Ok results ->
  exists flt points,
    build_filter filters = Ok flt /\
    results = format_result <$> points /\
    calls (run h (search_similar self q k filters) w)
    = [Called (QdrantSearch (collection_name self) q k flt) (Ok points)].
Proof.
  unfold search_similar. rewrite run_bind, run_lift. cbn [result world calls].
  destruct (build_filter filters) as [flt | e]; [| discriminate].
  unfold call. cbn [bind run app].
  destruct (h _ (QdrantSearch (collection_name self) q k flt) w)
    as [[points | e] w']; cbn; [| discriminate].
  intros [= <-]. eauto.
Qed.


End RecommendAnswer.



(** ** Where vectors are normalised *)

Lemma dot_Qeq (u u' v v' : Vector) :
  Forall2 Qeq u u' -> Forall2 Qeq v v' -> (dot u v == dot u' v')%Q.
Proof.
  intros Hu. revert v v'. induction Hu as [| x x' u u' Hx Hu IH];
    intros v v' Hv; [reflexivity |].
  destruct Hv as [| y y' v v' Hy Hv]; [reflexivity |].
  simpl. by rewrite Hx, Hy, (IH v v' Hv).
Qed.

Lemma elem_of_points_of (coll : gmap Z (Vector * Dict)) (p : PointStruct) :
  p ∈ RefWorld.points_of coll <->
  coll !! ps_id p = Some (ps_vector p, ps_payload p).
Proof.
  unfold RefWorld.points_of. rewrite list_elem_of_fmap. split.
  - intros ([i [v d]] & -> & Hin). simpl. by apply elem_of_map_to_list in Hin.
  - intros H. exists (ps_id p, (ps_vector p, ps_payload p)).
    split; [by destruct p | by apply elem_of_map_to_list].
Qed.

Lemma upsert_points_elem (points : list PointStruct) (coll : gmap Z (Vector * Dict))
    (p : PointStruct) :
  p ∈ RefWorld.points_of (RefWorld.upsert_points coll points) ->
  p ∈ RefWorld.points_of coll \/
  exists p0, p0 ∈ points /\ ps_id p = ps_id p0 /\ ps_payload p = ps_payload p0 /\
             ps_vector p = RefWorld.cosine_preprocess (ps_vector p0).
Proof.
  revert coll. induction points as [| p0 points IH]; intros coll; [by left |].
  unfold RefWorld.upsert_points. cbn [foldl].
  fold (RefWorld.upsert_points
          (<[ps_id p0 := (RefWorld.cosine_preprocess (ps_vector p0), ps_payload p0)]> coll)
          points).
  intros H. apply IH in H as [H | (p1 & Hin & Hrest)].
  - apply elem_of_points_of in H.
    destruct (decide (ps_id p0 = ps_id p)) as [Heq | Hne].
    + rewrite Heq, lookup_insert_eq in H. injection H as Hv Hd.
      right. exists p0. split; [left |]. auto.
    + rewrite lookup_insert_ne in H by exact Hne.
      left. by apply elem_of_points_of.
  - right. exists p1. split; [by right | exact Hrest].
Qed.

Lemma ref_cosine_store :
  CosineStore RefWorld.handler RefWorld.stored RefWorld.cosine_preprocess.
Proof.
  split. intros X ev w name p.
  destruct ev; simpl;
    repeat (match goal with
            | |- context [if ?b then _ else _] => destruct b
            | |- context [match RefWorld.collections ?w0 !! ?n with _ => _ end] =>
                destruct (RefWorld.collections w0 !! n) eqn:?
            end; simpl); try (by left).
  all: unfold RefWorld.stored; simpl.
  all: match goal with
       | |- context [<[?n := _]> (RefWorld.collections _)] =>
           destruct (decide (n = name)) as [-> | Hne];
           [rewrite lookup_insert_eq | rewrite lookup_insert_ne by exact Hne; by left]
       end; simpl.
  - intros H. apply upsert_points_elem in H as [H | H]; [left | by right].
    match goal with E : RefWorld.collections _ !! name = Some _ |- _ =>
      by rewrite E end.
  - intros H. by apply not_elem_of_nil in H.
Qed.

(** In the reference engine a vector whose squared length has an exact
    root, and is neither tiny nor already one, is stored with unit
    norm. *)
Lemma cosine_preprocess_unit_norm (v : Vector) :
  let s := RefWorld.sqrt_q (norm_sq v) in
  (s * s == norm_sq v)%Q -> ~ (s == 0)%Q ->
  unit_norm (RefWorld.cosine_preprocess v) \/ RefWorld.cosine_preprocess v = v.
Proof.
  intros s Hs Hnz. unfold RefWorld.cosine_preprocess. cbv zeta.
  destruct (_ && _); [left | by right].
  fold s. unfold unit_norm, norm_sq.
  rewrite (dot_Qeq _ ((fun c => c / s)%Q <$> v) _ ((fun c => c / s)%Q <$> v)).
  - exact (normalize_unit_norm (fun _ => s) v Hs Hnz).
  - apply Forall2_fmap, Forall_Forall2_diag, Forall_forall.
    intros c _. apply Qred_correct.
  - apply Forall2_fmap, Forall_Forall2_diag, Forall_forall.
    intros c _. apply Qred_correct.
Qed.

Section NormalisedStore.
Context {W : Type} (h : Handler W).
Variable stored : W -> string -> list PointStruct.
Variable preprocess : Vector -> Vector.
Hypothesis CS : CosineStore h stored preprocess.
Variable linalg_norm : Vector -> Q.

(** Over any program, what the store holds at the end was held at the
    start or is a preprocessed point of one of the run's upserts. *)
Lemma run_stored {A : Type} (m : Prog A) (w : W) (name : string) (p : PointStruct) :
  p ∈ stored (world (run h m w)) name ->
  p ∈ stored w name \/
  exists p0, p0 ∈ upserted_points (calls (run h m w)) /\
             ps_id p = ps_id p0 /\ ps_payload p = ps_payload p0 /\
             ps_vector p = preprocess (ps_vector p0).
Proof.
  revert w. induction m as [a | e | X ev k IH]; intros w; simpl; [by left | by left |].
  pose proof (cosine_upsert _ _ _ CS X ev w name) as Hev.
  destruct (h X ev w) as [r w'] eqn:E. simpl in *.
  intros H. apply IH in H as [H | (p0 & Hin & Hrest)].
  - apply Hev in H as [H | (p0 & Hin & Hrest)]; [by left |].
    right. exists p0. split; [| exact Hrest].
    unfold upserted_points. simpl. apply elem_of_app. by left.
  - right. exists p0. split; [| exact Hrest].
    unfold upserted_points. simpl. apply elem_of_app. by right.
Qed.


End NormalisedStore.


